(** * DanmakuEngine: lane scheduling, element pool and recycling

    A shallow embedding of the [DanmakuEngine] class (the scrolling-comment
    renderer) together with the properties of its lane table, element pool
    and configuration surface.

    Conventions of the embedding:
    - A JavaScript number is a [number]: an IEEE 754 binary64 value in the
      representation of the Standard Library's [SpecFloat] (sign, mantissa
      and exponent, with signed zeros, the two infinities and [NaN]).  The
      operators [+], [*], [/] and the comparisons are that library's
      operations at precision 53: every result is rounded to nearest, ties
      to even, as JavaScript rounds it.
    - DOM pixel sizes ([clientHeight], [clientWidth]) have the WebIDL type
      [long]; they are never negative, so a [long] is an unsigned integer
      below [2^31].
    - A DOM element is a record of the properties the engine reads or writes;
      style properties that the engine builds from numbers keep the number
      (the unit suffix is fixed by the property).  An assignment to a style
      property goes through the CSS parser: a value that is not valid for
      the property is dropped, and the property keeps the value it had.
    - Elements are shared by reference between the pool and the pending
      [setTimeout] callbacks.  The pool only ever grows by [push], so an
      element's index in the pool is its identity.
    - [Date.now()] and the firing of timers belong to the host: the current
      time is an argument of [add], and pending callbacks are kept in the
      engine state and fired by an explicit event. *)

From Stdlib Require Import SpecFloat ZArith Lia.
From stdpp Require Import base list strings.

Local Open Scope Z_scope.
Local Open Scope nat_scope.

(** ** JavaScript numbers *)

(** The parameters of binary64. *)
Definition prec : Z := 53.
Definition emax : Z := 1024.

Definition number : Type := spec_float.

Global Instance number_eq_dec : EqDecision number.
Proof. solve_decision. Defined.

(** The number an integer denotes; an integer of more than 53 significant
    bits is rounded. *)
Definition of_Z (z : Z) : number := binary_normalize prec emax z 0 false.
Definition of_N (n : N) : number := of_Z (Z.of_N n).
Definition of_nat (n : nat) : number := of_Z (Z.of_nat n).

(** [a + b] *)
Definition jadd (a b : number) : number := SFadd prec emax a b.

(** [a * b] *)
Definition jmul (a b : number) : number := SFmul prec emax a b.

(** [a / b] *)
Definition jdiv (a b : number) : number := SFdiv prec emax a b.

(** [a >= b]; every comparison with [NaN] is false. *)
Definition jge (a b : number) : bool := SFleb b a.

(** [a < b] *)
Definition jlt (a b : number) : bool := SFltb a b.

(** [a > b] *)
Definition jgt (a b : number) : bool := jlt b a.

(** Truthiness of a number: both zeros and [NaN] are falsy. *)
Definition number_truthy (a : number) : bool :=
  match a with
  | S754_zero _ | S754_nan => false
  | S754_infinity _ | S754_finite _ _ _ => true
  end.

(** [Number.isFinite(a)] *)
Definition is_finite (a : number) : bool :=
  match a with
  | S754_zero _ | S754_finite _ _ _ => true
  | S754_infinity _ | S754_nan => false
  end.

(** [x] is a zero or a finite number, of sign [s] and of magnitude below
    [2^K]. *)
Definition bounded_by (s : bool) (K : Z) (x : number) : Prop :=
  match x with
  | S754_zero s' => s' = s
  | S754_finite s' m e => s' = s ∧ (Z.pos (digits2_pos m) + e ≤ K)%Z
  | S754_infinity _ | S754_nan => False
  end.

(** ** DOM integers *)

(** A [long] attribute of the DOM that is never negative. *)
Record long : Type := Long {
  long_val :> N;
  long_range : (long_val <? 2 ^ 31)%N = true
}.

(** ** CSS values *)

(** A CSS [<number>], or a [<length>] in pixels: the decimal text of any
    finite number parses; ['NaN'] and ['Infinity'] do not. *)
Definition css_number (n : number) : bool := is_finite n.

(** A length or a time that may not be negative ([font-size], the duration
    of a transition, and the distance in [translateX(-...px)], whose minus
    sign is part of the template). *)
Definition css_nonnegative (n : number) : bool :=
  is_finite n && negb (jlt n (of_Z 0)).

Definition is_hex_digit (a : Ascii.ascii) : bool :=
  let n := Ascii.nat_of_ascii a in
  ((48 <=? n) && (n <=? 57)) || ((65 <=? n) && (n <=? 70)) ||
  ((97 <=? n) && (n <=? 102)).

(** The hexadecimal notations [#rgb] and [#rrggbb] of a colour. *)
Definition hex_color (s : string) : bool :=
  match s with
  | String a digits =>
      Ascii.eqb a (Ascii.ascii_of_nat 35) &&
      forallb is_hex_digit (String.list_ascii_of_string digits) &&
      ((String.length digits =? 3) || (String.length digits =? 6))
  | EmptyString => false
  end.

(** ** DOM elements *)

(** The values of [style.display] the engine uses; [DisplayUnset] is the
    empty string of a freshly created element. *)
Inductive display_value : Type :=
| DisplayUnset
| DisplayNone
| DisplayBlock.

Global Instance display_value_eq_dec : EqDecision display_value.
Proof. solve_decision. Defined.

Record element : Type := Element {
  className : string;
  textContent : string;             (* also cleared through innerHTML = '' *)
  style_display : display_value;
  style_transform : option number;  (* Some d : translateX(-d px); None : '' *)
  style_transition : option number; (* Some d : transform d ms linear *)
  style_color : string;
  style_fontSize : option number;   (* in px *)
  style_fontFamily : string;
  style_textShadow : string;
  style_opacity : option number;
  style_top : option number;        (* in px *)
  style_left : option number        (* in px *)
}.

(** [document.createElement('div')] *)
Definition createElement : element :=
  {| className := ""; textContent := "";
     style_display := DisplayUnset; style_transform := None;
     style_transition := None; style_color := "";
     style_fontSize := None; style_fontFamily := "";
     style_textShadow := ""; style_opacity := None;
     style_top := None; style_left := None |}.

Definition set_className (v : string) (el : element) : element :=
  Element v (textContent el) (style_display el) (style_transform el)
    (style_transition el) (style_color el) (style_fontSize el)
    (style_fontFamily el) (style_textShadow el) (style_opacity el)
    (style_top el) (style_left el).

Definition set_textContent (v : string) (el : element) : element :=
  Element (className el) v (style_display el) (style_transform el)
    (style_transition el) (style_color el) (style_fontSize el)
    (style_fontFamily el) (style_textShadow el) (style_opacity el)
    (style_top el) (style_left el).

Definition set_display (v : display_value) (el : element) : element :=
  Element (className el) (textContent el) v (style_transform el)
    (style_transition el) (style_color el) (style_fontSize el)
    (style_fontFamily el) (style_textShadow el) (style_opacity el)
    (style_top el) (style_left el).

Definition set_transform (v : option number) (el : element) : element :=
  Element (className el) (textContent el) (style_display el) v
    (style_transition el) (style_color el) (style_fontSize el)
    (style_fontFamily el) (style_textShadow el) (style_opacity el)
    (style_top el) (style_left el).

Definition set_transition (v : option number) (el : element) : element :=
  Element (className el) (textContent el) (style_display el)
    (style_transform el) v (style_color el) (style_fontSize el)
    (style_fontFamily el) (style_textShadow el) (style_opacity el)
    (style_top el) (style_left el).

Definition set_color (v : string) (el : element) : element :=
  Element (className el) (textContent el) (style_display el)
    (style_transform el) (style_transition el) v (style_fontSize el)
    (style_fontFamily el) (style_textShadow el) (style_opacity el)
    (style_top el) (style_left el).

Definition set_fontSize (v : option number) (el : element) : element :=
  Element (className el) (textContent el) (style_display el)
    (style_transform el) (style_transition el) (style_color el) v
    (style_fontFamily el) (style_textShadow el) (style_opacity el)
    (style_top el) (style_left el).

Definition set_fontFamily (v : string) (el : element) : element :=
  Element (className el) (textContent el) (style_display el)
    (style_transform el) (style_transition el) (style_color el)
    (style_fontSize el) v (style_textShadow el) (style_opacity el)
    (style_top el) (style_left el).

Definition set_textShadow (v : string) (el : element) : element :=
  Element (className el) (textContent el) (style_display el)
    (style_transform el) (style_transition el) (style_color el)
    (style_fontSize el) (style_fontFamily el) v (style_opacity el)
    (style_top el) (style_left el).

Definition set_opacity (v : option number) (el : element) : element :=
  Element (className el) (textContent el) (style_display el)
    (style_transform el) (style_transition el) (style_color el)
    (style_fontSize el) (style_fontFamily el) (style_textShadow el) v
    (style_top el) (style_left el).

Definition set_top (v : option number) (el : element) : element :=
  Element (className el) (textContent el) (style_display el)
    (style_transform el) (style_transition el) (style_color el)
    (style_fontSize el) (style_fontFamily el) (style_textShadow el)
    (style_opacity el) v (style_left el).

Definition set_left (v : option number) (el : element) : element :=
  Element (className el) (textContent el) (style_display el)
    (style_transform el) (style_transition el) (style_color el)
    (style_fontSize el) (style_fontFamily el) (style_textShadow el)
    (style_opacity el) (style_top el) v.

(** [recycleDanmakuElement(el)]: hide, clear the transform, clear the content. *)
Definition recycleDanmakuElement (el : element) : element :=
  set_textContent "" (set_transform None (set_display DisplayNone el)).

(** The free state of a pool slot: hidden, no transform, no content. *)
Definition is_free (el : element) : Prop :=
  style_display el = DisplayNone ∧ style_transform el = None ∧
  textContent el = "".

(** ** Comments *)

(** The record handed to [add]; an absent field is [None]. *)
Record danmaku : Type := Danmaku {
  content : string;
  color : option string;
  font_size : option number;
  username : option string
}.

Definition default_color : string := "#FFFFFF".
Definition default_font_size : number := of_Z 24.

(** [danmaku.color || '#FFFFFF']: [undefined] and the empty string are falsy. *)
Definition color_or_default (d : danmaku) : string :=
  match color d with
  | Some c => if bool_decide (c = "") then default_color else c
  | None => default_color
  end.

(** [danmaku.font_size || 24]: [undefined], [0] and [NaN] are falsy. *)
Definition font_size_or_default (d : danmaku) : number :=
  match font_size d with
  | Some n => if number_truthy n then n else default_font_size
  | None => default_font_size
  end.

(** ** Engine state *)

Record container : Type := Container {
  clientHeight : long;
  clientWidth : long
}.

(** A pending [setTimeout(() => this.recycleDanmakuElement(el), duration)]:
    the captured element and the delay. *)
Record timer : Type := Timer {
  timer_el : nat;
  timer_delay : number
}.

Record engine : Type := Engine {
  surface : container;         (* this.container *)
  numTracks : nat;
  trackStatus : list number;
  danmakuPool : list element;
  speed : number;
  opacity : number;
  enabled : bool;
  timers : list timer          (* host state: callbacks not yet fired *)
}.

(** Fields assigned once in the constructor and never again. *)
Definition trackHeight : Z := 30.
Definition trackGap : Z := 5.
Definition poolSize : nat := 50.
Definition baseSpeed : number := of_Z 100.

Definition set_surface (v : container) (e : engine) : engine :=
  Engine v (numTracks e) (trackStatus e) (danmakuPool e) (speed e)
    (opacity e) (enabled e) (timers e).

Definition set_tracks (n : nat) (ts : list number) (e : engine) : engine :=
  Engine (surface e) n ts (danmakuPool e) (speed e) (opacity e) (enabled e)
    (timers e).

Definition set_trackStatus (ts : list number) (e : engine) : engine :=
  Engine (surface e) (numTracks e) ts (danmakuPool e) (speed e) (opacity e)
    (enabled e) (timers e).

Definition set_danmakuPool (p : list element) (e : engine) : engine :=
  Engine (surface e) (numTracks e) (trackStatus e) p (speed e) (opacity e)
    (enabled e) (timers e).

Definition set_speed (v : number) (e : engine) : engine :=
  Engine (surface e) (numTracks e) (trackStatus e) (danmakuPool e) v
    (opacity e) (enabled e) (timers e).

Definition set_engine_opacity (v : number) (e : engine) : engine :=
  Engine (surface e) (numTracks e) (trackStatus e) (danmakuPool e) (speed e)
    v (enabled e) (timers e).

Definition set_enabled (v : bool) (e : engine) : engine :=
  Engine (surface e) (numTracks e) (trackStatus e) (danmakuPool e) (speed e)
    (opacity e) v (timers e).

Definition set_timers (v : list timer) (e : engine) : engine :=
  Engine (surface e) (numTracks e) (trackStatus e) (danmakuPool e) (speed e)
    (opacity e) (enabled e) v.

(** ** Lane table *)

(** [new Array(n).fill(0)] *)
Definition fresh_tracks (n : nat) : list number := replicate n (of_Z 0).

(** [calculateTracks()]: [Math.floor(clientHeight / (trackHeight + trackGap))]
    lanes, all free. *)
Definition calculateTracks (e : engine) : engine :=
  let containerHeight := Z.of_N (clientHeight (surface e)) in
  let n := Z.to_nat (containerHeight / (trackHeight + trackGap)) in
  set_tracks n (fresh_tracks n) e.

(** [now >= this.trackStatus[i]]; an index past the end reads [undefined],
    and the comparison with it is false. *)
Definition track_available (now : number) (ts : list number) (i : nat) : bool :=
  match ts !! i with
  | Some freeAt => jge now freeAt
  | None => false
  end.

(** The scan [for (i = ...; i < numTracks; i++) if (...) { trackIndex = i; break }],
    with [remaining] lanes left to visit from [i]; [None] is [trackIndex === -1]. *)
Fixpoint scanTracks (now : number) (ts : list number) (i remaining : nat)
  : option nat :=
  match remaining with
  | O => None
  | S r => if track_available now ts i then Some i
           else scanTracks now ts (S i) r
  end.

Definition findTrack (now : number) (e : engine) : option nat :=
  scanTracks now (trackStatus e) 0 (numTracks e).

(** ** Element pool *)

Definition pool_element : element :=
  set_display DisplayNone (set_className "danmaku" createElement).

(** [createPool()]: the loop pushes one hidden element per iteration. *)
Fixpoint createPool_loop (remaining : nat) (pool : list element) : list element :=
  match remaining with
  | O => pool
  | S r => createPool_loop r (pool ++ [pool_element])
  end.

Definition createPool (e : engine) : engine :=
  set_danmakuPool (createPool_loop poolSize (danmakuPool e)) e.

(** [getDanmakuElement()]: the first element whose display is ['none'], or a
    new element pushed at the end of the pool.  Returns the element's index
    and the engine with the (possibly longer) pool. *)
Definition getDanmakuElement (e : engine) : nat * engine :=
  match list_find (λ el, style_display el = DisplayNone) (danmakuPool e) with
  | Some (i, _) => (i, e)
  | None =>
      (length (danmakuPool e),
       set_danmakuPool
         (danmakuPool e ++ [set_className "danmaku" createElement]) e)
  end.

(** ** Scheduling *)

Definition danmaku_fontFamily : string := "Microsoft YaHei, sans-serif".
Definition danmaku_textShadow : string :=
  "1px 1px 2px #000, -1px -1px 2px #000, 1px -1px 2px #000, -1px 1px 2px #000".

(** The browser's part in rendering a comment.

    [measureText(text, fontSize)] is the width the browser lays the text out
    at; a [clientWidth], hence a [long].  The layout is the host's, so the
    engine is parameterised by it.  (The body in the source builds a hidden
    element and reads its width; its line
    [tempEl.style.white-space = 'nowrap'] is not an assignment a JavaScript
    parser accepts, so the function is taken by its contract.)

    [supportsColor] tells which colour values other than the hexadecimal
    ones the CSS parser accepts (colour names, [rgb(...)] and the like). *)
Class Layout : Type := {
  measureText : string → number → long;
  supportsColor : string → bool
}.

(** ** Assignments to [el.style] *)

(** [el.style.opacity = o] *)
Definition assign_opacity (o : number) (el : element) : element :=
  if css_number o then set_opacity (Some o) el else el.

(** [el.style.top = top + 'px'] *)
Definition assign_top (top : number) (el : element) : element :=
  if css_number top then set_top (Some top) el else el.

(** [el.style.left = left + 'px'] *)
Definition assign_left (left : number) (el : element) : element :=
  if css_number left then set_left (Some left) el else el.

(** [el.style.fontSize = size + 'px'] *)
Definition assign_fontSize (size : number) (el : element) : element :=
  if css_nonnegative size then set_fontSize (Some size) el else el.

(** [el.style.transition = `transform ${duration}ms linear`] *)
Definition assign_transition (duration : number) (el : element) : element :=
  if css_nonnegative duration then set_transition (Some duration) el else el.

(** [el.style.transform = `translateX(-${distance}px)`] *)
Definition assign_transform (distance : number) (el : element) : element :=
  if css_nonnegative distance then set_transform (Some distance) el else el.

Section Scheduling.

Context {layout : Layout}.

(** A value the CSS parser accepts as a colour. *)
Definition css_color (v : string) : bool := hex_color v || supportsColor v.

(** [el.style.color = v] *)
Definition assign_color (v : string) (el : element) : element :=
  if css_color v then set_color v el else el.

(** The assignments [add] makes to the element it obtained, in source order.
    The font family and the text shadow are constants that parse. *)
Definition render (d : danmaku) (o containerWidth top duration totalDistance : number)
    (el : element) : element :=
  let el := set_textContent (content d) el in
  let el := assign_color (color_or_default d) el in
  let el := assign_fontSize (font_size_or_default d) el in
  let el := set_fontFamily danmaku_fontFamily el in
  let el := set_textShadow danmaku_textShadow el in
  let el := assign_opacity o el in
  let el := assign_top top el in
  let el := assign_left containerWidth el in
  let el := set_display DisplayBlock el in
  let el := assign_transition duration el in
  assign_transform totalDistance el.

(** [containerWidth + textWidth] *)
Definition totalDistance_of (d : danmaku) (e : engine) : number :=
  jadd (of_N (clientWidth (surface e)))
       (of_N (measureText (content d) (font_size_or_default d))).

(** [(totalDistance / this.speed) * 1000] *)
Definition duration_of (d : danmaku) (e : engine) : number :=
  jmul (jdiv (totalDistance_of d e) (speed e)) (of_Z 1000).

(** [trackIndex * (this.trackHeight + this.trackGap)] *)
Definition top_of (trackIndex : nat) : number :=
  jmul (of_nat trackIndex) (of_Z (trackHeight + trackGap)).

(** The body of [add] once a lane was found.  The write
    [trackStatus[trackIndex] = ...] is always in range: the scan only returns
    an index whose entry it could read. *)
Definition place (now : number) (d : danmaku) (trackIndex : nat) (e : engine)
  : engine :=
  let '(idx, e1) := getDanmakuElement e in
  let containerWidth := of_N (clientWidth (surface e1)) in
  let totalDistance := totalDistance_of d e1 in
  let duration := duration_of d e1 in
  let top := top_of trackIndex in
  let pool :=
    alter (render d (opacity e1) containerWidth top duration totalDistance)
          idx (danmakuPool e1) in
  let ts := <[trackIndex := jadd now duration]> (trackStatus e1) in
  set_timers (timers e1 ++ [Timer idx duration])
    (set_danmakuPool pool (set_trackStatus ts e1)).

(** [add(danmaku)] at [Date.now() = now]. *)
Definition add (now : Z) (d : danmaku) (e : engine) : engine :=
  if negb (enabled e) then e
  else
    match findTrack (of_Z now) e with
    | None => e
    | Some trackIndex => place (of_Z now) d trackIndex e
    end.

(** The lane an [add] call selects, if it admits the comment. *)
Definition selected_track (now : Z) (e : engine) : option nat :=
  if negb (enabled e) then None else findTrack (of_Z now) e.

(** ** Configuration and lifecycle *)

Definition hide_all (pool : list element) : list element :=
  set_display DisplayNone <$> pool.

(** [setEnabled(enabled)] *)
Definition setEnabled (flag : bool) (e : engine) : engine :=
  let e := set_enabled flag e in
  if negb flag then
    set_trackStatus (fresh_tracks (numTracks e))
      (set_danmakuPool (hide_all (danmakuPool e)) e)
  else e.

(** [setOpacity(opacity)] *)
Definition setOpacity (o : number) (e : engine) : engine :=
  let e := set_engine_opacity o e in
  set_danmakuPool (assign_opacity o <$> danmakuPool e) e.

(** [setSpeed(speedMultiplier)] *)
Definition setSpeed (speedMultiplier : number) (e : engine) : engine :=
  set_speed (jmul (of_Z 100) speedMultiplier) e.

(** [clear()] *)
Definition clear (e : engine) : engine :=
  set_trackStatus (fresh_tracks (numTracks e))
    (set_danmakuPool (hide_all (danmakuPool e)) e).

(** [init()] and the constructor. *)
Definition init (e : engine) : engine := createPool (calculateTracks e).

Definition newEngine (c : container) : engine :=
  init {| surface := c; numTracks := 0; trackStatus := [];
          danmakuPool := []; speed := of_Z 100; opacity := of_Z 1;
          enabled := true; timers := [] |}.

(** The [k]-th pending recycle callback fires: it leaves the timer queue and
    recycles the element it captured. *)
Definition fire (k : nat) (e : engine) : engine :=
  match timers e !! k with
  | None => e
  | Some t =>
      set_timers (delete k (timers e))
        (set_danmakuPool
           (alter recycleDanmakuElement (timer_el t) (danmakuPool e)) e)
  end.

(** The surface changes size and the [resize] listener runs. *)
Definition onResize (c : container) (e : engine) : engine :=
  calculateTracks (set_surface c e).

(** ** Event traces *)

Inductive event : Type :=
| EvAdd (now : Z) (d : danmaku)
| EvRecycle (k : nat)
| EvSetEnabled (flag : bool)
| EvSetOpacity (o : number)
| EvSetSpeed (speedMultiplier : number)
| EvClear
| EvResize (c : container).

Definition step (ev : event) (e : engine) : engine :=
  match ev with
  | EvAdd now d => add now d e
  | EvRecycle k => fire k e
  | EvSetEnabled flag => setEnabled flag e
  | EvSetOpacity o => setOpacity o e
  | EvSetSpeed m => setSpeed m e
  | EvClear => clear e
  | EvResize c => onResize c e
  end.

Fixpoint run (evs : list event) (e : engine) : engine :=
  match evs with
  | [] => e
  | ev :: rest => run rest (step ev e)
  end.

(** ** Lane reservations *)

(** One admitted comment: the lane it was granted, its admission time and the
    duration computed for it. *)
Record admission : Type := Admission {
  adm_track : nat;
  adm_start : number;
  adm_duration : number
}.

Definition admission_of (now : Z) (d : danmaku) (e : engine) : option admission :=
  match selected_track now e with
  | Some i => Some (Admission i (of_Z now) (duration_of d e))
  | None => None
  end.

(** The comments admitted along a trace, oldest first. *)
Fixpoint admissions (evs : list event) (e : engine) : list admission :=
  match evs with
  | [] => []
  | ev :: rest =>
      match ev with
      | EvAdd now d => option_list (admission_of now d e)
      | _ => []
      end ++ admissions rest (step ev e)
  end.

(** [t] lies in [[reservationStart, reservationStart + duration)]. *)
Definition in_reservation (t : number) (a : admission) : bool :=
  jge t (adm_start a) && jlt t (jadd (adm_start a) (adm_duration a)).

Definition reservations_disjoint (a b : admission) : Prop :=
  ∀ t, ¬ (in_reservation t a = true ∧ in_reservation t b = true).

(** Events that leave the lane table alone unless they admit a comment. *)
Definition keeps_reservations (ev : event) : bool :=
  match ev with
  | EvResize _ | EvClear | EvSetEnabled false => false
  | _ => true
  end.

(** ** Pool occupancy *)

(** Comments admitted whose recycle callback has not fired yet. *)
Definition inFlight (e : engine) : nat := length (timers e).

(** The largest number of comments in flight at any point of a trace. *)
Fixpoint peakInFlight (evs : list event) (e : engine) : nat :=
  match evs with
  | [] => inFlight e
  | ev :: rest => Nat.max (inFlight e) (peakInFlight rest (step ev e))
  end.

(** Every element ever created is pushed on the pool and never removed. *)
Definition slotsCreated (e : engine) : nat := length (danmakuPool e).

Definition add_or_recycle (ev : event) : bool :=
  match ev with
  | EvAdd _ _ | EvRecycle _ => true
  | _ => false
  end.

Definition all_hidden (e : engine) : Prop :=
  ∀ el, el ∈ danmakuPool e → style_display el = DisplayNone.

(** The state [setEnabled(false)] establishes, kept by every event but
    [setEnabled(true)]. *)
Definition suppressed (e : engine) : Prop :=
  enabled e = false ∧ all_hidden e ∧
  trackStatus e = fresh_tracks (numTracks e).

(** The elements captured by pending recycle callbacks are pairwise distinct
    and are exactly the elements of the pool that are not hidden. *)
Definition in_flight_visible (e : engine) : Prop :=
  NoDup (timer_el <$> timers e) ∧
  ∀ i, i ∈ (timer_el <$> timers e) ↔
       ∃ el, danmakuPool e !! i = Some el ∧ style_display el ≠ DisplayNone.

(** ** Speed multipliers *)

(** The number 0.5. *)
Definition half : number := S754_finite false 4503599627370496 (-53).

(** The range the configuration surface documents for the multiplier of
    [setSpeed]: a binary64 value from 0.5 to 2.0. *)
Definition multiplier_in_range (m : number) : bool :=
  valid_binary prec emax m && jge m half && jge (of_Z 2) m.

Definition speeds_in_range (ev : event) : bool :=
  match ev with
  | EvSetSpeed m => multiplier_in_range m
  | _ => true
  end.

(** A finite, strictly positive speed, at least [2^-99] and below [2^10]. *)
Definition speed_bounded (v : number) : bool :=
  match v with
  | S754_finite false m e =>
      (-99 <=? e)%Z && (Z.pos (digits2_pos m) + e <=? 10)%Z
  | _ => false
  end.

(** ** Opacities *)

Definition finite_opacities (ev : event) : bool :=
  match ev with
  | EvSetOpacity o => is_finite o
  | _ => true
  end.

End Scheduling.

(** ** Invariants of reachable engines *)

(** The lane table has one entry per lane, and the lane count is the one
    [calculateTracks] derives from the surface the engine last saw. *)
Definition lanes_consistent (e : engine) : Prop :=
  length (trackStatus e) = numTracks e ∧
  numTracks e =
    Z.to_nat (Z.of_N (clientHeight (surface e)) / (trackHeight + trackGap)).

(** Every element on display carries the engine's current opacity. *)
Definition opacity_applied (e : engine) : Prop :=
  ∀ el, el ∈ danmakuPool e → style_display el = DisplayBlock →
        style_opacity el = Some (opacity e).

Fixpoint count_adds (evs : list event) : nat :=
  match evs with
  | [] => 0
  | EvAdd _ _ :: rest => S (count_adds rest)
  | _ :: rest => count_adds rest
  end.

(** ** The global API *)

(** The page as the exported functions see it: the element with id
    ['danmakuLayer'], if the document has one, and the global
    [danmakuEngine] ([None] is [null]). *)
Record page : Type := Page {
  danmakuLayer : option container;
  danmakuEngine : option engine
}.

Section GlobalApi.

Context {layout : Layout}.

(** [initDanmakuEngine()] *)
Definition initDanmakuEngine (pg : page) : page :=
  match danmakuLayer pg with
  | Some c => Page (danmakuLayer pg) (Some (newEngine c))
  | None => pg
  end.

(** [window.addDanmaku(data)] at [Date.now() = now] *)
Definition addDanmaku (now : Z) (data : danmaku) (pg : page) : page :=
  let pg :=
    match danmakuEngine pg, danmakuLayer pg with
    | None, Some _ => initDanmakuEngine pg
    | _, _ => pg
    end in
  match danmakuEngine pg with
  | Some e => Page (danmakuLayer pg) (Some (add now data e))
  | None => pg
  end.

(** [window.setDanmakuEnabled(enabled)] *)
Definition setDanmakuEnabled (flag : bool) (pg : page) : page :=
  match danmakuEngine pg with
  | Some e => Page (danmakuLayer pg) (Some (setEnabled flag e))
  | None => pg
  end.

(** [window.setDanmakuOpacity(opacity)] *)
Definition setDanmakuOpacity (o : number) (pg : page) : page :=
  match danmakuEngine pg with
  | Some e => Page (danmakuLayer pg) (Some (setOpacity o e))
  | None => pg
  end.

(** [window.setDanmakuSpeed(speedMultiplier)] *)
Definition setDanmakuSpeed (speedMultiplier : number) (pg : page) : page :=
  match danmakuEngine pg with
  | Some e => Page (danmakuLayer pg) (Some (setSpeed speedMultiplier e))
  | None => pg
  end.

End GlobalApi.

(** * The WebSocket client *)

(** [String.prototype.trim], a built-in of the host. *)
Class StringOps : Type := trim : string → string.

(** [WebSocket.readyState] *)
Inductive ready_state : Type :=
| CONNECTING
| OPEN
| CLOSING
| CLOSED.

Global Instance ready_state_eq_dec : EqDecision ready_state.
Proof. solve_decision. Defined.

(** The objects the client hands to [JSON.stringify] and [ws.send]. *)
Inductive client_message : Type :=
| AuthMessage (room_id : option string) (user : string)
| DanmakuMessage (text colour : string) (size : number)
| HeartbeatMessage.

(** A parsed server message: its [type] and the fields the client reads; an
    absent field is [None].  A [None] content or text reaches the DOM as the
    empty string ([textContent] is a nullable string attribute). *)
Record server_message : Type := ServerMessage {
  msg_type : string;
  msg_room_id : option string;
  msg_message : option string;
  msg_content : option string;
  msg_color : option string;
  msg_font_size : option number;
  msg_username : option string;
  msg_user_id : option string
}.

(** A socket created by [new WebSocket(url)]: its state and what was sent
    on it, oldest first. *)
Record socket : Type := Socket {
  readyState : ready_state;
  sent : list client_message
}.

(** What a pending [setTimeout] or an active [setInterval] of the client
    runs when it fires. *)
Inductive timer_task : Type :=
| HeartbeatTask     (* setInterval(() => this.sendHeartbeat(), heartbeatInterval) *)
| ReconnectTask     (* setTimeout(() => this.connect(), reconnectInterval) *)
| AuthTask.         (* setTimeout(() => this.sendAuth(), 100) *)

Global Instance timer_task_eq_dec : EqDecision timer_task.
Proof. solve_decision. Defined.

Record host_timer : Type := HostTimer {
  ht_id : nat;
  ht_task : timer_task;
  ht_delay : Z
}.

Module Client.

(** [DanmakuClient]: its fields, the sockets it created and the host's
    timer table.  [ws] is the index of the socket [this.ws] refers to.
    Timer ids are positive, so a stored id is truthy. *)
Record client : Type := Client {
  sockets : list socket;            (* host: every WebSocket created *)
  ws : option nat;
  roomId : string;
  username : string;
  heartbeatTimer : option nat;
  reconnectEnabled : bool;
  reconnectTimer : option nat;
  reconnectAttempts : nat;
  isConnected : bool;
  isAuthenticated : bool;
  roomIdSpan : option string;       (* textContent of #roomId, if it exists *)
  host_timers : list host_timer;    (* host: timers not yet fired or cleared *)
  next_timer_id : nat
}.

(** Fields assigned once in the constructor. *)
Definition heartbeatInterval : Z := 30000.
Definition reconnectInterval : Z := 3000.
Definition maxReconnectAttempts : nat := 10.

Definition set_sockets (v : list socket) (c : client) : client :=
  Client v (ws c) (roomId c) (username c) (heartbeatTimer c)
    (reconnectEnabled c) (reconnectTimer c) (reconnectAttempts c)
    (isConnected c) (isAuthenticated c) (roomIdSpan c) (host_timers c)
    (next_timer_id c).

Definition set_ws (v : option nat) (c : client) : client :=
  Client (sockets c) v (roomId c) (username c) (heartbeatTimer c)
    (reconnectEnabled c) (reconnectTimer c) (reconnectAttempts c)
    (isConnected c) (isAuthenticated c) (roomIdSpan c) (host_timers c)
    (next_timer_id c).

Definition set_heartbeatTimer (v : option nat) (c : client) : client :=
  Client (sockets c) (ws c) (roomId c) (username c) v
    (reconnectEnabled c) (reconnectTimer c) (reconnectAttempts c)
    (isConnected c) (isAuthenticated c) (roomIdSpan c) (host_timers c)
    (next_timer_id c).

Definition set_reconnectEnabled (v : bool) (c : client) : client :=
  Client (sockets c) (ws c) (roomId c) (username c) (heartbeatTimer c)
    v (reconnectTimer c) (reconnectAttempts c)
    (isConnected c) (isAuthenticated c) (roomIdSpan c) (host_timers c)
    (next_timer_id c).

Definition set_reconnectTimer (v : option nat) (c : client) : client :=
  Client (sockets c) (ws c) (roomId c) (username c) (heartbeatTimer c)
    (reconnectEnabled c) v (reconnectAttempts c)
    (isConnected c) (isAuthenticated c) (roomIdSpan c) (host_timers c)
    (next_timer_id c).

Definition set_reconnectAttempts (v : nat) (c : client) : client :=
  Client (sockets c) (ws c) (roomId c) (username c) (heartbeatTimer c)
    (reconnectEnabled c) (reconnectTimer c) v
    (isConnected c) (isAuthenticated c) (roomIdSpan c) (host_timers c)
    (next_timer_id c).

Definition set_isConnected (v : bool) (c : client) : client :=
  Client (sockets c) (ws c) (roomId c) (username c) (heartbeatTimer c)
    (reconnectEnabled c) (reconnectTimer c) (reconnectAttempts c)
    v (isAuthenticated c) (roomIdSpan c) (host_timers c)
    (next_timer_id c).

Definition set_isAuthenticated (v : bool) (c : client) : client :=
  Client (sockets c) (ws c) (roomId c) (username c) (heartbeatTimer c)
    (reconnectEnabled c) (reconnectTimer c) (reconnectAttempts c)
    (isConnected c) v (roomIdSpan c) (host_timers c)
    (next_timer_id c).

Definition set_roomIdSpan (v : option string) (c : client) : client :=
  Client (sockets c) (ws c) (roomId c) (username c) (heartbeatTimer c)
    (reconnectEnabled c) (reconnectTimer c) (reconnectAttempts c)
    (isConnected c) (isAuthenticated c) v (host_timers c)
    (next_timer_id c).

Definition set_host_timers (v : list host_timer) (n : nat) (c : client)
  : client :=
  Client (sockets c) (ws c) (roomId c) (username c) (heartbeatTimer c)
    (reconnectEnabled c) (reconnectTimer c) (reconnectAttempts c)
    (isConnected c) (isAuthenticated c) (roomIdSpan c) v n.

(** [new DanmakuClient()]; the random guest name and the page's [#roomId]
    element are given. *)
Definition newClient (guest : string) (span : option string) : client :=
  {| sockets := []; ws := None; roomId := "demo-room"; username := guest;
     heartbeatTimer := None; reconnectEnabled := true;
     reconnectTimer := None; reconnectAttempts := 0;
     isConnected := false; isAuthenticated := false; roomIdSpan := span;
     host_timers := []; next_timer_id := 1 |}.

(** ** Host operations *)

(** [setTimeout] / [setInterval]: a fresh id, returned with the new state. *)
Definition setTimer (task : timer_task) (delay : Z) (c : client)
  : nat * client :=
  (next_timer_id c,
   set_host_timers (host_timers c ++ [HostTimer (next_timer_id c) task delay])
     (S (next_timer_id c)) c).

(** [clearTimeout] / [clearInterval]; an id that is not pending is ignored. *)
Definition clearTimer (id : nat) (c : client) : client :=
  set_host_timers (filter (λ t, ht_id t ≠ id) (host_timers c))
    (next_timer_id c) c.

(** [ws.send(JSON.stringify(message))] on socket [s]. *)
Definition socket_send (s : nat) (m : client_message) (c : client) : client :=
  set_sockets
    (alter (λ sock, Socket (readyState sock) (sent sock ++ [m])) s (sockets c))
    c.

(** [ws.close()]: an open or connecting socket starts closing. *)
Definition socket_close (sock : socket) : socket :=
  match readyState sock with
  | CONNECTING | OPEN => Socket CLOSING (sent sock)
  | CLOSING | CLOSED => sock
  end.

(** [this.ws && this.ws.readyState === WebSocket.OPEN] *)
Definition open_socket (c : client) : option nat :=
  match ws c with
  | Some s =>
      match sockets c !! s with
      | Some sock => if decide (readyState sock = OPEN) then Some s else None
      | None => None
      end
  | None => None
  end.

(** ** Methods *)

(** [send(message)] *)
Definition send (m : client_message) (c : client) : bool * client :=
  match open_socket c with
  | Some s => (true, socket_send s m c)
  | None => (false, c)
  end.

(** [sendHeartbeat()] *)
Definition sendHeartbeat (c : client) : client :=
  match open_socket c with
  | Some s => socket_send s HeartbeatMessage c
  | None => c
  end.

(** [sendAuth()] *)
Definition sendAuth (c : client) : client :=
  (send (AuthMessage (Some (roomId c)) (username c)) c).2.

(** [stopHeartbeat()] *)
Definition stopHeartbeat (c : client) : client :=
  match heartbeatTimer c with
  | Some id => set_heartbeatTimer None (clearTimer id c)
  | None => c
  end.

(** [startHeartbeat()] *)
Definition startHeartbeat (c : client) : client :=
  let c := stopHeartbeat c in
  let '(id, c) := setTimer HeartbeatTask heartbeatInterval c in
  set_heartbeatTimer (Some id) c.

(** [scheduleReconnect()] *)
Definition scheduleReconnect (c : client) : client :=
  if negb (reconnectEnabled c) then c
  else if maxReconnectAttempts <=? reconnectAttempts c then c
  else
    let c := set_reconnectAttempts (S (reconnectAttempts c)) c in
    let '(id, c) := setTimer ReconnectTask reconnectInterval c in
    set_reconnectTimer (Some id) c.

(** [connect()]; [constructed] tells whether [new WebSocket(url)] returned
    (otherwise it threw and the [catch] branch runs). *)
Definition connect (constructed : bool) (c : client) : client :=
  if constructed then
    set_ws (Some (length (sockets c)))
      (set_sockets (sockets c ++ [Socket CONNECTING []]) c)
  else scheduleReconnect c.

(** [onOpen(event)] *)
Definition onOpen (c : client) : client :=
  let c := set_isConnected true c in
  (setTimer AuthTask 100 c).2.

(** [onClose(event)] *)
Definition onClose (c : client) : client :=
  let c := set_isConnected false c in
  let c := set_isAuthenticated false c in
  let c := stopHeartbeat c in
  if reconnectEnabled c then scheduleReconnect c else c.

(** [disconnect()] *)
Definition disconnect (c : client) : client :=
  let c := set_reconnectEnabled false c in
  let c := stopHeartbeat c in
  let c :=
    match reconnectTimer c with
    | Some id => clearTimer id c
    | None => c
    end in
  match ws c with
  | Some s => set_sockets (alter socket_close s (sockets c)) c
  | None => c
  end.

Section WithHost.

Context {layout : Layout} {strings : StringOps}.

(** [sendDanmaku(content, color = '#FFFFFF', fontSize = 24)]; an argument
    left out is [None].  The empty string is the only falsy trimmed text. *)
Definition sendDanmaku (text : string) (colour : option string)
    (fontSize : option number) (c : client) : bool * client :=
  if negb (isAuthenticated c) then (false, c)
  else if bool_decide (trim text = "") then (false, c)
  else
    send (DanmakuMessage (trim text) (default "#FFFFFF" colour)
            (default (of_Z 24) fontSize)) c.

(** The click handler of the send button: the input box is emptied when
    [sendDanmaku] returns true.  Returns the new text of the box. *)
Definition clickSend (input colour : string) (fontSize : number) (c : client)
  : string * client :=
  let '(ok, c) := sendDanmaku input (Some colour) (Some fontSize) c in
  (if ok then "" else input, c).

(** [showSystemMessage(text)] *)
Definition showSystemMessage (now : Z) (text : option string) (pg : page)
  : page :=
  addDanmaku now
    (Danmaku (default "" text) (Some "#888888") (Some (of_Z 16)) None) pg.

(** [handleMessage(message)].  In the [auth_success] branch the write to
    [this.roomIdSpan.textContent] throws when the page has no such element;
    the branch stops there and [onMessage] swallows the exception. *)
Definition handleMessage (now : Z) (m : server_message) (w : client * page)
  : client * page :=
  let '(c, pg) := w in
  if decide (msg_type m = "auth_success") then
    let c := set_isAuthenticated true c in
    let c := set_reconnectAttempts 0 c in
    match roomIdSpan c with
    | None => (c, pg)
    | Some _ =>
        let c := set_roomIdSpan (Some (default "" (msg_room_id m))) c in
        let c := startHeartbeat c in
        (c, showSystemMessage now (msg_message m) pg)
    end
  else if decide (msg_type m = "error") then (c, pg)
  else if decide (msg_type m = "danmaku") then
    (c, addDanmaku now
          (Danmaku (default "" (msg_content m)) (msg_color m)
             (msg_font_size m) (msg_username m)) pg)
  else if decide (msg_type m = "system") then
    (c, showSystemMessage now (msg_message m) pg)
  else if decide (msg_type m = "heartbeat") then (sendHeartbeat c, pg)
  else (c, pg).

(** [onMessage(event)]; [None] is a payload [JSON.parse] rejects. *)
Definition onMessage (now : Z) (data : option server_message)
    (w : client * page) : client * page :=
  match data with
  | Some m => handleMessage now m w
  | None => w
  end.

(** ** Events *)

(** What the host and the user do to a running client.  A socket event is
    only delivered in a state of the socket that allows it. *)
Inductive event : Type :=
| SocketOpens (s : nat)
| SocketCloses (s : nat)
| SocketError (s : nat)
| SocketMessage (s : nat) (now : Z) (data : option server_message)
| TimerFires (id : nat) (constructed : bool)
| UserSends (text colour : string) (fontSize : number)
| UserDisconnects
| UserConnects (constructed : bool).

Definition set_readyState (s : nat) (rs : ready_state) (c : client) : client :=
  set_sockets (alter (λ sock, Socket rs (sent sock)) s (sockets c)) c.

Definition socket_state (s : nat) (c : client) : option ready_state :=
  readyState <$> sockets c !! s.

Definition find_timer (id : nat) (c : client) : option host_timer :=
  snd <$> list_find (λ t, ht_id t = id) (host_timers c).

(** A timer fires: an interval stays, a timeout leaves the table. *)
Definition fireTimer (id : nat) (constructed : bool) (c : client) : client :=
  match find_timer id c with
  | None => c
  | Some t =>
      match ht_task t with
      | HeartbeatTask => sendHeartbeat c
      | ReconnectTask => connect constructed (clearTimer id c)
      | AuthTask => sendAuth (clearTimer id c)
      end
  end.

Definition step (ev : event) (w : client * page) : client * page :=
  let '(c, pg) := w in
  match ev with
  | SocketOpens s =>
      match socket_state s c with
      | Some CONNECTING => (onOpen (set_readyState s OPEN c), pg)
      | _ => w
      end
  | SocketCloses s =>
      match socket_state s c with
      | Some (CONNECTING | OPEN | CLOSING) =>
          (onClose (set_readyState s CLOSED c), pg)
      | _ => w
      end
  | SocketError s => w
  | SocketMessage s now data =>
      match socket_state s c with
      | Some OPEN => onMessage now data w
      | _ => w
      end
  | TimerFires id constructed => (fireTimer id constructed c, pg)
  | UserSends text colour fontSize =>
      ((clickSend text colour fontSize c).2, pg)
  | UserDisconnects => (disconnect c, pg)
  | UserConnects constructed => (connect constructed c, pg)
  end.

Fixpoint run (evs : list event) (w : client * page) : client * page :=
  match evs with
  | [] => w
  | ev :: rest => run rest (step ev w)
  end.

End WithHost.

(** ** Invariants *)

(** Ids of the active heartbeat intervals. *)
Definition heartbeat_ids (ts : list host_timer) : list nat :=
  ht_id <$> filter (λ t, ht_task t = HeartbeatTask) ts.

(** Number of reconnect timeouts still pending. *)
Definition pending_reconnects (ts : list host_timer) : nat :=
  length (filter (λ t, ht_task t = ReconnectTask) ts).

(** Number of sockets that can still deliver an event. *)
Definition live_sockets (ss : list socket) : nat :=
  length (filter (λ sock, readyState sock ≠ CLOSED) ss).

(** The host hands out each timer id once. *)
Definition timers_fresh (c : client) : Prop :=
  NoDup (ht_id <$> host_timers c) ∧
  Forall (λ t, ht_id t < next_timer_id c) (host_timers c).

(** The heartbeat interval the client recorded is the only one active, and
    one is active only while the client is authenticated. *)
Definition heartbeat_tracked (c : client) : Prop :=
  heartbeat_ids (host_timers c) = option_list (heartbeatTimer c) ∧
  timers_fresh c ∧
  (heartbeatTimer c ≠ None → isAuthenticated c = true).

(** At any time there is one live socket or one pending reconnect, never
    both nor two, and a pending reconnect is the one the client recorded. *)
Definition single_connection (c : client) : Prop :=
  live_sockets (sockets c) + pending_reconnects (host_timers c) ≤ 1 ∧
  Forall (λ t, ht_task t = ReconnectTask →
               reconnectTimer c = Some (ht_id t)) (host_timers c).

(** Nothing is left that could bring the client back by itself. *)
Definition offline (c : client) : Prop :=
  live_sockets (sockets c) = 0 ∧ pending_reconnects (host_timers c) = 0.

(** [c'] differs from [c] by steps that neither open nor close a
    connection nor schedule a reconnect. *)
Definition calm (c c' : client) : Prop :=
  live_sockets (sockets c') = live_sockets (sockets c) ∧
  length (sockets c') = length (sockets c) ∧
  reconnectTimer c' = reconnectTimer c ∧
  reconnectEnabled c' = reconnectEnabled c ∧
  reconnectAttempts c' ≤ reconnectAttempts c ∧
  pending_reconnects (host_timers c') ≤ pending_reconnects (host_timers c) ∧
  ∀ t, t ∈ host_timers c' → ht_task t = ReconnectTask → t ∈ host_timers c.

Definition reconnect_off (c : client) : Prop :=
  reconnectEnabled c = false ∧ pending_reconnects (host_timers c) = 0.

Definition host_event (ev : event) : Prop :=
  match ev with
  | UserConnects _ => False
  | _ => True
  end.

End Client.

(** * The WebSocket composable *)

Module Composable.

(** The options of [useWebSocket(options)], with their defaults. *)
Record options : Type := Options {
  url : string;
  roomId : string;
  heartbeatInterval : Z;
  reconnectInterval : Z;
  maxReconnectAttempts : nat
}.

Definition default_options : options :=
  {| url := "ws://localhost:8765"; roomId := "demo-room";
     heartbeatInterval := 30000; reconnectInterval := 3000;
     maxReconnectAttempts := 10 |}.

(** Which of the three callbacks [setCallbacks] has installed. *)
Record callbacks : Type := Callbacks {
  has_onDanmaku : bool;
  has_onSystemMessage : bool;
  has_onAuthSuccess : bool
}.

(** A call the composable made to an installed callback. *)
Inductive callback_call : Type :=
| CallDanmaku (user_id : option string) (now : Z) (text color : option string)
    (fontSize : option number) (user : option string)
| CallSystemMessage (text : option string)
| CallAuthSuccess (m : server_message).

(** The closure of one [useWebSocket] call: its refs and variables, the
    sockets it created, the host's timer table and the callback calls made
    so far. *)
Record state : Type := State {
  opts : options;
  sockets : list socket;
  ws : option nat;
  heartbeatTimer : option nat;
  reconnectTimer : option nat;
  username : string;
  isConnected : bool;
  isAuthenticated : bool;
  reconnectAttempts : nat;
  userId : option string;
  roomIdRef : option string;
  installed : callbacks;
  calls : list callback_call;
  host_timers : list host_timer;
  next_timer_id : nat
}.

Definition set_sockets (v : list socket) (c : state) : state :=
  State (opts c) v (ws c) (heartbeatTimer c) (reconnectTimer c) (username c)
    (isConnected c) (isAuthenticated c) (reconnectAttempts c) (userId c)
    (roomIdRef c) (installed c) (calls c) (host_timers c) (next_timer_id c).

Definition set_ws (v : option nat) (c : state) : state :=
  State (opts c) (sockets c) v (heartbeatTimer c) (reconnectTimer c)
    (username c) (isConnected c) (isAuthenticated c) (reconnectAttempts c)
    (userId c) (roomIdRef c) (installed c) (calls c) (host_timers c)
    (next_timer_id c).

Definition set_heartbeatTimer (v : option nat) (c : state) : state :=
  State (opts c) (sockets c) (ws c) v (reconnectTimer c) (username c)
    (isConnected c) (isAuthenticated c) (reconnectAttempts c) (userId c)
    (roomIdRef c) (installed c) (calls c) (host_timers c) (next_timer_id c).

Definition set_reconnectTimer (v : option nat) (c : state) : state :=
  State (opts c) (sockets c) (ws c) (heartbeatTimer c) v (username c)
    (isConnected c) (isAuthenticated c) (reconnectAttempts c) (userId c)
    (roomIdRef c) (installed c) (calls c) (host_timers c) (next_timer_id c).

Definition set_isConnected (v : bool) (c : state) : state :=
  State (opts c) (sockets c) (ws c) (heartbeatTimer c) (reconnectTimer c)
    (username c) v (isAuthenticated c) (reconnectAttempts c) (userId c)
    (roomIdRef c) (installed c) (calls c) (host_timers c) (next_timer_id c).

Definition set_isAuthenticated (v : bool) (c : state) : state :=
  State (opts c) (sockets c) (ws c) (heartbeatTimer c) (reconnectTimer c)
    (username c) (isConnected c) v (reconnectAttempts c) (userId c)
    (roomIdRef c) (installed c) (calls c) (host_timers c) (next_timer_id c).

Definition set_reconnectAttempts (v : nat) (c : state) : state :=
  State (opts c) (sockets c) (ws c) (heartbeatTimer c) (reconnectTimer c)
    (username c) (isConnected c) (isAuthenticated c) v (userId c)
    (roomIdRef c) (installed c) (calls c) (host_timers c) (next_timer_id c).

Definition set_userId (v : option string) (c : state) : state :=
  State (opts c) (sockets c) (ws c) (heartbeatTimer c) (reconnectTimer c)
    (username c) (isConnected c) (isAuthenticated c) (reconnectAttempts c) v
    (roomIdRef c) (installed c) (calls c) (host_timers c) (next_timer_id c).

Definition set_roomIdRef (v : option string) (c : state) : state :=
  State (opts c) (sockets c) (ws c) (heartbeatTimer c) (reconnectTimer c)
    (username c) (isConnected c) (isAuthenticated c) (reconnectAttempts c)
    (userId c) v (installed c) (calls c) (host_timers c) (next_timer_id c).

Definition set_installed (v : callbacks) (c : state) : state :=
  State (opts c) (sockets c) (ws c) (heartbeatTimer c) (reconnectTimer c)
    (username c) (isConnected c) (isAuthenticated c) (reconnectAttempts c)
    (userId c) (roomIdRef c) v (calls c) (host_timers c) (next_timer_id c).

Definition set_calls (v : list callback_call) (c : state) : state :=
  State (opts c) (sockets c) (ws c) (heartbeatTimer c) (reconnectTimer c)
    (username c) (isConnected c) (isAuthenticated c) (reconnectAttempts c)
    (userId c) (roomIdRef c) (installed c) v (host_timers c)
    (next_timer_id c).

Definition set_host_timers (v : list host_timer) (n : nat) (c : state)
  : state :=
  State (opts c) (sockets c) (ws c) (heartbeatTimer c) (reconnectTimer c)
    (username c) (isConnected c) (isAuthenticated c) (reconnectAttempts c)
    (userId c) (roomIdRef c) (installed c) (calls c) v n.

(** [useWebSocket(options)] before any call; the random guest name is
    given. *)
Definition useWebSocket (o : options) (guest : string) : state :=
  {| opts := o; sockets := []; ws := None; heartbeatTimer := None;
     reconnectTimer := None; username := guest; isConnected := false;
     isAuthenticated := false; reconnectAttempts := 0; userId := Some "";
     roomIdRef := Some (roomId o);
     installed := Callbacks false false false; calls := [];
     host_timers := []; next_timer_id := 1 |}.

(** [setCallbacks({ onDanmaku, onSystemMessage, onAuthSuccess })] *)
Definition setCallbacks (cbs : callbacks) (c : state) : state :=
  set_installed cbs c.

Definition setTimer (task : timer_task) (delay : Z) (c : state)
  : nat * state :=
  (next_timer_id c,
   set_host_timers (host_timers c ++ [HostTimer (next_timer_id c) task delay])
     (S (next_timer_id c)) c).

Definition clearTimer (id : nat) (c : state) : state :=
  set_host_timers (filter (λ t, ht_id t ≠ id) (host_timers c))
    (next_timer_id c) c.

Definition socket_send (s : nat) (m : client_message) (c : state) : state :=
  set_sockets
    (alter (λ sock, Socket (readyState sock) (sent sock ++ [m])) s (sockets c))
    c.

(** [ws && ws.readyState === WebSocket.OPEN] *)
Definition open_socket (c : state) : option nat :=
  match ws c with
  | Some s =>
      match sockets c !! s with
      | Some sock => if decide (readyState sock = OPEN) then Some s else None
      | None => None
      end
  | None => None
  end.

(** [send(message)] *)
Definition send (m : client_message) (c : state) : bool * state :=
  match open_socket c with
  | Some s => (true, socket_send s m c)
  | None => (false, c)
  end.

(** [sendHeartbeat()] *)
Definition sendHeartbeat (c : state) : state := (send HeartbeatMessage c).2.

(** [sendAuth()] *)
Definition sendAuth (c : state) : state :=
  (send (AuthMessage (roomIdRef c) (username c)) c).2.

(** [stopHeartbeat()] *)
Definition stopHeartbeat (c : state) : state :=
  match heartbeatTimer c with
  | Some id => set_heartbeatTimer None (clearTimer id c)
  | None => c
  end.

(** [startHeartbeat()] *)
Definition startHeartbeat (c : state) : state :=
  let c := stopHeartbeat c in
  let '(id, c) := setTimer HeartbeatTask (heartbeatInterval (opts c)) c in
  set_heartbeatTimer (Some id) c.

(** [scheduleReconnect()] *)
Definition scheduleReconnect (c : state) : state :=
  if maxReconnectAttempts (opts c) <=? reconnectAttempts c then c
  else
    let c := set_reconnectAttempts (S (reconnectAttempts c)) c in
    let '(id, c) := setTimer ReconnectTask (reconnectInterval (opts c)) c in
    set_reconnectTimer (Some id) c.

(** [connect()]; [constructed] as for the client class. *)
Definition connect (constructed : bool) (c : state) : state :=
  if constructed then
    set_ws (Some (length (sockets c)))
      (set_sockets (sockets c ++ [Socket CONNECTING []]) c)
  else scheduleReconnect c.

(** [handleOpen()] *)
Definition handleOpen (c : state) : state :=
  let c := set_isConnected true c in
  let c := set_reconnectAttempts 0 c in
  (setTimer AuthTask 100 c).2.

(** [handleClose(event)] *)
Definition handleClose (c : state) : state :=
  let c := set_isConnected false c in
  let c := set_isAuthenticated false c in
  let c := stopHeartbeat c in
  scheduleReconnect c.

(** [disconnect()] *)
Definition disconnect (c : state) : state :=
  let c := stopHeartbeat c in
  let c :=
    match reconnectTimer c with
    | Some id => clearTimer id c
    | None => c
    end in
  match ws c with
  | Some s => set_sockets (alter Client.socket_close s (sockets c)) c
  | None => c
  end.

Definition call (installed_cb : bool) (k : callback_call) (c : state) : state :=
  if installed_cb then set_calls (calls c ++ [k]) c else c.

(** [handleMessage(event)] on a payload that parsed to [m]. *)
Definition handleMessage (now : Z) (m : server_message) (c : state) : state :=
  if decide (msg_type m = "auth_success") then
    let c := set_isAuthenticated true c in
    let c := set_userId (msg_user_id m) c in
    let c := set_roomIdRef (msg_room_id m) c in
    let c := call (has_onAuthSuccess (installed c)) (CallAuthSuccess m) c in
    startHeartbeat c
  else if decide (msg_type m = "error") then c
  else if decide (msg_type m = "danmaku") then
    call (has_onDanmaku (installed c))
      (CallDanmaku (msg_user_id m) now (msg_content m) (msg_color m)
         (msg_font_size m) (msg_username m)) c
  else if decide (msg_type m = "system") then
    call (has_onSystemMessage (installed c))
      (CallSystemMessage (msg_message m)) c
  else if decide (msg_type m = "heartbeat") then sendHeartbeat c
  else c.

Section WithHost.

Context {strings : StringOps}.

(** [sendDanmaku(content, color = '#FFFFFF', fontSize = 24)] *)
Definition sendDanmaku (text : string) (colour : option string)
    (fontSize : option number) (c : state) : bool * state :=
  if negb (isAuthenticated c) then (false, c)
  else if bool_decide (trim text = "") then (false, c)
  else
    send (DanmakuMessage (trim text) (default "#FFFFFF" colour)
            (default (of_Z 24) fontSize)) c.

End WithHost.

(** ** Host events *)

Definition set_readyState (s : nat) (rs : ready_state) (c : state) : state :=
  set_sockets (alter (λ sock, Socket rs (sent sock)) s (sockets c)) c.

Definition socket_state (s : nat) (c : state) : option ready_state :=
  readyState <$> sockets c !! s.

(** Socket [s] finishes connecting. *)
Definition socketOpens (s : nat) (c : state) : state :=
  match socket_state s c with
  | Some CONNECTING => handleOpen (set_readyState s OPEN c)
  | _ => c
  end.

(** Socket [s] closes. *)
Definition socketCloses (s : nat) (c : state) : state :=
  match socket_state s c with
  | Some (CONNECTING | OPEN | CLOSING) =>
      handleClose (set_readyState s CLOSED c)
  | _ => c
  end.

Definition find_timer (id : nat) (c : state) : option host_timer :=
  snd <$> list_find (λ t, ht_id t = id) (host_timers c).

(** A timer fires: an interval stays, a timeout leaves the table. *)
Definition fireTimer (id : nat) (constructed : bool) (c : state) : state :=
  match find_timer id c with
  | None => c
  | Some t =>
      match ht_task t with
      | HeartbeatTask => sendHeartbeat c
      | ReconnectTask => connect constructed (clearTimer id c)
      | AuthTask => sendAuth (clearTimer id c)
      end
  end.

End Composable.

(** * Page wiring *)

Section Wiring.

Context {layout : Layout} {strings : StringOps}.

(** The [input] handler of the speed slider in [initClient]:
    [setDanmakuSpeed(parseInt(e.target.value) / 100)], with [v] the integer
    the slider holds. *)
Definition speedSliderInput (v : Z) (pg : page) : page :=
  setDanmakuSpeed (jdiv (of_Z v) (of_Z 100)) pg.

(** The slider values [v] for which [100 * (v / 100)] is not [v] in
    binary64: the quotient is rounded, and the product comes out as the
    double next above [v], resp. next below. *)
Definition slider_rounds_up : list Z := [55; 56; 109; 110; 111; 112]%Z.
Definition slider_rounds_down : list Z := [57; 58; 113; 114; 115; 116]%Z.

(** The double nearest to [v] that the slider's handler ends up with. *)
Definition slider_speed (v : Z) : number :=
  if bool_decide (v ∈ slider_rounds_up) then SFsucc prec emax (of_Z v)
  else if bool_decide (v ∈ slider_rounds_down) then SFpred prec emax (of_Z v)
  else of_Z v.

(** The values the slider can hold: 50 to 200. *)
Definition slider_values : list Z := Z.of_nat <$> seq 50 151.

(** [handleSend()] of the [DanmakuInput] component: the payload it emits,
    if any, and the new text of the input box. *)
Definition handleSend (inputText : string) (canSend : bool)
    (selectedColor : string) (selectedFontSize : number)
  : option (string * string * number) * string :=
  if bool_decide (trim inputText = "") || negb canSend then (None, inputText)
  else (Some (inputText, selectedColor, selectedFontSize), "").

(** The [send] event as [App.vue] wires it: [canSend] is the composable's
    [isAuthenticated], and the payload goes to [handleSendDanmaku], which
    calls the composable's [sendDanmaku].  Returns the new text of the
    input box and the new state of the composable. *)
Definition submitDanmaku (inputText selectedColor : string)
    (selectedFontSize : number) (c : Composable.state)
  : string * Composable.state :=
  match handleSend inputText (Composable.isAuthenticated c) selectedColor
          selectedFontSize with
  | (Some (text, colour, size), input') =>
      (input', (Composable.sendDanmaku text (Some colour) (Some size) c).2)
  | (None, input') => (input', c)
  end.

End Wiring.

(** ** Sample data *)

(** The [long] of value [n], or the largest one when [n] does not fit. *)
Definition to_long (n : N) : long :=
  match (n <? 2 ^ 31)%N as b return (n <? 2 ^ 31)%N = b → long with
  | true => λ H, Long n H
  | false => λ _, Long (2 ^ 31 - 1) eq_refl
  end eq_refl.

(** A layout in which every character is ten pixels wide, with a CSS parser
    that knows two colour names besides the hexadecimal notation. *)
Definition sample_layout : Layout :=
  {| measureText := λ text fontSize,
       to_long (10 * N.of_nat (String.length text));
     supportsColor := λ v, bool_decide (v = "red") || bool_decide (v = "white") |}.

(** A surface 900 pixels wide with room for exactly one lane. *)
Definition one_lane_surface : container :=
  {| clientHeight := to_long 35; clientWidth := to_long 900 |}.

(** A surface with three lanes. *)
Definition three_lane_surface : container :=
  {| clientHeight := to_long 120; clientWidth := to_long 900 |}.

(** A comment 100 pixels wide under [sample_measure], with no styling. *)
Definition plain_comment : danmaku :=
  {| content := "0123456789"; color := None; font_size := None;
     username := None |}.

Definition styled_comment : danmaku :=
  {| content := "hi"; color := Some "#888888"; font_size := Some (of_Z 16);
     username := None |}.

Definition empty_comment : danmaku :=
  {| content := ""; color := None; font_size := None; username := None |}.

(** One lane, reserved by a comment admitted at time 0 (until 10000). *)
Definition busy_one_lane : engine :=
  add (layout := sample_layout) 0 plain_comment (newEngine one_lane_surface).

(** Three lanes, the first reserved from time 0, resp. from time 100. *)
Definition busy_first_lane : engine :=
  add (layout := sample_layout) 0 plain_comment (newEngine three_lane_surface).


(** Lane 0 at time 0, lane 1 at time 5000, the first comment recycled, and
    lane 0 again at time 10001. *)
Definition sample_trace : list event :=
  [EvAdd 0 plain_comment; EvAdd 5000 plain_comment; EvRecycle 0;
   EvAdd 10001 styled_comment].

Definition sample_log : list admission :=
  Eval vm_compute in
    admissions (layout := sample_layout) sample_trace
      (newEngine three_lane_surface).

(** Three comments in flight on three lanes. *)
Definition three_in_flight : engine :=
  run (layout := sample_layout)
    [EvAdd 0 plain_comment; EvAdd 1 plain_comment; EvAdd 2 styled_comment]
    (newEngine three_lane_surface).

(** The timers of the three comments fire after the engine was disabled,
    and a comment arrives meanwhile. *)
Definition late_recycles : list event :=
  [EvRecycle 0; EvAdd 10 plain_comment; EvRecycle 0; EvRecycle 0].

(** The same, with the engine switched on again in between and a change of
    opacity. *)
Definition reenabled_recycles : list event :=
  [EvRecycle 0; EvAdd 10 plain_comment; EvSetEnabled true; EvRecycle 0;
   EvSetOpacity half; EvRecycle 0].

(** One lane whose first pool element has shown a comment (white, 24
    pixels) and was recycled. *)
Definition reused_slot : engine :=
  run (layout := sample_layout) [EvAdd 0 plain_comment; EvRecycle 0]
    (newEngine one_lane_surface).

(** A comment with a colour and a size, both truthy; the size is negative. *)
Definition negative_size_comment : danmaku :=
  {| content := "hi"; color := Some "#FF0000"; font_size := Some (of_Z (-5));
     username := None |}.

(** A new engine after [setSpeed(2^-1020)], a positive multiplier. *)
Definition crawling_engine : engine :=
  run (layout := sample_layout)
    [EvSetSpeed (S754_finite false 4503599627370496 (-1072))]
    (newEngine one_lane_surface).

(** A new engine after [setSpeed(1.5)]. *)
Definition faster_engine : engine :=
  run (layout := sample_layout) [EvSetSpeed (jdiv (of_Z 3) (of_Z 2))]
    (newEngine one_lane_surface).

(** A new engine after [setSpeed(0)]. *)
Definition stalled_engine : engine :=
  run (layout := sample_layout) [EvSetSpeed (of_Z 0)]
    (newEngine one_lane_surface).

(** Half speed, then a comment, then double speed. *)
Definition slider_trace : list event :=
  [EvSetSpeed half; EvAdd 0 plain_comment; EvSetSpeed (of_Z 2)].

(** [n] comments arriving one millisecond apart. *)
Definition burst (n : nat) : list event :=
  (λ k, EvAdd (Z.of_nat k) plain_comment) <$> seq 0 n.

(** A surface with fifty-one lanes. *)
Definition tall_surface : container :=
  {| clientHeight := to_long 1785; clientWidth := to_long 900 |}.

(** A host [trim] for the sample runs: it strips spaces at both ends. *)
Fixpoint strip_leading_spaces (s : string) : string :=
  match s with
  | String a rest =>
      if Ascii.eqb a (Ascii.ascii_of_nat 32) then strip_leading_spaces rest
      else s
  | EmptyString => s
  end.

Definition sample_strings : StringOps :=
  λ s, String.rev (strip_leading_spaces
                     (String.rev (strip_leading_spaces s))).

Definition no_page : page := Page None None.

(** Ten connections in a row that close before they authenticate; timer
    [k + 1] is the reconnect scheduled when socket [k] closed. *)
Definition failing_connections : list Client.event :=
  flat_map (λ k, [Client.SocketCloses k; Client.TimerFires (S k) true])
    (seq 0 10).

(** A session: the socket opens, the client authenticates, sends a
    comment, and the user disconnects. *)
Definition auth_success_message : server_message :=
  ServerMessage "auth_success" (Some "demo-room") (Some "welcome") None None
    None None (Some "u1").

Definition short_session : list Client.event :=
  [Client.SocketOpens 0; Client.TimerFires 1 true;
   Client.SocketMessage 0 0 (Some auth_success_message);
   Client.UserSends " hello " "#FF0000" (of_Z 24)].

Definition system_message : server_message :=
  ServerMessage "system" None (Some "hello") None None None None None.

Definition ready_page : page :=
  Page (Some one_lane_surface) (Some (newEngine one_lane_surface)).

(** A client of the class whose first socket was just created. *)
Definition connecting_client : Client.client :=
  Client.connect true (Client.newClient "guest" (Some "")).

(** Two [connect()] calls whose sockets both closed: two reconnect
    timeouts are pending, and [reconnectTimer] holds the id of the second. *)
Definition two_closed_connections : Client.client :=
  (Client.run (layout := sample_layout) (strings := sample_strings)
     [Client.UserConnects true; Client.SocketCloses 0; Client.SocketCloses 1]
     (connecting_client, no_page)).1.

(** What still arrives after a [disconnect()]: the close of the socket and
    a stray timer id. *)
Definition after_disconnect : list Client.event :=
  [Client.SocketCloses 0; Client.TimerFires 3 true;
   Client.UserSends "again" "#FFFFFF" (of_Z 24)].

(** A composable whose first socket is open. *)
Definition open_composable : Composable.state :=
  Composable.socketOpens 0
    (Composable.connect true
       (Composable.useWebSocket Composable.default_options "guest")).


(** A composable that is authenticated while its socket is closing. *)
Definition closing_composable : Composable.state :=
  Composable.disconnect
    (Composable.handleMessage 0 auth_success_message open_composable).

(** * Properties *)

(** ** Binary64 arithmetic *)

Section Binary64.

Local Open Scope Z_scope.

(** *** Comparisons *)

Lemma SFcompare_swap a b :
  SFcompare b a = CompOpp <$> SFcompare a b.
Proof.
  destruct a as [[|]|[|]| |[|] ma ea], b as [[|]|[|]| |[|] mb eb]; simpl;
    try reflexivity.
  - rewrite (Z.compare_antisym ea eb).
    destruct (ea ?= eb); simpl; try reflexivity.
    change (Pos.compare_cont Eq ?a ?b) with (Pos.compare a b).
    by rewrite (Pos.compare_antisym ma mb), CompOpp_involutive.
  - rewrite (Z.compare_antisym ea eb).
    destruct (ea ?= eb); simpl; try reflexivity.
    change (Pos.compare_cont Eq ?a ?b) with (Pos.compare a b).
    by rewrite (Pos.compare_antisym ma mb).
Qed.

Lemma jgt_not_jge a b : jgt a b = true → jge b a = false.
Proof.
  unfold jgt, jlt, jge, SFltb, SFleb. rewrite (SFcompare_swap b a).
  by destruct (SFcompare b a) as [[| |]|].
Qed.

Lemma jlt_jge_chain t x s :
  jlt t x = true → jge s x = true → jge t s = true → False.
Proof.
  unfold jlt, jge, SFltb, SFleb.
  destruct t as [[|]|[|]| |[|] mt et], x as [[|]|[|]| |[|] mx ex],
           s as [[|]|[|]| |[|] ms es]; simpl; try discriminate;
    change (Pos.compare_cont Eq ?a ?b) with (Pos.compare a b);
    destruct (Z.compare_spec et ex), (Z.compare_spec ex es),
             (Z.compare_spec es et); simpl; try discriminate; try lia;
    destruct (Pos.compare_spec mt mx), (Pos.compare_spec mx ms),
             (Pos.compare_spec ms mt); simpl; try discriminate; lia.
Qed.

(** *** Rounding *)

Lemma digits2_pos_size p : digits2_pos p = Pos.size p.
Proof. induction p; simpl; congruence. Qed.

Lemma Zdigits2_log2 m : 0 < m → Zdigits2 m = Z.log2 m + 1.
Proof.
  destruct m as [|p|p]; try lia. intros _. simpl. rewrite digits2_pos_size.
  destruct p; simpl; lia.
Qed.

Lemma Zdigits2_nonneg m : 0 ≤ Zdigits2 m.
Proof. destruct m; simpl; lia. Qed.

Lemma Zdigits2_pos m : 0 ≤ m → (0 < m ↔ 0 < Zdigits2 m).
Proof. destruct m; simpl; lia. Qed.

Lemma Zdigits2_shiftr m n :
  0 ≤ m → 0 ≤ n → Zdigits2 (Z.shiftr m n) = Z.max 0 (Zdigits2 m - n).
Proof.
  intros Hm Hn. destruct (Z.eq_dec m 0) as [->|Hne].
  { rewrite Z.shiftr_0_l. simpl. lia. }
  assert (Hpos : 0 < m) by lia.
  rewrite (Zdigits2_log2 m Hpos).
  destruct (Z.le_gt_cases n (Z.log2 m)) as [Hle|Hgt].
  - assert (Hs : 0 < Z.shiftr m n).
    { pose proof (proj2 (Z.shiftr_nonneg m n) Hm).
      assert (Z.shiftr m n ≠ 0); [|lia].
      intros H0. apply Z.shiftr_eq_0_iff in H0. lia. }
    rewrite (Zdigits2_log2 _ Hs), Z.log2_shiftr by done. lia.
  - rewrite Z.shiftr_eq_0 by lia. simpl. lia.
Qed.

Lemma Zdigits2_succ m : 0 ≤ m → Zdigits2 (m + 1) ≤ Zdigits2 m + 1.
Proof.
  intros Hm. destruct (Z.eq_dec m 0) as [->|Hne]; [simpl; lia|].
  rewrite !Zdigits2_log2 by lia.
  pose proof (Z.log2_succ_le m). unfold Z.succ in *. lia.
Qed.

Lemma Zdigits2_le m n : 0 ≤ m → m ≤ n → Zdigits2 m ≤ Zdigits2 n.
Proof.
  intros Hm Hle. destruct (Z.eq_dec m 0) as [->|Hne].
  { apply Zdigits2_nonneg. }
  rewrite !Zdigits2_log2 by lia.
  pose proof (Z.log2_le_mono m n Hle). lia.
Qed.

Lemma iter_pos_iter {A} (f : A → A) p x : SpecFloat.iter_pos f p x = Pos.iter f x p.
Proof.
  revert x. induction p as [p IH|p IH|]; intros x; simpl; [|by rewrite !IH|done].
  by rewrite !IH, !Pos.iter_swap.
Qed.

Lemma shr_m_shr_1 mrs : 0 ≤ shr_m mrs → shr_m (shr_1 mrs) = Z.div2 (shr_m mrs).
Proof. destruct mrs as [[|[p|p|]|p] r s]; simpl; (reflexivity || lia). Qed.

Lemma shr_m_iter p mrs :
  0 ≤ shr_m mrs →
  shr_m (SpecFloat.iter_pos shr_1 p mrs) = Z.shiftr (shr_m mrs) (Z.pos p).
Proof.
  intros Hm. rewrite iter_pos_iter.
  change (Z.shiftr (shr_m mrs) (Z.pos p)) with (Pos.iter Z.div2 (shr_m mrs) p).
  assert (H : 0 ≤ Pos.iter Z.div2 (shr_m mrs) p ∧
              shr_m (Pos.iter shr_1 mrs p) = Pos.iter Z.div2 (shr_m mrs) p);
    [|by destruct H].
  induction p as [|p IH] using Pos.peano_ind; simpl.
  - split; [by apply Z.div2_nonneg | by apply shr_m_shr_1].
  - rewrite !Pos.iter_succ. destruct IH as [IH1 IH2]. split.
    + by apply Z.div2_nonneg.
    + rewrite shr_m_shr_1 by (by rewrite IH2). by rewrite IH2.
Qed.

Lemma shr_fexp_spec m e l :
  0 ≤ m →
  let e' := Z.max e (fexp prec emax (Zdigits2 m + e)) in
  (shr_fexp prec emax m e l).2 = e' ∧
  shr_m (shr_fexp prec emax m e l).1 = Z.shiftr m (e' - e).
Proof.
  intros Hm e'. unfold shr_fexp, shr.
  assert (Hrec : shr_m (shr_record_of_loc m l) = m) by (by destruct l as [|[]]).
  destruct (fexp prec emax (Zdigits2 m + e) - e) as [|p|p] eqn:Hn; simpl.
  - replace (e' - e) with 0 by lia. split; [lia|]. by rewrite Z.shiftr_0_r.
  - replace (e' - e) with (Z.pos p) by lia. split; [lia|].
    by rewrite shr_m_iter, Hrec by (by rewrite Hrec).
  - replace (e' - e) with 0 by lia. split; [lia|]. by rewrite Z.shiftr_0_r.
Qed.

Lemma round_nearest_even_bounds m l :
  m ≤ round_nearest_even m l ≤ m + 1.
Proof. destruct l as [|[]]; simpl; try lia. destruct (Z.even m); lia. Qed.

Lemma binary_round_aux_cases sx mx ex lx :
  0 ≤ mx →
  ∃ m2 m3 e1 e2,
    e1 = Z.max ex (fexp prec emax (Zdigits2 mx + ex)) ∧
    Z.shiftr mx (e1 - ex) ≤ m2 ≤ Z.shiftr mx (e1 - ex) + 1 ∧
    e2 = Z.max e1 (fexp prec emax (Zdigits2 m2 + e1)) ∧
    m3 = Z.shiftr m2 (e2 - e1) ∧
    binary_round_aux prec emax sx mx ex lx =
      match m3 with
      | Z0 => S754_zero sx
      | Z.pos m =>
          if e2 <=? emax - prec then S754_finite sx m e2 else S754_infinity sx
      | Z.neg _ => S754_nan
      end.
Proof.
  intros Hm. unfold binary_round_aux.
  destruct (shr_fexp_spec mx ex lx Hm) as [He1 Hm1].
  destruct (shr_fexp prec emax mx ex lx) as [mrs1 e1]. simpl in He1, Hm1.
  rewrite <- He1 in Hm1.
  set (m2 := round_nearest_even (shr_m mrs1) (loc_of_shr_record mrs1)).
  pose proof (round_nearest_even_bounds (shr_m mrs1) (loc_of_shr_record mrs1))
    as Hrne. fold m2 in Hrne. rewrite Hm1 in Hrne.
  assert (Hm2 : 0 ≤ m2).
  { pose proof (proj2 (Z.shiftr_nonneg mx (e1 - ex)) Hm). lia. }
  destruct (shr_fexp_spec m2 e1 loc_Exact Hm2) as [He2 Hm3].
  destruct (shr_fexp prec emax m2 e1 loc_Exact) as [mrs2 e2]. simpl in He2, Hm3.
  rewrite <- He2 in Hm3.
  exists m2, (shr_m mrs2), e1, e2. done.
Qed.

Lemma bounded_by_le s K K' x : K ≤ K' → bounded_by s K x → bounded_by s K' x.
Proof. intros HK. destruct x; simpl; try done. intros [? ?]. split; [done|lia]. Qed.

Lemma binary_round_aux_bounded sx mx ex lx K :
  0 ≤ mx → Zdigits2 mx + ex ≤ K → -1074 ≤ K ≤ 971 →
  bounded_by sx (K + 1) (binary_round_aux prec emax sx mx ex lx).
Proof.
  intros Hm HK HKr.
  destruct (binary_round_aux_cases sx mx ex lx Hm)
    as (m2 & m3 & e1 & e2 & He1 & Hm2 & He2 & Hm3 & ->).
  unfold fexp, emin, prec, emax in *.
  pose proof (Zdigits2_nonneg mx) as Hd0.
  pose proof (proj2 (Z.shiftr_nonneg mx (e1 - ex)) Hm) as Hm1.
  pose proof (Zdigits2_shiftr mx (e1 - ex) Hm ltac:(lia)) as Hd1.
  pose proof (Zdigits2_le m2 (Z.shiftr mx (e1 - ex) + 1) ltac:(lia) ltac:(lia))
    as Hd2.
  pose proof (Zdigits2_succ (Z.shiftr mx (e1 - ex)) Hm1) as Hd2'.
  pose proof (Zdigits2_nonneg m2) as Hd2''.
  pose proof (proj2 (Z.shiftr_nonneg m2 (e2 - e1)) ltac:(lia)) as Hm3'.
  pose proof (Zdigits2_shiftr m2 (e2 - e1) ltac:(lia) ltac:(lia)) as Hd3.
  rewrite <- Hm3 in Hm3', Hd3.
  destruct m3 as [|m|m]; simpl; [done| |lia].
  simpl in Hd3.
  replace (e2 <=? 1024 - 53) with true by (symmetry; apply Z.leb_le; lia).
  simpl. split; [done|lia].
Qed.

Lemma binary_round_aux_positive sx mx ex lx K :
  0 < mx → -1074 ≤ Zdigits2 mx + ex - 53 → Zdigits2 mx + ex ≤ K → K ≤ 971 →
  ∃ m e, binary_round_aux prec emax sx mx ex lx = S754_finite sx m e ∧
         ex ≤ e ∧ Z.pos (digits2_pos m) + e ≤ K + 1.
Proof.
  intros Hm Hnorm HK HKr.
  destruct (binary_round_aux_cases sx mx ex lx ltac:(lia))
    as (m2 & m3 & e1 & e2 & He1 & Hm2 & He2 & Hm3 & ->).
  unfold fexp, emin, prec, emax in *.
  pose proof (proj1 (Zdigits2_pos mx ltac:(lia)) Hm) as Hd0.
  pose proof (proj2 (Z.shiftr_nonneg mx (e1 - ex)) ltac:(lia)) as Hm1.
  pose proof (Zdigits2_shiftr mx (e1 - ex) ltac:(lia) ltac:(lia)) as Hd1.
  pose proof (Zdigits2_le m2 (Z.shiftr mx (e1 - ex) + 1) ltac:(lia) ltac:(lia))
    as Hd2.
  pose proof (Zdigits2_succ (Z.shiftr mx (e1 - ex)) Hm1) as Hd2'.
  pose proof (Zdigits2_le (Z.shiftr mx (e1 - ex)) m2 ltac:(lia) ltac:(lia))
    as Hd2''.
  pose proof (proj2 (Z.shiftr_nonneg m2 (e2 - e1)) ltac:(lia)) as Hm3'.
  pose proof (Zdigits2_shiftr m2 (e2 - e1) ltac:(lia) ltac:(lia)) as Hd3.
  rewrite <- Hm3 in Hm3', Hd3.
  destruct m3 as [|m|m]; simpl in Hd3; [lia| |lia].
  replace (e2 <=? 1024 - 53) with true by (symmetry; apply Z.leb_le; lia).
  exists m, e2. split; [done|]. lia.
Qed.

Lemma binary_round_aux_sign sx mx ex lx :
  0 ≤ mx →
  match binary_round_aux prec emax sx mx ex lx with
  | S754_zero s | S754_finite s _ _ | S754_infinity s => s = sx
  | S754_nan => False
  end.
Proof.
  intros Hm.
  destruct (binary_round_aux_cases sx mx ex lx Hm)
    as (m2 & m3 & e1 & e2 & He1 & Hm2 & He2 & Hm3 & ->).
  pose proof (proj2 (Z.shiftr_nonneg mx (e1 - ex)) Hm) as Hm1.
  pose proof (proj2 (Z.shiftr_nonneg m2 (e2 - e1)) ltac:(lia)) as Hm3'.
  rewrite <- Hm3 in Hm3'.
  destruct m3 as [|m|m]; [done| |lia]. by destruct (e2 <=? emax - prec).
Qed.

Lemma iter_xO_spec m d :
  Z.pos (Pos.iter xO m d) = Z.pos m * 2 ^ Z.pos d ∧
  Z.pos (digits2_pos (Pos.iter xO m d)) = Z.pos (digits2_pos m) + Z.pos d.
Proof.
  induction d as [|d [IH1 IH2]] using Pos.peano_ind.
  - simpl. split; lia.
  - rewrite Pos.iter_succ. cbn [digits2_pos].
    rewrite Pos2Z.inj_xO, IH1, !Pos2Z.inj_succ, IH2, Z.pow_succ_r by lia.
    split; lia.
Qed.

(** Aligning a mantissa to a smaller exponent keeps the value. *)
Lemma shl_align_spec m e e' :
  let '(m', e'') := shl_align m e e' in
  e'' ≤ e ∧ Z.pos m' = Z.pos m * 2 ^ (e - e'') ∧
  Z.pos (digits2_pos m') + e'' = Z.pos (digits2_pos m) + e ∧
  e'' = Z.min e e'.
Proof.
  unfold shl_align. destruct (e' - e) as [|d|d] eqn:Hd.
  - rewrite Z.sub_diag. simpl. lia.
  - rewrite Z.sub_diag. simpl. lia.
  - destruct (iter_xO_spec m d) as [H1 H2].
    replace (e - e') with (Z.pos d) by lia. rewrite H1, H2. lia.
Qed.

Lemma Zdigits2_mul a b :
  Zdigits2 (Z.pos (a * b)) ≤ Z.pos (digits2_pos a) + Z.pos (digits2_pos b).
Proof.
  change (Z.pos (digits2_pos a)) with (Zdigits2 (Z.pos a)).
  change (Z.pos (digits2_pos b)) with (Zdigits2 (Z.pos b)).
  rewrite !Zdigits2_log2 by lia. rewrite Pos2Z.inj_mul.
  pose proof (Z.log2_mul_above (Z.pos a) (Z.pos b)). lia.
Qed.

Lemma Zdigits2_add a b :
  Zdigits2 (Z.pos a + Z.pos b) ≤
  Z.max (Z.pos (digits2_pos a)) (Z.pos (digits2_pos b)) + 1.
Proof.
  change (Z.pos (digits2_pos a)) with (Zdigits2 (Z.pos a)).
  change (Z.pos (digits2_pos b)) with (Zdigits2 (Z.pos b)).
  rewrite !Zdigits2_log2 by lia.
  destruct (Z.le_ge_cases (Z.pos a) (Z.pos b)) as [Hle|Hle].
  - pose proof (Z.log2_le_mono (Z.pos a + Z.pos b) (2 * Z.pos b) ltac:(lia)).
    pose proof (Z.log2_double (Z.pos b) ltac:(lia)). lia.
  - pose proof (Z.log2_le_mono (Z.pos a + Z.pos b) (2 * Z.pos a) ltac:(lia)).
    pose proof (Z.log2_double (Z.pos a) ltac:(lia)). lia.
Qed.

Lemma binary_round_bounded sx m e K :
  Z.pos (digits2_pos m) + e ≤ K → -1074 ≤ K ≤ 971 →
  bounded_by sx (K + 1) (binary_round prec emax sx m e).
Proof.
  intros HK HKr. unfold binary_round.
  pose proof (shl_align_spec m e (fexp prec emax (Z.pos (digits2_pos m) + e)))
    as Hal.
  destruct (shl_align _ _ _) as [mz ez]. destruct Hal as (_ & _ & Hmag & _).
  apply binary_round_aux_bounded; [lia | simpl; lia | done].
Qed.

Lemma jmul_bounded sx sy Kx Ky x y :
  bounded_by sx Kx x → bounded_by sy Ky y → -1074 ≤ Kx + Ky ≤ 971 →
  bounded_by (xorb sx sy) (Kx + Ky + 1) (jmul x y).
Proof.
  intros Hx Hy HK.
  destruct x as [sx'| | |sx' mx ex], y as [sy'| | |sy' my ey]; simpl in *;
    try done.
  - by subst.
  - destruct Hy as [-> _]. by subst.
  - destruct Hx as [-> _]. by subst.
  - destruct Hx as [-> Hx], Hy as [-> Hy].
    apply binary_round_aux_bounded; [lia | | done].
    pose proof (Zdigits2_mul mx my). lia.
Qed.

Lemma jadd_bounded K x y :
  bounded_by false K x → bounded_by false K y → -1074 ≤ K + 1 ≤ 971 →
  bounded_by false (K + 2) (jadd x y).
Proof.
  intros Hx Hy HK.
  destruct x as [sx'| | |sx' mx ex], y as [sy'| | |sy' my ey]; simpl in *;
    try done.
  - by subst.
  - destruct Hy as [-> Hy]. split; [done|lia].
  - destruct Hx as [-> Hx]. split; [done|lia].
  - destruct Hx as [-> Hx], Hy as [-> Hy]. unfold cond_Zopp.
    pose proof (shl_align_spec mx ex (Z.min ex ey)) as Hax.
    pose proof (shl_align_spec my ey (Z.min ex ey)) as Hay.
    destruct (shl_align mx ex (Z.min ex ey)) as [mx' ex'].
    destruct (shl_align my ey (Z.min ex ey)) as [my' ey'].
    destruct Hax as (_ & _ & Hmx & Hex), Hay as (_ & _ & Hmy & Hey).
    cbn [fst]. change (Z.pos mx' + Z.pos my') with (Z.pos (mx' + my')).
    cbn [binary_normalize].
    replace (K + 2) with (K + 1 + 1) by lia.
    apply binary_round_bounded; [|done].
    pose proof (Zdigits2_add mx' my') as Hadd.
    change (Z.pos mx' + Z.pos my') with (Z.pos (mx' + my')) in Hadd.
    cbn [Zdigits2] in Hadd.
    change (IntDef.Z.min ex ey) with (Z.min ex ey). lia.
Qed.

Lemma jdiv_bounded sx Kx x sy my ey L :
  bounded_by sx Kx x → - ey ≤ L → -1074 ≤ Kx + L ≤ 971 →
  bounded_by (xorb sx sy) (Kx + L + 1) (jdiv x (S754_finite sy my ey)).
Proof.
  intros Hx HL HK.
  destruct x as [sx'| | |sx' mx ex]; simpl in *; try done.
  - by subst.
  - destruct Hx as [-> Hx]. unfold SFdiv_core_binary.
    set (e' := Z.min _ _).
    set (m' := match ex - ey - e' with
               | 0 => Z.pos mx
               | Z.pos _ => Z.shiftl (Z.pos mx) (ex - ey - e')
               | Z.neg _ => 0
               end).
    assert (He' : e' ≤ ex - ey) by (subst e'; lia).
    assert (Hm' : 0 < m' ∧ Zdigits2 m' + e' = Z.pos (digits2_pos mx) + ex - ey).
    { subst m'. destruct (ex - ey - e') as [|s|s] eqn:Hs; [simpl; lia | |lia].
      assert (Hsh : 0 < Z.shiftl (Z.pos mx) (Z.pos s)).
      { rewrite Z.shiftl_mul_pow2 by lia.
        apply Z.mul_pos_pos; [lia | apply Z.pow_pos_nonneg; lia]. }
      split; [done|].
      rewrite Zdigits2_log2 by done.
      rewrite Z.log2_shiftl by lia.
      change (Z.pos (digits2_pos mx)) with (Zdigits2 (Z.pos mx)).
      rewrite Zdigits2_log2 by lia. lia. }
    destruct Hm' as [Hm'pos Hm'mag].
    destruct (Z.div_eucl m' (Z.pos my)) as [q r] eqn:Hdiv.
    assert (Hq : q = m' / Z.pos my) by (unfold Z.div; by rewrite Hdiv).
    assert (Hq0 : 0 ≤ q) by (subst q; apply Z.div_pos; lia).
    assert (Hq1 : q ≤ m').
    { subst q. apply Z.div_le_upper_bound; [lia|]. nia. }
    apply binary_round_aux_bounded; [done| |done].
    pose proof (Zdigits2_le q m' Hq0 Hq1). lia.
Qed.

Lemma of_Z_bounded z K :
  0 ≤ z → Zdigits2 z ≤ K → -1074 ≤ K ≤ 971 → bounded_by false (K + 1) (of_Z z).
Proof.
  intros Hz HK HKr. unfold of_Z. destruct z as [|p|p]; [done| |lia].
  cbn [binary_normalize]. apply binary_round_bounded; [|done]. simpl in HK. lia.
Qed.

Lemma of_Z_sign z :
  0 ≤ z →
  match of_Z z with
  | S754_zero s | S754_finite s _ _ | S754_infinity s => s = false
  | S754_nan => False
  end.
Proof.
  intros Hz. unfold of_Z. destruct z as [|p|p]; [done| |lia].
  cbn [binary_normalize]. unfold binary_round.
  destruct (shl_align _ _ _) as [mz ez].
  by apply binary_round_aux_sign.
Qed.

Lemma of_Z_nonneg_ge z : 0 ≤ z → jge (of_Z z) (of_Z 0) = true.
Proof.
  intros Hz. pose proof (of_Z_sign z Hz) as Hs.
  change (of_Z 0) with (S754_zero false).
  by destruct (of_Z z) as [s|s| |s m e]; subst.
Qed.

(** *** Exact results *)

Lemma shr_exact p m :
  0 ≤ m →
  SpecFloat.iter_pos shr_1 p (Build_shr_record (m * 2 ^ Z.pos p) false false) =
  Build_shr_record m false false.
Proof.
  rewrite iter_pos_iter. revert m.
  induction p as [|p IH] using Pos.peano_ind; intros m Hm.
  - simpl. replace (m * 2 ^ 1) with (2 * m) by lia.
    by destruct m as [|q|q]; [| |lia].
  - rewrite Pos.iter_succ, Pos2Z.inj_succ, Z.pow_succ_r by lia.
    replace (m * (2 * 2 ^ Z.pos p)) with ((2 * m) * 2 ^ Z.pos p) by lia.
    rewrite IH by lia. by destruct m as [|q|q]; [| |lia].
Qed.

Lemma binary_round_aux_exact s k n e :
  Z.pos (digits2_pos k) = 53 → 0 ≤ n → -1074 ≤ e + n ≤ 971 →
  binary_round_aux prec emax s (Z.pos k * 2 ^ n) e loc_Exact =
  S754_finite s k (e + n).
Proof.
  intros Hk Hn He. unfold binary_round_aux, shr_fexp.
  assert (Hd : Zdigits2 (Z.pos k * 2 ^ n) = 53 + n).
  { assert (0 < 2 ^ n) by (apply Z.pow_pos_nonneg; lia).
    rewrite Zdigits2_log2 by (apply Z.mul_pos_pos; lia).
    rewrite Z.log2_mul_pow2 by lia.
    change (Z.pos (digits2_pos k)) with (Zdigits2 (Z.pos k)) in Hk.
    rewrite Zdigits2_log2 in Hk by lia. lia. }
  rewrite Hd. unfold fexp, emin, prec, emax.
  replace (Z.max (53 + n + e - 53) (3 - 1024 - 53) - e) with n by lia.
  assert (Hshr : shr (shr_record_of_loc (Z.pos k * 2 ^ n) loc_Exact) e n =
                 (Build_shr_record (Z.pos k) false false, e + n)).
  { unfold shr. simpl. destruct n as [|p|p]; [|by rewrite shr_exact|lia].
    rewrite Z.add_0_r. f_equal. f_equal. lia. }
  rewrite Hshr. cbn [shr_m loc_of_shr_record round_nearest_even Zdigits2].
  rewrite Hk.
  replace (Z.max (53 + (e + n) - 53) (3 - 1024 - 53) - (e + n)) with 0 by lia.
  cbn [shr shr_record_of_loc shr_m].
  by replace (e + n <=? 1024 - 53) with true by (symmetry; apply Z.leb_le; lia).
Qed.

(** A positive integer below [2^53] is represented exactly: its mantissa is
    the integer shifted to 53 bits. *)
Lemma of_Z_exact z :
  0 < z → Zdigits2 z ≤ 53 →
  ∃ m, of_Z z = S754_finite false m (Zdigits2 z - 53) ∧
       Z.pos (digits2_pos m) = 53 ∧
       Z.pos m = z * 2 ^ (53 - Zdigits2 z).
Proof.
  intros Hz Hd. destruct z as [|p|p]; try lia. simpl in Hd.
  unfold of_Z. cbn [binary_normalize Zdigits2]. unfold binary_round.
  pose proof (shl_align_spec p 0 (fexp prec emax (Z.pos (digits2_pos p) + 0)))
    as Hal.
  destruct (shl_align _ _ _) as [mz ez]. destruct Hal as (_ & Hval & Hmag & Hez).
  unfold fexp, emin, prec, emax in Hez.
  assert (Hez' : ez = Z.pos (digits2_pos p) - 53) by lia.
  exists mz. split; [|split; [lia|]].
  - pose proof (binary_round_aux_exact false mz 0 ez ltac:(lia) ltac:(lia)
                  ltac:(lia)) as Hex.
    rewrite Z.mul_1_r, Z.add_0_r in Hex. by rewrite Hex, Hez'.
  - rewrite Hval. f_equal. f_equal. lia.
Qed.

Lemma jmul_exact ma ea mb eb k n :
  Z.pos ma * Z.pos mb = Z.pos k * 2 ^ n → Z.pos (digits2_pos k) = 53 →
  0 ≤ n → -1074 ≤ ea + eb + n ≤ 971 →
  jmul (S754_finite false ma ea) (S754_finite false mb eb) =
  S754_finite false k (ea + eb + n).
Proof.
  intros Hprod Hk Hn He. unfold jmul. cbn [SFmul xorb].
  rewrite Pos2Z.inj_mul, Hprod. by apply binary_round_aux_exact.
Qed.

Lemma Zdigits2_lt_pow2 z n : 0 ≤ z → 0 ≤ n → z < 2 ^ n → Zdigits2 z ≤ n.
Proof.
  intros Hz Hn Hlt. destruct (Z.eq_dec z 0) as [->|Hz0]; [simpl; lia|].
  rewrite Zdigits2_log2 by lia.
  pose proof (proj1 (Z.log2_lt_pow2 z n ltac:(lia)) Hlt). lia.
Qed.

(** The product of two non-negative integers is exact as long as it stays
    below [2^53]. *)
Lemma jmul_of_Z a b :
  0 ≤ a < 2 ^ 53 → 0 ≤ b < 2 ^ 53 → a * b < 2 ^ 53 →
  jmul (of_Z a) (of_Z b) = of_Z (a * b).
Proof.
  intros Ha Hb Hab.
  pose proof (Zdigits2_lt_pow2 a 53 ltac:(lia) ltac:(lia) ltac:(lia)) as Hda.
  pose proof (Zdigits2_lt_pow2 b 53 ltac:(lia) ltac:(lia) ltac:(lia)) as Hdb.
  destruct (Z.eq_dec a 0) as [->|Ha0].
  { rewrite Z.mul_0_l. destruct (Z.eq_dec b 0) as [->|Hb0]; [done|].
    by destruct (of_Z_exact b ltac:(lia) Hdb) as (mb & -> & _). }
  destruct (Z.eq_dec b 0) as [->|Hb0].
  { rewrite Z.mul_0_r.
    by destruct (of_Z_exact a ltac:(lia) Hda) as (ma & -> & _). }
  assert (Hab0 : 0 < a * b) by nia.
  pose proof (Zdigits2_lt_pow2 (a * b) 53 ltac:(lia) ltac:(lia) Hab) as Hdab.
  destruct (of_Z_exact a ltac:(lia) Hda) as (ma & -> & _ & Hma).
  destruct (of_Z_exact b ltac:(lia) Hdb) as (mb & -> & _ & Hmb).
  destruct (of_Z_exact (a * b) Hab0 Hdab) as (mab & -> & Hk & Hmab).
  assert (Hlog : Zdigits2 a + Zdigits2 b - 1 ≤ Zdigits2 (a * b)).
  { rewrite !Zdigits2_log2 by lia.
    pose proof (Z.log2_mul_below a b ltac:(lia) ltac:(lia)). lia. }
  pose proof (Zdigits2_nonneg a). pose proof (Zdigits2_nonneg b).
  rewrite (jmul_exact ma _ mb _ mab
             (53 + Zdigits2 (a * b) - Zdigits2 a - Zdigits2 b));
    [f_equal; lia | | done | lia | lia].
  assert (E : 2 ^ (53 - Zdigits2 (a * b)) *
              2 ^ (53 + Zdigits2 (a * b) - Zdigits2 a - Zdigits2 b) =
              2 ^ (53 - Zdigits2 a) * 2 ^ (53 - Zdigits2 b)).
  { rewrite <- !Z.pow_add_r by lia. f_equal. lia. }
  rewrite Hma, Hmb, Hmab, <- (Z.mul_assoc (a * b)), E. ring.
Qed.

End Binary64.

(** ** The lane scan *)

Lemma scanTracks_Some now ts i r j :
  scanTracks now ts i r = Some j →
  i ≤ j < i + r ∧ track_available now ts j = true ∧
  ∀ k, i ≤ k < j → track_available now ts k = false.
Proof.
  revert i. induction r as [|r IH]; intros i; simpl; [discriminate|].
  destruct (track_available now ts i) eqn:Hi.
  - intros [= <-]. repeat split; [lia | lia | done | intros k ?; lia].
  - intros Hscan. destruct (IH _ Hscan) as (Hrange & Hj & Hlow).
    repeat split; [lia | lia | done |].
    intros k Hk. destruct (decide (k = i)) as [->|]; [done|].
    apply Hlow. lia.
Qed.

Lemma scanTracks_None now ts i r :
  scanTracks now ts i r = None ↔
  ∀ k, i ≤ k < i + r → track_available now ts k = false.
Proof.
  revert i. induction r as [|r IH]; intros i; simpl.
  - split; [intros _ k ?; lia | done].
  - destruct (track_available now ts i) eqn:Hi.
    + split; [discriminate|]. intros H. rewrite H in Hi by lia. done.
    + rewrite IH. split; intros H k Hk.
      * destruct (decide (k = i)) as [->|]; [done|]. apply H. lia.
      * apply H. lia.
Qed.


Lemma track_available_lookup now ts i :
  track_available now ts i = true →
  ∃ freeAt, ts !! i = Some freeAt ∧ jge now freeAt = true.
Proof.
  unfold track_available. destruct (ts !! i) as [v|]; [eauto | discriminate].
Qed.

Lemma findTrack_in_range now e i :
  findTrack now e = Some i → i < length (trackStatus e).
Proof.
  intros H. apply scanTracks_Some in H as (_ & Hav & _).
  apply track_available_lookup in Hav as (v & Hv & _).
  by eapply lookup_lt_Some.
Qed.

(** ** Element pool *)

Lemma createPool_loop_spec n pool :
  createPool_loop n pool = pool ++ replicate n pool_element.
Proof.
  revert pool. induction n as [|n IH]; intros pool; simpl.
  - by rewrite app_nil_r.
  - rewrite IH, <- app_assoc. done.
Qed.

Lemma getDanmakuElement_fields e :
  let e1 := (getDanmakuElement e).2 in
  surface e1 = surface e ∧ numTracks e1 = numTracks e ∧
  trackStatus e1 = trackStatus e ∧ speed e1 = speed e ∧
  opacity e1 = opacity e ∧ enabled e1 = enabled e ∧ timers e1 = timers e.
Proof.
  unfold getDanmakuElement.
  destruct (list_find _ _) as [[i el]|]; simpl; done.
Qed.

Lemma getDanmakuElement_index e :
  (getDanmakuElement e).1 < length (danmakuPool (getDanmakuElement e).2).
Proof.
  unfold getDanmakuElement.
  destruct (list_find _ _) as [[i el]|] eqn:Hfind; simpl.
  - apply list_find_Some in Hfind as (Hi & _). by eapply lookup_lt_Some.
  - rewrite length_app. simpl. lia.
Qed.

Lemma assign_opacity_display o el :
  style_display (assign_opacity o el) = style_display el.
Proof. unfold assign_opacity. by destruct (css_number o). Qed.

Lemma assign_opacity_hidden o pool :
  Forall (λ el, style_display el = DisplayNone) pool →
  Forall (λ el, style_display el = DisplayNone) (assign_opacity o <$> pool).
Proof.
  intros H. apply Forall_fmap. eapply Forall_impl; [exact H|].
  intros el Hel. simpl. by rewrite assign_opacity_display.
Qed.

Section Properties.

Context {layout : Layout}.

(** ** What an admission writes *)

Lemma duration_of_getDanmakuElement d e :
  duration_of d (getDanmakuElement e).2 = duration_of d e.
Proof.
  destruct (getDanmakuElement_fields e) as (Hs & _ & _ & Hv & _).
  unfold duration_of, totalDistance_of.
  by rewrite Hs, Hv.
Qed.

Lemma place_trackStatus now d i e :
  trackStatus (place now d i e) =
  <[i := jadd now (duration_of d e)]> (trackStatus e).
Proof.
  unfold place.
  pose proof (duration_of_getDanmakuElement d e) as Hd.
  destruct (getDanmakuElement_fields e) as (_ & _ & Hts & _).
  destruct (getDanmakuElement e) as [idx e1]; simpl in *.
  by rewrite Hd, Hts.
Qed.

Lemma place_timers now d i e :
  timers (place now d i e) =
  timers e ++ [Timer (getDanmakuElement e).1 (duration_of d e)].
Proof.
  unfold place.
  pose proof (duration_of_getDanmakuElement d e) as Hd.
  destruct (getDanmakuElement_fields e) as (_ & _ & _ & _ & _ & _ & Ht).
  destruct (getDanmakuElement e) as [idx e1]; simpl in *.
  by rewrite Hd, Ht.
Qed.

Lemma place_danmakuPool now d i e :
  danmakuPool (place now d i e) =
  alter (render d (opacity e) (of_N (clientWidth (surface e))) (top_of i)
           (duration_of d e) (totalDistance_of d e))
        (getDanmakuElement e).1 (danmakuPool (getDanmakuElement e).2).
Proof.
  unfold place.
  pose proof (duration_of_getDanmakuElement d e) as Hd.
  destruct (getDanmakuElement_fields e) as (Hs & _ & _ & Hv & Ho & _).
  destruct (getDanmakuElement e) as [idx e1]; simpl in *.
  rewrite Hd, Hs, Ho. unfold totalDistance_of. by rewrite Hs.
Qed.

Lemma place_config now d i e :
  surface (place now d i e) = surface e ∧
  numTracks (place now d i e) = numTracks e ∧
  speed (place now d i e) = speed e ∧
  opacity (place now d i e) = opacity e ∧
  enabled (place now d i e) = enabled e.
Proof.
  unfold place.
  destruct (getDanmakuElement_fields e) as (? & ? & _ & ? & ? & ? & _).
  destruct (getDanmakuElement e) as [idx e1]; simpl in *. done.
Qed.

Lemma add_admitted now d e i :
  selected_track now e = Some i → add now d e = place (of_Z now) d i e.
Proof.
  unfold selected_track, add.
  destruct (negb (enabled e)); [discriminate|]. by intros ->.
Qed.

Lemma add_dropped now d e :
  selected_track now e = None → add now d e = e.
Proof.
  unfold selected_track, add.
  destruct (negb (enabled e)); [done|]. by intros ->.
Qed.

Lemma selected_track_spec now e i :
  selected_track now e = Some i →
  enabled e = true ∧ i < numTracks e ∧
  (∃ freeAt, trackStatus e !! i = Some freeAt ∧ jge (of_Z now) freeAt = true) ∧
  ∀ k, k < i → track_available (of_Z now) (trackStatus e) k = false.
Proof.
  unfold selected_track, findTrack, negb.
  destruct (enabled e); [|discriminate].
  intros H. apply scanTracks_Some in H as (Hrange & Hav & Hlow).
  split; [done|]. split; [lia|]. split.
  - by apply track_available_lookup.
  - intros k Hk. apply Hlow. lia.
Qed.

(** ** First fit *)


(** ** Saturation *)

(** C3. If every lane is reserved past [now] ([trackStatus[i] > now] for all
    lanes), [add] returns the engine unchanged: same pool and elements, same
    lane table, no timer scheduled. *)
Theorem add_saturated_drops now d e :
  (∀ i freeAt, i < numTracks e → trackStatus e !! i = Some freeAt →
               jgt freeAt (of_Z now) = true) →
  add now d e = e.
Proof.
  intros Hbusy. apply add_dropped.
  unfold selected_track, findTrack.
  destruct (negb (enabled e)); [done|].
  apply scanTracks_None. intros k Hk.
  unfold track_available.
  destruct (trackStatus e !! k) as [v|] eqn:Hv; [|done].
  specialize (Hbusy k v ltac:(lia) Hv).
  by apply jgt_not_jge.
Qed.

(** What [render] leaves on the element, property by property: a value the
    CSS parser rejects leaves the property as it was. *)
Lemma render_fields d o cw top dur td el :
  let el' := render d o cw top dur td el in
  className el' = className el ∧ textContent el' = content d ∧
  style_display el' = DisplayBlock ∧
  style_color el' =
    (if css_color (color_or_default d) then color_or_default d
     else style_color el) ∧
  style_fontSize el' =
    (if css_nonnegative (font_size_or_default d)
     then Some (font_size_or_default d) else style_fontSize el) ∧
  style_opacity el' = (if css_number o then Some o else style_opacity el) ∧
  style_top el' = (if css_number top then Some top else style_top el) ∧
  style_left el' = (if css_number cw then Some cw else style_left el) ∧
  style_transition el' =
    (if css_nonnegative dur then Some dur else style_transition el) ∧
  style_transform el' =
    (if css_nonnegative td then Some td else style_transform el).
Proof.
  unfold render, assign_color, assign_fontSize, assign_opacity, assign_top,
    assign_left, assign_transition, assign_transform.
  destruct (css_color _), (css_nonnegative (font_size_or_default d)),
    (css_number o), (css_number top), (css_number cw),
    (css_nonnegative dur), (css_nonnegative td); done.
Qed.

(** *** Sizes of the numbers an admission computes *)

Lemma bounded_by_finite s K x : bounded_by s K x → is_finite x = true.
Proof. by destruct x. Qed.

Lemma bounded_by_nonnegative K x :
  bounded_by false K x → css_nonnegative x = true.
Proof.
  unfold css_nonnegative. change (of_Z 0) with (S754_zero false).
  destruct x as [s| | |s m e]; simpl; try done.
  by intros [-> _].
Qed.

Lemma of_N_long_bounded (n : long) : bounded_by false 32 (of_N n).
Proof.
  unfold of_N. apply (of_Z_bounded _ 31); [lia| |lia].
  apply Zdigits2_lt_pow2; [lia | lia |].
  destruct n as [v Hv]. simpl. apply N.ltb_lt in Hv.
  change (2 ^ 31)%N with 2147483648%N in Hv.
  change (2 ^ 31)%Z with 2147483648%Z. lia.
Qed.

Lemma totalDistance_bounded d e : bounded_by false 34 (totalDistance_of d e).
Proof.
  unfold totalDistance_of.
  apply (jadd_bounded 32); [apply of_N_long_bounded.. | lia].
Qed.

Lemma duration_bounded d e :
  speed_bounded (speed e) = true → bounded_by false 146 (duration_of d e).
Proof.
  unfold speed_bounded, duration_of. intros Hs.
  destruct (speed e) as [| | |[|] m ex]; try done.
  apply andb_true_iff in Hs as [Hlo _]. apply Z.leb_le in Hlo.
  apply (jmul_bounded false false 134 11).
  - apply (jdiv_bounded false 34 _ false m ex 99);
      [apply totalDistance_bounded | lia | lia].
  - apply (of_Z_bounded 1000 10); [lia | by vm_compute | lia].
  - lia.
Qed.

Lemma place_element now d i e :
  ∃ el0,
    danmakuPool (getDanmakuElement e).2 !! (getDanmakuElement e).1 = Some el0 ∧
    danmakuPool (place now d i e) !! (getDanmakuElement e).1 =
      Some (render d (opacity e) (of_N (clientWidth (surface e))) (top_of i)
              (duration_of d e) (totalDistance_of d e) el0).
Proof.
  destruct (lookup_lt_is_Some_2 _ _ (getDanmakuElement_index e)) as [el0 Hel0].
  exists el0. split; [done|].
  by rewrite place_danmakuPool, list_lookup_alter_eq, Hel0.
Qed.

Lemma place_element_shown now d i e :
  ∃ el, danmakuPool (place now d i e) !! (getDanmakuElement e).1 = Some el ∧
        style_display el = DisplayBlock ∧ textContent el = content d.
Proof.
  destruct (place_element now d i e) as (el0 & _ & Hel).
  eexists. split; [exact Hel|].
  by destruct (render_fields d (opacity e) (of_N (clientWidth (surface e)))
                 (top_of i) (duration_of d e) (totalDistance_of d e) el0)
    as (_ & -> & -> & _).
Qed.

(** ** Duration *)

(** C4. For an admitted comment, with [W = clientWidth], [w] the measured
    text width and [s] the current speed, the duration the engine uses is
    [(W + w) / s * 1000], each operation being the binary64 one: the
    selected lane's [trackStatus] entry becomes [now] plus that duration,
    the recycle timer is scheduled with it, and the element travels [W + w]
    pixels.  The transition of the element lasts the same duration whenever
    that is a time CSS accepts (finite and not negative); otherwise (a speed
    of zero, a negative one, [NaN]) the element keeps the transition it
    had.  For a finite positive speed between [2^-99] and [2^10], as
    [setSpeed] yields for every multiplier from 0.5 to 2.0, the duration is
    such a time. *)
Theorem add_duration_formula now d e i :
  selected_track now e = Some i →
  let W := clientWidth (surface e) in
  let w := measureText (content d) (font_size_or_default d) in
  let duration := jmul (jdiv (jadd (of_N W) (of_N w)) (speed e)) (of_Z 1000) in
  let idx := (getDanmakuElement e).1 in
  trackStatus (add now d e) !! i = Some (jadd (of_Z now) duration) ∧
  timers (add now d e) = timers e ++ [Timer idx duration] ∧
  (∃ el0 el,
     danmakuPool (getDanmakuElement e).2 !! idx = Some el0 ∧
     danmakuPool (add now d e) !! idx = Some el ∧
     style_transform el = Some (jadd (of_N W) (of_N w)) ∧
     (css_nonnegative duration = true → style_transition el = Some duration) ∧
     (css_nonnegative duration = false →
      style_transition el = style_transition el0)) ∧
  (speed_bounded (speed e) = true →
   is_finite duration = true ∧ css_nonnegative duration = true).
Proof.
  intros Hsel W w duration idx.
  rewrite (add_admitted _ _ _ _ Hsel).
  split; [|split; [|split]].
  - rewrite place_trackStatus. apply list_lookup_insert_eq.
    apply selected_track_spec in Hsel as (_ & _ & (v & Hv & _) & _).
    by eapply lookup_lt_Some.
  - apply place_timers.
  - destruct (place_element (of_Z now) d i e) as (el0 & Hel0 & Hel).
    exists el0. eexists. split; [exact Hel0|]. split; [exact Hel|].
    destruct (render_fields d (opacity e) (of_N (clientWidth (surface e)))
                (top_of i) (duration_of d e) (totalDistance_of d e) el0)
      as (_ & _ & _ & _ & _ & _ & _ & _ & Htr & Htf).
    rewrite Htr, Htf.
    rewrite (bounded_by_nonnegative _ _ (totalDistance_bounded d e)).
    split; [done|]. fold W w.
    change (duration_of d e) with duration.
    split; by intros ->.
  - intros Hs. pose proof (duration_bounded d e Hs) as Hb.
    split; [by eapply bounded_by_finite | by eapply bounded_by_nonnegative].
Qed.

(** ** Defaults *)

(** C10 (amended). An admitted comment whose [color] is missing or empty
    is rendered in ['#FFFFFF'], and one whose [font_size] is missing, zero or
    [NaN] at 24 pixels (the size its width is measured at as well).  A
    supplied non-falsy colour or size is used as it is when it is valid CSS
    (a colour the parser accepts, a finite size that is not negative);
    otherwise the assignment is dropped and the element keeps the colour or
    size it had, while the width is still measured at the supplied size. *)
Theorem add_style_defaults now d e i :
  selected_track now e = Some i →
  ∃ el0 el,
    danmakuPool (getDanmakuElement e).2 !! (getDanmakuElement e).1 = Some el0 ∧
    danmakuPool (add now d e) !! (getDanmakuElement e).1 = Some el ∧
    textContent el = content d ∧
    (color d = None ∨ color d = Some "" → style_color el = "#FFFFFF") ∧
    (∀ c, color d = Some c → c ≠ "" →
          style_color el = if css_color c then c else style_color el0) ∧
    (font_size d = None ∨
     (∃ n, font_size d = Some n ∧ number_truthy n = false) →
     style_fontSize el = Some (of_Z 24) ∧
     totalDistance_of d e =
       jadd (of_N (clientWidth (surface e)))
            (of_N (measureText (content d) (of_Z 24)))) ∧
    (∀ n, font_size d = Some n → number_truthy n = true →
     style_fontSize el =
       (if css_nonnegative n then Some n else style_fontSize el0) ∧
     totalDistance_of d e =
       jadd (of_N (clientWidth (surface e)))
            (of_N (measureText (content d) n))).
Proof.
  intros Hsel. rewrite (add_admitted _ _ _ _ Hsel).
  destruct (place_element (of_Z now) d i e) as (el0 & Hel0 & Hel).
  exists el0. eexists. split; [exact Hel0|]. split; [exact Hel|].
  destruct (render_fields d (opacity e) (of_N (clientWidth (surface e)))
              (top_of i) (duration_of d e) (totalDistance_of d e) el0)
    as (_ & Htext & _ & Hcol & Hfs & _).
  rewrite Hcol, Hfs.
  unfold totalDistance_of, color_or_default, font_size_or_default.
  split; [done|]. split; [|split; [|split]].
  - intros [-> | ->]; done.
  - intros c -> Hc. by rewrite bool_decide_eq_false_2.
  - intros [-> | (n & -> & ->)]; done.
  - intros n -> ->. done.
Qed.

(** ** Release *)

(** C9. Recycling is idempotent: recycling twice equals recycling once, a
    recycled element is in the free state (hidden, no transform, no
    content), and recycling an element already in the free state leaves it
    exactly as it was. *)
Theorem recycle_idempotent el :
  recycleDanmakuElement (recycleDanmakuElement el) = recycleDanmakuElement el ∧
  is_free (recycleDanmakuElement el) ∧
  (is_free el → recycleDanmakuElement el = el).
Proof.
  split; [done|]. split; [done|].
  intros (Hd & Ht & Hc). destruct el; simpl in *. by subst.
Qed.

(** ** Speed *)

(** C6. [setSpeed(m)] sets the speed to [100 * m] and nothing else: the lane
    table, the pending recycle timers with their durations, the pool and its
    elements, and the rest of the configuration are as before.  A comment
    admitted afterwards gets the duration computed from the new speed. *)
Theorem setSpeed_frame m e :
  speed (setSpeed m e) = jmul baseSpeed m ∧
  trackStatus (setSpeed m e) = trackStatus e ∧
  timers (setSpeed m e) = timers e ∧
  danmakuPool (setSpeed m e) = danmakuPool e ∧
  numTracks (setSpeed m e) = numTracks e ∧
  surface (setSpeed m e) = surface e ∧
  opacity (setSpeed m e) = opacity e ∧
  enabled (setSpeed m e) = enabled e ∧
  (∀ now, selected_track now (setSpeed m e) = selected_track now e) ∧
  (∀ now d i, selected_track now e = Some i →
     timers (add now d (setSpeed m e)) =
       timers e ++
       [Timer (getDanmakuElement e).1
          (jmul (jdiv (totalDistance_of d e) (jmul baseSpeed m)) (of_Z 1000))]).
Proof.
  repeat split.
  intros now d i Hsel.
  assert (Hsel' : selected_track now (setSpeed m e) = Some i) by exact Hsel.
  rewrite (add_admitted _ _ _ _ Hsel'), place_timers.
  unfold getDanmakuElement, setSpeed. simpl.
  destruct (list_find _ _) as [[idx el]|]; done.
Qed.

(** ** Disabling *)

Lemma add_disabled now d e : enabled e = false → add now d e = e.
Proof. intros H. unfold add. by rewrite H. Qed.

Lemma all_hidden_Forall e :
  all_hidden e ↔ Forall (λ el, style_display el = DisplayNone) (danmakuPool e).
Proof. unfold all_hidden. by rewrite Forall_forall. Qed.

Lemma hide_all_hidden pool :
  Forall (λ el, style_display el = DisplayNone) (hide_all pool).
Proof. unfold hide_all. apply Forall_fmap, Forall_true. done. Qed.

Lemma fresh_tracks_lookup n i : i < n → fresh_tracks n !! i = Some (of_Z 0).
Proof. intros H. unfold fresh_tracks. by apply lookup_replicate_2. Qed.

(** A recycle callback never turns a hidden element visible, whatever the
    state it fires in. *)
Lemma fire_keeps_hidden k e i el :
  danmakuPool e !! i = Some el → style_display el = DisplayNone →
  ∃ el', danmakuPool (fire k e) !! i = Some el' ∧
         style_display el' = DisplayNone.
Proof.
  intros Hel Hd. unfold fire.
  destruct (timers e !! k) as [t|]; [|eauto]. simpl.
  destruct (decide (timer_el t = i)) as [->|Hne].
  - rewrite list_lookup_alter_eq, Hel. simpl. eauto.
  - rewrite list_lookup_alter_ne by done. eauto.
Qed.

Lemma fire_all_hidden k e : all_hidden e → all_hidden (fire k e).
Proof.
  rewrite !all_hidden_Forall. intros H. unfold fire.
  destruct (timers e !! k) as [t|]; [|done]. simpl.
  apply Forall_alter; [done|]. done.
Qed.

Lemma setEnabled_false_suppressed e : suppressed (setEnabled false e).
Proof.
  unfold suppressed. split; [done|]. split; [|done].
  apply all_hidden_Forall. apply hide_all_hidden.
Qed.

Lemma step_suppressed ev e :
  ev ≠ EvSetEnabled true → suppressed e → suppressed (step ev e).
Proof.
  intros Hev (Hen & Hhid & Hts).
  destruct ev as [now d|k|flag|o|m| |c]; simpl.
  - by rewrite add_disabled.
  - split; [|split].
    + unfold fire. by destruct (timers e !! k).
    + by apply fire_all_hidden.
    + unfold fire. by destruct (timers e !! k).
  - destruct flag; [done|]. apply setEnabled_false_suppressed.
  - split; [done|]. split; [|done].
    apply all_hidden_Forall. simpl. apply assign_opacity_hidden.
    by apply all_hidden_Forall.
  - done.
  - split; [done|]. split; [|done].
    apply all_hidden_Forall. apply hide_all_hidden.
  - done.
Qed.

Lemma run_suppressed evs e :
  Forall (λ ev, ev ≠ EvSetEnabled true) evs →
  suppressed e → suppressed (run evs e).
Proof.
  intros Hevs. revert e. induction Hevs as [|ev evs Hev _ IH]; intros e He.
  - done.
  - simpl. apply IH. by apply step_suppressed.
Qed.

(** Every event but an [add] that admits a comment leaves a fully hidden
    pool fully hidden, [setEnabled(true)] included. *)
Lemma step_all_hidden ev e :
  (∀ now d, ev = EvAdd now d → admission_of now d e = None) →
  all_hidden e → all_hidden (step ev e).
Proof.
  intros Hev Hhid. destruct ev as [now d|k|flag|o|m| |c]; simpl.
  - pose proof (Hev now d eq_refl) as Hadm. unfold admission_of in Hadm.
    rewrite add_dropped; [done|]. by destruct (selected_track now e).
  - by apply fire_all_hidden.
  - destruct flag; [done|]. apply all_hidden_Forall, hide_all_hidden.
  - apply all_hidden_Forall. simpl. apply assign_opacity_hidden.
    by apply all_hidden_Forall.
  - done.
  - apply all_hidden_Forall, hide_all_hidden.
  - done.
Qed.

Lemma run_all_hidden evs : ∀ e,
  admissions evs e = [] → all_hidden e → all_hidden (run evs e).
Proof.
  induction evs as [|ev evs IH]; intros e Hadm Hhid; [done|].
  cbn [admissions] in Hadm. apply app_eq_nil in Hadm as [Hev Hrest].
  cbn [run]. apply IH; [done|]. apply step_all_hidden; [|done].
  intros now d ->. by destruct (admission_of now d e).
Qed.

(** C5. [setEnabled(false)] hides every element of the pool and resets every
    lane to [0], so that every lane is available at any non-negative time.
    While the engine stays disabled, whatever else happens (recycle
    callbacks firing, [add], [setOpacity], [setSpeed], [clear], resizes),
    every element stays hidden and [add] returns the engine unchanged.  More
    generally, along any sequence of events that admits no comment, with or
    without [setEnabled(true)] in it, every element stays hidden: only the
    admission of a new comment shows an element again.  In any state at all
    a recycle callback leaves hidden elements hidden. *)
Theorem setEnabled_false_suppresses e :
  let e' := setEnabled false e in
  (enabled e' = false ∧ all_hidden e' ∧
   length (danmakuPool e') = length (danmakuPool e) ∧
   numTracks e' = numTracks e) ∧
  (∀ i, i < numTracks e' → trackStatus e' !! i = Some (of_Z 0)) ∧
  (∀ now i, (0 ≤ now)%Z → i < numTracks e' →
            track_available (of_Z now) (trackStatus e') i = true) ∧
  (∀ now d, add now d e' = e') ∧
  (∀ evs, Forall (λ ev, ev ≠ EvSetEnabled true) evs →
          enabled (run evs e') = false ∧ all_hidden (run evs e') ∧
          ∀ now d, add now d (run evs e') = run evs e') ∧
  (∀ evs, admissions evs e' = [] → all_hidden (run evs e')) ∧
  (∀ k e0 i el, danmakuPool e0 !! i = Some el →
                style_display el = DisplayNone →
                ∃ el', danmakuPool (fire k e0) !! i = Some el' ∧
                       style_display el' = DisplayNone).
Proof.
  intros e'. pose proof (setEnabled_false_suppressed e) as (Hen & Hhid & Hts).
  fold e' in Hen, Hhid, Hts.
  split; [|split; [|split; [|split; [|split; [|split]]]]].
  - repeat split; [done..|]. subst e'. simpl. unfold hide_all.
    by rewrite length_fmap.
  - intros i Hi. rewrite Hts. by apply fresh_tracks_lookup.
  - intros now i Hnow Hi. unfold track_available.
    rewrite Hts, fresh_tracks_lookup by done. by apply of_Z_nonneg_ge.
  - intros now d. by apply add_disabled.
  - intros evs Hevs.
    destruct (run_suppressed evs e' Hevs) as (Hen' & Hhid' & _); [done|].
    repeat split; [done..|]. intros now d. by apply add_disabled.
  - intros evs Hadm. by apply run_all_hidden.
  - apply fire_keeps_hidden.
Qed.

(** ** Lane mutual exclusion *)

Lemma reservation_after_disjoint a b :
  jge (adm_start b) (jadd (adm_start a) (adm_duration a)) = true →
  reservations_disjoint a b.
Proof.
  intros Hafter t [Ha Hb]. unfold in_reservation in *.
  apply andb_true_iff in Ha as [_ Hta].
  apply andb_true_iff in Hb as [Htb _].
  by eapply jlt_jge_chain.
Qed.

Lemma admission_of_Some now d e a :
  admission_of now d e = Some a →
  selected_track now e = Some (adm_track a) ∧
  adm_start a = of_Z now ∧ adm_duration a = duration_of d e.
Proof.
  unfold admission_of.
  destruct (selected_track now e) as [i|]; [|discriminate].
  by intros [= <-].
Qed.

Lemma admission_of_None now d e :
  admission_of now d e = None → add now d e = e.
Proof.
  unfold admission_of. intros H. apply add_dropped.
  by destruct (selected_track now e).
Qed.

(** What one admission does to the lane table. *)
Lemma add_reserves now d e i :
  selected_track now e = Some i →
  ∃ freeAt, trackStatus e !! i = Some freeAt ∧
            jge (of_Z now) freeAt = true ∧
            trackStatus (add now d e) !! i =
              Some (jadd (of_Z now) (duration_of d e)) ∧
            ∀ j, j ≠ i → trackStatus (add now d e) !! j = trackStatus e !! j.
Proof.
  intros Hsel. rewrite (add_admitted _ _ _ _ Hsel), place_trackStatus.
  apply selected_track_spec in Hsel as (_ & _ & (v & Hv & Hge) & _).
  exists v. repeat split; [done..| |].
  - apply list_lookup_insert_eq. by eapply lookup_lt_Some.
  - intros j Hj. by apply list_lookup_insert_ne.
Qed.

Lemma step_keeps_trackStatus ev e :
  keeps_reservations ev = true → (∀ now d, ev ≠ EvAdd now d) →
  trackStatus (step ev e) = trackStatus e.
Proof.
  destruct ev as [now d|k|[|]|o|m| |c]; simpl; try done.
  - intros _ H. by destruct (H now d).
  - intros _ _. unfold fire. by destruct (timers e !! k).
Qed.

(** The next comment admitted to a lane arrives at or after the lane's
    current [trackStatus] entry. *)
Lemma next_admission_after_freeAt evs : ∀ e l2 b l3 freeAt,
  Forall (λ ev, keeps_reservations ev = true) evs →
  admissions evs e = l2 ++ b :: l3 →
  (∀ c, c ∈ l2 → adm_track c ≠ adm_track b) →
  trackStatus e !! adm_track b = Some freeAt →
  jge (adm_start b) freeAt = true.
Proof.
  induction evs as [|ev evs IH]; intros e l2 b l3 freeAt Hevs Hlog Hl2 Hts.
  { by destruct l2. }
  apply Forall_cons in Hevs as [Hev Hevs]. simpl in Hlog.
  destruct ev as [now d|k|flag|o|m| |c];
    try (cbn [admissions app] in Hlog;
         eapply IH; [exact Hevs | exact Hlog | exact Hl2 |];
         rewrite step_keeps_trackStatus; [exact Hts | exact Hev | done]).
  destruct (admission_of now d e) as [x|] eqn:Hadm; simpl in Hlog.
  - apply admission_of_Some in Hadm as (Hsel & Hstart & _).
    destruct (add_reserves now d e _ Hsel) as (v & Hv & Hge & _ & Hother).
    destruct l2 as [|c l2]; simplify_eq/=.
    + by rewrite Hstart.
    + eapply IH; [done | done | |].
      * intros c' Hc'. apply Hl2. by right.
      * rewrite Hother; [done|]. intros Heq. eapply Hl2; [by left|done].
  - apply admission_of_None in Hadm.
    eapply IH; [done | exact Hlog | done |]. simpl. by rewrite Hadm.
Qed.

(** C2. Along any trace without resize, [clear] or [setEnabled(false)]:
    a lane is granted only when [now >= trackStatus[lane]], and the grant
    sets [trackStatus[lane]] to [now + duration] and leaves the other lanes
    alone; consequently two successive comments admitted to one lane have
    disjoint reservation intervals [[start, start + duration)]. *)
Theorem lane_mutual_exclusion evs e :
  Forall (λ ev, keeps_reservations ev = true) evs →
  (∀ now d e0 i, selected_track now e0 = Some i →
     ∃ freeAt, trackStatus e0 !! i = Some freeAt ∧
               jge (of_Z now) freeAt = true ∧
               trackStatus (add now d e0) !! i =
                 Some (jadd (of_Z now) (duration_of d e0)) ∧
               ∀ j, j ≠ i →
                    trackStatus (add now d e0) !! j = trackStatus e0 !! j) ∧
  (∀ l1 a l2 b l3,
     admissions evs e = l1 ++ a :: l2 ++ b :: l3 →
     adm_track a = adm_track b →
     (∀ c, c ∈ l2 → adm_track c ≠ adm_track a) →
     reservations_disjoint a b).
Proof.
  intros Hevs. split; [apply add_reserves|].
  revert e. induction Hevs as [|ev evs Hev Hevs IH];
    intros e l1 a l2 b l3 Hlog Hlane Hl2.
  { by destruct l1. }
  simpl in Hlog.
  destruct ev as [now d|k|flag|o|m| |c];
    try (cbn [admissions app] in Hlog; by eapply IH).
  destruct (admission_of now d e) as [x|] eqn:Hadm; simpl in Hlog.
  - destruct l1 as [|y l1]; injection Hlog as -> Hlog; [|by eapply IH].
    apply admission_of_Some in Hadm as (Hsel & Hstart & Hdur).
    destruct (add_reserves now d e _ Hsel) as (v & _ & _ & Hnew & _).
    apply reservation_after_disjoint.
    eapply next_admission_after_freeAt; [exact Hevs | exact Hlog | |].
    + intros c Hc. rewrite <- Hlane. by apply Hl2.
    + rewrite <- Hlane. simpl. by rewrite Hnew, Hstart, Hdur.
  - by eapply IH.
Qed.

(** ** Speed stays positive *)

Lemma multiplier_in_range_form m :
  multiplier_in_range m = true →
  ∃ mm em, m = S754_finite false mm em ∧ (-53 ≤ em ≤ -51)%Z ∧
           Z.pos (digits2_pos mm) = 53%Z.
Proof.
  unfold multiplier_in_range. intros H.
  apply andb_true_iff in H as [H Hhi]. apply andb_true_iff in H as [Hv Hlo].
  change (of_Z 2) with (S754_finite false 4503599627370496 (-51)) in Hhi.
  unfold jge, SFleb, half in Hlo, Hhi.
  destruct m as [s|[|]| |[|] mm em]; try done.
  exists mm, em. split; [done|].
  cbn [SFcompare] in Hlo, Hhi.
  assert (Hem : (-53 ≤ em ≤ -51)%Z).
  { destruct (Z.compare_spec (-53) em), (Z.compare_spec em (-51));
      try done; lia. }
  split; [done|].
  cbn [valid_binary] in Hv. unfold bounded, canonical_mantissa in Hv.
  apply andb_true_iff in Hv as [Hv _]. apply Z.eqb_eq in Hv.
  unfold fexp, emin, prec, emax in Hv. lia.
Qed.

(** With a multiplier from the range, [100 * multiplier] is a positive
    number nowhere near zero or overflow. *)
Lemma multiplier_speed_bounded m :
  multiplier_in_range m = true → speed_bounded (jmul (of_Z 100) m) = true.
Proof.
  intros Hm. destruct (multiplier_in_range_form m Hm) as (mm & em & -> & Hem & Hd).
  change (of_Z 100) with (S754_finite false 7036874417766400 (-46)).
  unfold jmul. cbn [SFmul xorb].
  pose proof (Zdigits2_mul 7036874417766400 mm) as Hmul.
  change (Z.pos (digits2_pos 7036874417766400)) with 53%Z in Hmul.
  pose proof (Zdigits2_nonneg (Z.pos (7036874417766400 * mm))) as Hnn.
  assert (Hnz : (0 < Zdigits2 (Z.pos (7036874417766400 * mm)))%Z) by (simpl; lia).
  destruct (binary_round_aux_positive false
              (Z.pos (7036874417766400 * mm)) (-46 + em) loc_Exact 9)
    as (m' & e' & -> & He' & Hmag); [lia..|].
  unfold speed_bounded. apply andb_true_iff.
  split; [apply Z.leb_le | apply Z.leb_le]; lia.
Qed.

Lemma speed_bounded_positive v :
  speed_bounded v = true → is_finite v = true ∧ jgt v (of_Z 0) = true.
Proof. by destruct v as [| | |[|] m e]. Qed.

Lemma step_speed_bounded ev e :
  speeds_in_range ev = true → speed_bounded (speed e) = true →
  speed_bounded (speed (step ev e)) = true.
Proof.
  intros Hev Hs.
  destruct ev as [now d|k|flag|o|m| |c]; simpl.
  - unfold add. destruct (negb (enabled e)); [done|].
    destruct (findTrack _ _) as [i|]; [|done].
    by destruct (place_config (of_Z now) d i e) as (_ & _ & -> & _).
  - unfold fire. by destruct (timers e !! k).
  - unfold setEnabled. by destruct flag.
  - done.
  - by apply multiplier_speed_bounded.
  - done.
  - done.
Qed.

Lemma run_speed_bounded evs : ∀ e,
  Forall (λ ev, speeds_in_range ev = true) evs →
  speed_bounded (speed e) = true → speed_bounded (speed (run evs e)) = true.
Proof.
  induction evs as [|ev evs IH]; intros e Hevs He; [done|].
  apply Forall_cons in Hevs as [Hev Hevs].
  cbn [run]. apply IH; [done|]. by apply step_speed_bounded.
Qed.

(** C7 (amended). In every state reached from a new engine by events whose
    [setSpeed] multipliers all lie in the range of the configuration
    surface, 0.5 to 2.0, the speed is finite and strictly positive, so no
    duration is computed by a division by zero; a comment admitted there,
    whatever its measured width (zero included), gets a finite
    [totalDistance] and a finite duration, which is the delay of its recycle
    timer and the length of its lane reservation.  What keeps the speed
    positive is the multiplier the caller passes: for any multiplier from
    the range [setSpeed] yields such a speed, and it checks nothing. *)
Theorem positive_speed_finite_duration c evs :
  Forall (λ ev, speeds_in_range ev = true) evs →
  let e := run evs (newEngine c) in
  (is_finite (speed e) = true ∧ jgt (speed e) (of_Z 0) = true) ∧
  (∀ m e0, multiplier_in_range m = true →
     is_finite (speed (setSpeed m e0)) = true ∧
     jgt (speed (setSpeed m e0)) (of_Z 0) = true) ∧
  ∀ now d i, selected_track now e = Some i →
    is_finite (totalDistance_of d e) = true ∧
    is_finite (duration_of d e) = true ∧
    timers (add now d e) =
      timers e ++ [Timer (getDanmakuElement e).1 (duration_of d e)] ∧
    trackStatus (add now d e) !! i =
      Some (jadd (of_Z now) (duration_of d e)).
Proof.
  intros Hevs e.
  assert (Hspeed : speed_bounded (speed e) = true).
  { subst e. by apply run_speed_bounded. }
  split; [by apply speed_bounded_positive|]. split.
  { intros m e0 Hm. apply speed_bounded_positive.
    by apply multiplier_speed_bounded. }
  intros now d i Hsel.
  destruct (add_reserves now d e i Hsel) as (_ & _ & _ & Hnew & _).
  split; [exact (bounded_by_finite _ _ _ (totalDistance_bounded d e))|].
  split; [exact (bounded_by_finite _ _ _ (duration_bounded d e Hspeed))|].
  split; [|done].
  rewrite (add_admitted _ _ _ _ Hsel). apply place_timers.
Qed.

(** ** Pool growth *)

Lemma NoDup_range_length (l : list nat) n :
  NoDup l → (∀ i, i ∈ l → i < n) → length l ≤ n.
Proof.
  intros Hnd Hin. rewrite <- (length_seq n 0).
  apply submseteq_length, NoDup_submseteq; [done|].
  intros i Hi. apply elem_of_seq. specialize (Hin i Hi). lia.
Qed.

Lemma NoDup_full_length (l : list nat) n :
  NoDup l → (∀ i, i ∈ l ↔ i < n) → length l = n.
Proof.
  intros Hnd Hin. rewrite <- (length_seq n 0).
  apply Permutation_length, NoDup_Permutation; [done | apply NoDup_seq |].
  intros i. rewrite Hin, elem_of_seq. lia.
Qed.

Lemma elem_of_delete_NoDup (l : list nat) k x i :
  NoDup l → l !! k = Some x → i ∈ delete k l ↔ i ∈ l ∧ i ≠ x.
Proof.
  intros Hnd Hk. rewrite delete_take_drop.
  rewrite <- (take_drop_middle l k x Hk) in Hnd at 1.
  rewrite <- (take_drop_middle l k x Hk) at 3.
  apply NoDup_app in Hnd as (_ & Hl & Hr).
  apply NoDup_cons in Hr as (Hx & _).
  rewrite !elem_of_app, elem_of_cons. split.
  - intros [Hi | Hi]; (split; [tauto|]); intros ->.
    + by eapply Hl; [exact Hi | left].
    + done.
  - intros [[Hi | [-> | Hi]] Hne]; tauto.
Qed.

Lemma in_flight_bounded e :
  in_flight_visible e → inFlight e ≤ slotsCreated e.
Proof.
  intros [Hnd Hiff]. unfold inFlight, slotsCreated.
  rewrite <- (length_fmap timer_el). apply NoDup_range_length; [done|].
  intros i Hi. apply Hiff in Hi as (el & Hel & _). by eapply lookup_lt_Some.
Qed.

Lemma danmakuPool_newEngine c :
  danmakuPool (newEngine c) = replicate poolSize pool_element.
Proof.
  change (danmakuPool (newEngine c)) with (createPool_loop poolSize []).
  by rewrite createPool_loop_spec.
Qed.

Lemma in_flight_newEngine c : in_flight_visible (newEngine c).
Proof.
  split; [constructor|]. intros i. rewrite danmakuPool_newEngine.
  change (timers (newEngine c)) with (@nil timer). split.
  - intros Hi. by apply elem_of_nil in Hi.
  - intros (el & Hel & Hvis). exfalso. apply Hvis.
    apply lookup_replicate in Hel as [-> _]. done.
Qed.

Lemma slotsCreated_newEngine c : slotsCreated (newEngine c) = poolSize.
Proof.
  unfold slotsCreated. rewrite danmakuPool_newEngine.
  by rewrite length_replicate.
Qed.

Lemma render_visible d o cw top dur td el :
  style_display (render d o cw top dur td el) ≠ DisplayNone.
Proof.
  destruct (render_fields d o cw top dur td el) as (_ & _ & -> & _). done.
Qed.

(** An admission either reuses a hidden element or, when none is hidden,
    grows the pool by one; in the latter case every element is in flight. *)
Lemma place_in_flight now d i e :
  in_flight_visible e →
  in_flight_visible (place now d i e) ∧
  (slotsCreated (place now d i e) = slotsCreated e ∨
   slotsCreated (place now d i e) = S (slotsCreated e) ∧
   inFlight (place now d i e) = S (slotsCreated e)).
Proof.
  intros [Hnd Hiff].
  unfold in_flight_visible, slotsCreated, inFlight.
  rewrite place_timers, place_danmakuPool, fmap_app, length_app, length_alter.
  simpl. unfold getDanmakuElement.
  destruct (list_find _ _) as [[idx el]|] eqn:Hfind; simpl.
  - apply list_find_Some in Hfind as (Hel & Hhid & _).
    assert (Hfresh : idx ∉ timer_el <$> timers e).
    { intros Hin. apply Hiff in Hin as (el' & Hel' & Hvis). congruence. }
    split; [|by left]. split.
    + apply NoDup_app. split; [done|]. split; [|apply NoDup_singleton].
      intros x Hx Hx'. apply list_elem_of_singleton in Hx'. by subst.
    + intros j. rewrite elem_of_app, list_elem_of_singleton.
      destruct (decide (j = idx)) as [->|Hne].
      * rewrite list_lookup_alter_eq, Hel. simpl. split; [|tauto].
        intros _. eexists. split; [done|]. apply render_visible.
      * rewrite list_lookup_alter_ne by done. rewrite <- Hiff. tauto.
  - apply list_find_None in Hfind.
    set (n := length (danmakuPool e)).
    assert (Hall : ∀ j, j ∈ timer_el <$> timers e ↔ j < n).
    { intros j. rewrite Hiff. split.
      - intros (el & Hel & _). by eapply lookup_lt_Some.
      - intros Hj. destruct (lookup_lt_is_Some_2 _ _ Hj) as [el Hel].
        exists el. split; [done|].
        by eapply Forall_lookup_1 in Hfind. }
    assert (Hlen : length (timers e) = n).
    { rewrite <- (length_fmap timer_el). by apply NoDup_full_length. }
    split.
    + split.
      * apply NoDup_app. split; [done|]. split; [|apply NoDup_singleton].
        intros x Hx Hx'. apply list_elem_of_singleton in Hx'. subst x.
        apply Hall in Hx. lia.
      * intros j. rewrite elem_of_app, list_elem_of_singleton.
        destruct (decide (j = n)) as [->|Hne].
        -- rewrite list_lookup_alter_eq. subst n.
           rewrite list_lookup_middle by done. simpl. split; [|tauto].
           intros _. eexists. split; [done|]. apply render_visible.
        -- rewrite list_lookup_alter_ne by done.
           rewrite Hiff. split.
           ++ intros [(el & Hel & Hvis) | ?]; [|done].
              exists el. split; [|done]. by apply lookup_app_l_Some.
           ++ intros (el & Hel & Hvis). left. exists el. split; [|done].
              apply lookup_app_Some in Hel as [Hel | [Hge Hel]]; [done|].
              apply list_lookup_singleton_Some in Hel as [Hz _].
              subst n. lia.
    + right. rewrite length_app. simpl. lia.
Qed.

Lemma fire_in_flight k e :
  in_flight_visible e →
  in_flight_visible (fire k e) ∧ slotsCreated (fire k e) = slotsCreated e.
Proof.
  intros [Hnd Hiff]. unfold fire.
  destruct (timers e !! k) as [t|] eqn:Hk; [|done].
  unfold in_flight_visible, slotsCreated. simpl.
  rewrite length_alter, list_fmap_delete. split; [|done].
  assert (Hk' : (timer_el <$> timers e) !! k = Some (timer_el t)).
  { by rewrite list_lookup_fmap, Hk. }
  split.
  - eapply sublist_NoDup; [exact Hnd | apply sublist_delete].
  - intros i. rewrite (elem_of_delete_NoDup _ _ _ _ Hnd Hk'), Hiff.
    destruct (decide (i = timer_el t)) as [->|Hne].
    + split; [tauto|]. intros (el & Hel & Hvis).
      rewrite list_lookup_alter_eq in Hel.
      by destruct (danmakuPool e !! timer_el t); simplify_eq/=.
    + rewrite list_lookup_alter_ne by done. tauto.
Qed.

Lemma step_in_flight ev e :
  add_or_recycle ev = true → in_flight_visible e →
  in_flight_visible (step ev e) ∧
  (slotsCreated (step ev e) = slotsCreated e ∨
   slotsCreated (step ev e) = S (slotsCreated e) ∧
   inFlight (step ev e) = S (slotsCreated e)).
Proof.
  intros Hev Hinv. destruct ev as [now d|k| | | | | ]; try done; simpl.
  - unfold add. destruct (negb (enabled e)); [by split; [|left]|].
    destruct (findTrack _ _) as [i|]; [|by split; [|left]].
    by apply place_in_flight.
  - destruct (fire_in_flight k e Hinv) as [? ?]. split; [done|by left].
Qed.

Lemma peakInFlight_ge evs e : inFlight e ≤ peakInFlight evs e.
Proof. destruct evs; simpl; lia. Qed.

Lemma pool_growth evs : ∀ e,
  Forall (λ ev, add_or_recycle ev = true) evs →
  in_flight_visible e →
  slotsCreated (run evs e) = Nat.max (slotsCreated e) (peakInFlight evs e).
Proof.
  induction evs as [|ev evs IH]; intros e Hevs Hinv.
  - simpl. apply in_flight_bounded in Hinv. lia.
  - apply Forall_cons in Hevs as [Hev Hevs].
    destruct (step_in_flight ev e Hev Hinv) as [Hinv' Hslots].
    cbn [run peakInFlight]. rewrite (IH _ Hevs Hinv').
    pose proof (in_flight_bounded e Hinv).
    pose proof (peakInFlight_ge evs (step ev e)).
    destruct Hslots as [-> | [-> Hfull]]; lia.
Qed.

(** C8 (amended). Along any trace of [add] calls and recycle completions
    from a new engine, the number of elements ever created is the larger of
    the pre-allocated pool size (50) and the peak number of comments in
    flight at once; it does not grow with the number of comments. *)
Theorem pool_reuse_bound c evs :
  Forall (λ ev, add_or_recycle ev = true) evs →
  slotsCreated (run evs (newEngine c)) =
  Nat.max poolSize (peakInFlight evs (newEngine c)).
Proof.
  intros Hevs. rewrite <- (slotsCreated_newEngine c).
  apply pool_growth; [done|]. apply in_flight_newEngine.
Qed.

End Properties.

(** * The properties on sample runs *)


Lemma add_saturated_drops_witness :
  add (layout := sample_layout) 5000 plain_comment busy_one_lane =
  busy_one_lane.
Proof.
  apply (add_saturated_drops (layout := sample_layout)).
  intros i freeAt Hi Hlane. vm_compute in Hi.
  destruct i as [|i]; [|lia].
  vm_compute in Hlane. injection Hlane as <-. reflexivity.
Defined.

Lemma add_duration_formula_witness :
  trackStatus
    (add (layout := sample_layout) 0 plain_comment
       (newEngine one_lane_surface)) !! 0 =
  Some (jadd (of_Z 0)
          (jmul (jdiv (jadd (of_N 900) (of_N 100)) (of_Z 100)) (of_Z 1000))).
Proof.
  apply (add_duration_formula (layout := sample_layout) 0 plain_comment
           (newEngine one_lane_surface) 0).
  reflexivity.
Defined.

Lemma add_style_defaults_witness :
  ∃ el,
    danmakuPool
      (add (layout := sample_layout) 0 plain_comment
         (newEngine one_lane_surface)) !! 0 = Some el ∧
    style_color el = "#FFFFFF" ∧ style_fontSize el = Some (of_Z 24).
Proof.
  destruct (add_style_defaults (layout := sample_layout) 0 plain_comment
              (newEngine one_lane_surface) 0)
    as (el0 & el & _ & Hel & _ & Hcolor & _ & Hsize & _).
  - reflexivity.
  - exists el. split; [exact Hel|]. split.
    + apply Hcolor. left. reflexivity.
    + apply Hsize. left. reflexivity.
Defined.

Lemma recycle_idempotent_witness :
  recycleDanmakuElement pool_element = pool_element.
Proof.
  apply (recycle_idempotent pool_element).
  repeat split.
Defined.

Lemma setSpeed_frame_witness :
  timers
    (add (layout := sample_layout) 5000 plain_comment
       (setSpeed (of_Z 2) busy_first_lane)) =
  timers busy_first_lane ++
  [Timer (getDanmakuElement busy_first_lane).1
     (jmul (jdiv (totalDistance_of (layout := sample_layout) plain_comment
                    busy_first_lane)
              (jmul baseSpeed (of_Z 2)))
        (of_Z 1000))].
Proof.
  apply (setSpeed_frame (layout := sample_layout) (of_Z 2) busy_first_lane)
    with (i := 1).
  reflexivity.
Defined.

Lemma setEnabled_false_suppresses_witness :
  all_hidden
    (run (layout := sample_layout) late_recycles
       (setEnabled false three_in_flight)) ∧
  all_hidden
    (run (layout := sample_layout) reenabled_recycles
       (setEnabled false three_in_flight)).
Proof.
  destruct (setEnabled_false_suppresses (layout := sample_layout)
              three_in_flight) as (_ & _ & _ & _ & Hlater & Hquiet & _).
  split.
  - apply (Hlater late_recycles). repeat constructor; discriminate.
  - apply (Hquiet reenabled_recycles). reflexivity.
Defined.

Lemma lane_mutual_exclusion_witness :
  ∃ a c b, sample_log = [a; c; b] ∧ adm_track a = adm_track b ∧
           reservations_disjoint a b.
Proof.
  unfold sample_log. eexists _, _, _.
  split; [reflexivity|]. split; [reflexivity|].
  assert (Hkeeps : Forall (λ ev, keeps_reservations ev = true) sample_trace)
    by (repeat constructor).
  eapply (proj2 (lane_mutual_exclusion (layout := sample_layout) sample_trace
                   (newEngine three_lane_surface) Hkeeps)
            [] _ [_] _ []).
  - vm_compute. reflexivity.
  - reflexivity.
  - intros c Hc. apply list_elem_of_singleton in Hc. subst c.
    simpl. lia.
Defined.

Lemma positive_speed_finite_duration_witness :
  is_finite
    (duration_of (layout := sample_layout) empty_comment
       (run (layout := sample_layout) slider_trace
          (newEngine one_lane_surface))) = true.
Proof.
  assert (Hpos : Forall (λ ev, speeds_in_range ev = true) slider_trace)
    by (repeat constructor).
  destruct (positive_speed_finite_duration (layout := sample_layout)
              one_lane_surface slider_trace Hpos) as (_ & _ & Hfin).
  apply (Hfin 20000%Z empty_comment 0). reflexivity.
Defined.

Lemma pool_reuse_bound_witness :
  slotsCreated
    (run (layout := sample_layout) sample_trace
       (newEngine three_lane_surface)) =
  Nat.max poolSize
    (peakInFlight (layout := sample_layout) sample_trace
       (newEngine three_lane_surface)).
Proof.
  apply (pool_reuse_bound (layout := sample_layout)).
  repeat constructor.
Defined.

(** [setSpeed(0)] is accepted as it is: the speed becomes zero and the next
    comment gets an infinite duration, which blocks its lane for good. *)
Lemma setSpeed_zero_not_positive :
  jgt (speed stalled_engine) (of_Z 0) = false ∧
  selected_track 0 stalled_engine = Some 0 ∧
  is_finite (duration_of (layout := sample_layout) plain_comment
               stalled_engine) = false ∧
  trackStatus (add (layout := sample_layout) 0 plain_comment stalled_engine) =
    [S754_infinity false].
Proof. repeat split; reflexivity. Qed.

(** A size of [-5] is truthy, so [add] assigns it, but [font-size] takes no
    negative length: the element, reused from the comment shown before,
    still has that comment's 24 pixels. *)
Lemma add_negative_size_not_rendered :
  color negative_size_comment = Some "#FF0000" ∧
  font_size negative_size_comment = Some (of_Z (-5)) ∧
  number_truthy (of_Z (-5)) = true ∧
  selected_track 20000 reused_slot = Some 0 ∧
  ∃ el,
    danmakuPool
      (add (layout := sample_layout) 20000 negative_size_comment reused_slot)
      !! 0 = Some el ∧
    style_display el = DisplayBlock ∧ textContent el = "hi" ∧
    style_color el = "#FF0000" ∧
    style_fontSize el = Some (of_Z 24) ∧
    style_fontSize el ≠ Some (of_Z (-5)).
Proof.
  split; [reflexivity|]. split; [reflexivity|]. split; [reflexivity|].
  split; [reflexivity|]. eexists. split; [reflexivity|].
  split; [reflexivity|]. split; [reflexivity|]. split; [reflexivity|].
  split; [reflexivity|]. vm_compute. discriminate.
Qed.

(** A new engine already holds fifty elements, with one comment in flight
    at most. *)
Lemma pool_preallocated_not_peak :
  slotsCreated
    (run (layout := sample_layout) [EvAdd 0 plain_comment]
       (newEngine one_lane_surface)) = 50 ∧
  peakInFlight (layout := sample_layout) [EvAdd 0 plain_comment]
    (newEngine one_lane_surface) = 1 ∧
  slotsCreated
    (run (layout := sample_layout) [EvAdd 0 plain_comment]
       (newEngine one_lane_surface)) ≠
  peakInFlight (layout := sample_layout) [EvAdd 0 plain_comment]
    (newEngine one_lane_surface).
Proof.
  split; [reflexivity|]. split; [reflexivity|]. vm_compute. discriminate.
Qed.

(** ** Scenarios *)

(** Surface 900 pixels wide, speed 100, one lane, a comment 100 pixels wide:
    the lane is reserved for 10000 ms; a comment arriving at 5000 is dropped
    and one arriving at 10001 is admitted to the same lane. *)
Example one_lane_scenario :
  duration_of (layout := sample_layout) plain_comment
    (newEngine one_lane_surface) = of_Z 10000 ∧
  trackStatus busy_one_lane = [of_Z 10000] ∧
  selected_track 5000 busy_one_lane = None ∧
  add (layout := sample_layout) 5000 plain_comment busy_one_lane =
    busy_one_lane ∧
  selected_track 10001 busy_one_lane = Some 0 ∧
  trackStatus
    (add (layout := sample_layout) 10001 plain_comment busy_one_lane) =
    [of_Z 20001].
Proof. repeat split; reflexivity. Qed.

(** At speed 150 the same comment gets the duration binary64 arithmetic
    gives for [1000 / 150 * 1000], which is 6666.666666666667 (the mantissa
    below times [2^-40]) and not the rational 20000/3; added to a time of
    day, the sum is rounded once more. *)
Example duration_is_rounded :
  speed faster_engine = of_Z 150 ∧
  duration_of (layout := sample_layout) plain_comment faster_engine =
    S754_finite false 7330077518506667 (-40) ∧
  trackStatus
    (add (layout := sample_layout) 1762000000000 plain_comment faster_engine) =
    [S754_finite false 7217152027306667 (-12)].
Proof. repeat split; reflexivity. Qed.

(** A positive multiplier outside the range of the configuration surface
    is not enough for a finite duration: after [setSpeed(2^-1020)] the speed
    is positive and the duration overflows. *)
Example small_speed_overflows :
  jgt (speed crawling_engine) (of_Z 0) = true ∧
  is_finite (speed crawling_engine) = true ∧
  duration_of (layout := sample_layout) plain_comment crawling_engine =
    S754_infinity false.
Proof. repeat split; reflexivity. Qed.

(** Five comments one after the other on one lane reuse the same element:
    the pool stays at its fifty elements. *)
Example pool_reused_across_comments :
  slotsCreated
    (run (layout := sample_layout)
       [EvAdd 0 plain_comment; EvRecycle 0; EvAdd 10000 plain_comment;
        EvRecycle 0; EvAdd 20000 plain_comment; EvRecycle 0;
        EvAdd 30000 plain_comment; EvRecycle 0; EvAdd 40000 plain_comment]
       (newEngine one_lane_surface)) = 50.
Proof. reflexivity. Qed.

(** Fifty-one comments in flight at once on fifty-one lanes: the pool grows
    to fifty-one elements. *)
Example pool_grows_with_peak :
  numTracks (newEngine tall_surface) = 51 ∧
  inFlight (run (layout := sample_layout) (burst 51) (newEngine tall_surface))
    = 51 ∧
  slotsCreated
    (run (layout := sample_layout) (burst 51) (newEngine tall_surface)) = 51.
Proof. vm_compute. done. Qed.

(** With no width and no distance to travel, [setSpeed(0)] makes the
    duration [NaN]; the lane is then never available again. *)
Example zero_speed_zero_distance :
  duration_of (layout := sample_layout) empty_comment
    (setSpeed (of_Z 0)
       (newEngine {| clientHeight := to_long 35; clientWidth := to_long 0 |}))
    = S754_nan ∧
  ∀ now, track_available (of_Z now) [S754_nan] 0 = false.
Proof.
  split; [reflexivity|]. intros now. unfold track_available. simpl.
  unfold jge, SFleb. by destruct (of_Z now).
Qed.

(** * Further properties of the engine *)

Section EngineProperties.

Context {layout : Layout}.

(** ** Lane geometry *)

(** X1. [calculateTracks] derives as many lanes as fit whole into the
    surface height (each takes [trackHeight + trackGap] pixels), gives the
    lane table exactly one entry per lane, all of them [0], and touches
    nothing but the lane count and the lane table. *)
Theorem calculateTracks_geometry e :
  let e' := calculateTracks e in
  let h := Z.of_N (clientHeight (surface e)) in
  (Z.of_nat (numTracks e') * (trackHeight + trackGap) ≤ h
   < (Z.of_nat (numTracks e') + 1) * (trackHeight + trackGap))%Z ∧
  length (trackStatus e') = numTracks e' ∧
  (∀ i, i < numTracks e' → trackStatus e' !! i = Some (of_Z 0)) ∧
  danmakuPool e' = danmakuPool e ∧ timers e' = timers e ∧
  speed e' = speed e ∧ opacity e' = opacity e ∧ enabled e' = enabled e ∧
  surface e' = surface e.
Proof.
  intros e' h. split; [|split; [|split; [|done]]].
  - subst e'. unfold calculateTracks. cbn [numTracks set_tracks]. fold h.
    assert (0 ≤ h)%Z by (subst h; lia).
    unfold trackHeight, trackGap. change (30 + 5)%Z with 35%Z.
    rewrite Z2Nat.id by (apply Z.div_pos; lia).
    pose proof (Z.mul_div_le h 35 ltac:(lia)).
    pose proof (Z.mul_succ_div_gt h 35 ltac:(lia)). lia.
  - subst e'. unfold calculateTracks, fresh_tracks. simpl.
    apply length_replicate.
  - intros i Hi. subst e'. unfold calculateTracks in *. simpl in *.
    by apply fresh_tracks_lookup.
Qed.

Lemma lanes_consistent_calculateTracks e :
  lanes_consistent (calculateTracks e).
Proof.
  split; [|done]. unfold calculateTracks, fresh_tracks. simpl.
  apply length_replicate.
Qed.

Lemma lanes_consistent_step ev e :
  lanes_consistent e → lanes_consistent (step ev e).
Proof.
  intros [Hlen Hn]. destruct ev as [now d|k|flag|o|m| |c]; simpl.
  - unfold add. destruct (negb (enabled e)); [done|].
    destruct (findTrack _ _) as [i|]; [|done].
    destruct (place_config (of_Z now) d i e) as (Hs & Hnum & _).
    split.
    + by rewrite place_trackStatus, length_insert, Hnum.
    + by rewrite Hnum, Hs.
  - unfold fire. by destruct (timers e !! k).
  - destruct flag; [done|]. split; [|done]. simpl.
    unfold fresh_tracks. apply length_replicate.
  - done.
  - done.
  - split; [|done]. simpl. unfold fresh_tracks. apply length_replicate.
  - apply lanes_consistent_calculateTracks.
Qed.

Lemma lanes_consistent_run evs : ∀ e,
  lanes_consistent e → lanes_consistent (run evs e).
Proof.
  induction evs as [|ev evs IH]; intros e He; [done|].
  simpl. apply IH. by apply lanes_consistent_step.
Qed.

Lemma lanes_consistent_newEngine c : lanes_consistent (newEngine c).
Proof. split; [|done]. simpl. unfold fresh_tracks. apply length_replicate. Qed.

(** X2. In every state reached from a new engine, whatever the calls and
    callbacks, the lane table has exactly [numTracks] entries: the scan of
    [add] never reads past its end, and every lane below [numTracks] has a
    [trackStatus] entry. *)
Theorem reachable_lane_table c evs :
  let e := run evs (newEngine c) in
  length (trackStatus e) = numTracks e ∧
  (∀ i, i < numTracks e → is_Some (trackStatus e !! i)) ∧
  (∀ now i, i < numTracks e →
     track_available now (trackStatus e) i = true ↔
     ∃ freeAt, trackStatus e !! i = Some freeAt ∧ jge now freeAt = true).
Proof.
  intros e.
  destruct (lanes_consistent_run evs _ (lanes_consistent_newEngine c))
    as [Hlen _]. fold e in Hlen.
  split; [done|]. split.
  - intros i Hi. apply lookup_lt_is_Some. lia.
  - intros now i Hi. unfold track_available.
    destruct (trackStatus e !! i) as [v|] eqn:Hv.
    + split; [eauto|]. by intros (v' & [= <-] & Hge).
    + apply lookup_ge_None in Hv. lia.
Qed.

Lemma long_lt (n : long) : (Z.of_N n < 2147483648)%Z.
Proof.
  destruct n as [v Hv]. simpl. apply N.ltb_lt in Hv.
  change (2 ^ 31)%N with 2147483648%N in Hv. lia.
Qed.

(** The vertical offset of a lane on a DOM surface is computed exactly. *)
Lemma top_of_exact i :
  (Z.of_nat i * (trackHeight + trackGap) < 2147483648)%Z →
  top_of i = of_Z (Z.of_nat i * (trackHeight + trackGap)) ∧
  css_number (top_of i) = true.
Proof.
  unfold trackHeight, trackGap. change (30 + 5)%Z with 35%Z. intros Hi.
  assert (Heq : top_of i = of_Z (Z.of_nat i * 35)).
  { unfold top_of, of_nat, trackHeight, trackGap. change (30 + 5)%Z with 35%Z.
    apply jmul_of_Z; change (2 ^ 53)%Z with 9007199254740992%Z; lia. }
  split; [done|]. rewrite Heq. unfold css_number.
  apply (bounded_by_finite false 32), (of_Z_bounded _ 31); [lia| |lia].
  apply Zdigits2_lt_pow2; [lia | lia |].
  change (2 ^ 31)%Z with 2147483648%Z. lia.
Qed.

(** X3. In every state reached from a new engine, an admitted comment is
    shown ([display] is ['block']) at the right edge of the surface
    ([left = clientWidth]) and in its lane ([top = lane * 35], a product
    binary64 computes exactly), and the lane lies inside the surface:
    [top + trackHeight] does not exceed the height the lanes were computed
    for. *)
Theorem admitted_comment_inside_surface c evs now d i :
  let e := run evs (newEngine c) in
  selected_track now e = Some i →
  ∃ el, danmakuPool (add now d e) !! (getDanmakuElement e).1 = Some el ∧
        style_display el = DisplayBlock ∧
        style_left el = Some (of_N (clientWidth (surface e))) ∧
        style_top el =
          Some (of_Z (Z.of_nat i * (trackHeight + trackGap))) ∧
        (Z.of_nat i * (trackHeight + trackGap) + trackHeight
         ≤ Z.of_N (clientHeight (surface e)))%Z.
Proof.
  intros e Hsel.
  destruct (lanes_consistent_run evs _ (lanes_consistent_newEngine c))
    as [_ Hn]. fold e in Hn.
  assert (Hfit : (Z.of_nat i * (trackHeight + trackGap) + trackHeight
                  ≤ Z.of_N (clientHeight (surface e)))%Z).
  { apply selected_track_spec in Hsel as (_ & Hlt & _).
    rewrite Hn in Hlt. unfold trackHeight, trackGap in *.
    change (30 + 5)%Z with 35%Z in *.
    set (h := Z.of_N (clientHeight (surface e))) in *.
    assert (0 ≤ h)%Z by (subst h; lia).
    pose proof (Z.mul_div_le h 35 ltac:(lia)).
    assert (Z.of_nat i < h / 35)%Z.
    { apply Z2Nat.inj_lt; [lia | apply Z.div_pos; lia |].
      by rewrite Nat2Z.id. }
    lia. }
  pose proof (long_lt (clientHeight (surface e))) as Hh.
  destruct (top_of_exact i) as [Htop Htopv].
  { unfold trackHeight, trackGap in Hfit |- *. lia. }
  rewrite (add_admitted _ _ _ _ Hsel).
  destruct (place_element (of_Z now) d i e) as (el0 & _ & Hel).
  eexists. split; [exact Hel|].
  destruct (render_fields d (opacity e) (of_N (clientWidth (surface e)))
              (top_of i) (duration_of d e) (totalDistance_of d e) el0)
    as (_ & _ & Hd & _ & _ & _ & Htopf & Hleft & _).
  rewrite Hd, Htopf, Hleft, Htopv, Htop.
  unfold css_number.
  by rewrite (bounded_by_finite _ _ _ (of_N_long_bounded (clientWidth (surface e)))).
Qed.

(** ** Element pool *)

Lemma getDanmakuElement_cases e :
  let idx := (getDanmakuElement e).1 in
  let e1 := (getDanmakuElement e).2 in
  (∀ j el, j < idx → danmakuPool e !! j = Some el →
           style_display el ≠ DisplayNone) ∧
  ((∃ el, danmakuPool e !! idx = Some el ∧
          style_display el = DisplayNone ∧ e1 = e) ∨
   (idx = length (danmakuPool e) ∧
    (∀ el, el ∈ danmakuPool e → style_display el ≠ DisplayNone) ∧
    ∃ el, danmakuPool e1 = danmakuPool e ++ [el] ∧
          className el = "danmaku" ∧ style_display el = DisplayUnset ∧
          textContent el = "")).
Proof.
  unfold getDanmakuElement.
  destruct (list_find _ _) as [[idx el]|] eqn:Hfind; simpl.
  - apply list_find_Some in Hfind as (Hel & Hhid & Hlow). split.
    + intros j el' Hj Hel'. by eapply Hlow.
    + left. eauto.
  - apply list_find_None in Hfind. split.
    + intros j el Hj Hel. by eapply Forall_lookup_1 in Hfind.
    + right. split; [done|]. split.
      * intros el Hel. by eapply Forall_forall in Hfind.
      * eexists. split; [done|]. done.
Qed.

(** X4. [getDanmakuElement] returns the lowest-index hidden element and
    leaves the pool as it is; only when no element is hidden does it append
    one new element (class ['danmaku'], display not yet set) and return
    that.  No element below the returned index is hidden. *)
Theorem getDanmakuElement_first_hidden e :
  let idx := (getDanmakuElement e).1 in
  let e1 := (getDanmakuElement e).2 in
  (∀ j el, j < idx → danmakuPool e !! j = Some el →
           style_display el ≠ DisplayNone) ∧
  ((∃ el, danmakuPool e !! idx = Some el ∧
          style_display el = DisplayNone ∧ e1 = e) ∨
   (idx = length (danmakuPool e) ∧
    (∀ el, el ∈ danmakuPool e → style_display el ≠ DisplayNone) ∧
    ∃ el, danmakuPool e1 = danmakuPool e ++ [el] ∧
          className el = "danmaku" ∧ style_display el = DisplayUnset ∧
          textContent el = "")).
Proof. exact (getDanmakuElement_cases e). Qed.


Lemma step_slotsCreated ev e :
  slotsCreated e ≤ slotsCreated (step ev e) ∧
  slotsCreated (step ev e) ≤ count_adds [ev] + slotsCreated e.
Proof.
  unfold slotsCreated.
  destruct ev as [now d|k|flag|o|m| |c]; simpl.
  - unfold add. destruct (negb (enabled e)); [lia|].
    destruct (findTrack _ _) as [i|]; [|lia].
    rewrite place_danmakuPool, length_alter.
    unfold getDanmakuElement. destruct (list_find _ _) as [[idx el]|]; simpl.
    + lia.
    + rewrite length_app. simpl. lia.
  - unfold fire. destruct (timers e !! k); simpl; [|lia].
    rewrite length_alter. lia.
  - unfold setEnabled, hide_all. destruct flag; simpl; [lia|].
    rewrite length_fmap. lia.
  - rewrite length_fmap. lia.
  - lia.
  - unfold hide_all. rewrite length_fmap. lia.
  - lia.
Qed.

Lemma run_slotsCreated evs : ∀ e, slotsCreated e ≤ slotsCreated (run evs e).
Proof.
  induction evs as [|ev evs IH]; intros e; [done|].
  cbn [run]. specialize (IH (step ev e)).
  destruct (step_slotsCreated ev e) as [Hlo _]. lia.
Qed.

(** X6. The pool never shrinks and grows only through [add], one element at
    a time: whatever the state, an event leaves the number of elements as it
    is or, if it is an [add], may raise it by one; so from any state onwards
    the pool never gets smaller.  After any trace from a new engine it
    holds at least the fifty pre-allocated elements and at most fifty plus
    the number of [add] calls. *)
Theorem pool_never_shrinks c evs :
  (∀ e ev, slotsCreated e ≤ slotsCreated (step ev e) ∧
           slotsCreated (step ev e) ≤ S (slotsCreated e) ∧
           ((∀ now d, ev ≠ EvAdd now d) →
            slotsCreated (step ev e) = slotsCreated e)) ∧
  (∀ e evs', slotsCreated e ≤ slotsCreated (run evs' e)) ∧
  poolSize ≤ slotsCreated (run evs (newEngine c)) ∧
  slotsCreated (run evs (newEngine c)) ≤ poolSize + count_adds evs.
Proof.
  split; [|split; [intros e evs'; apply run_slotsCreated|]].
  - intros e ev. destruct (step_slotsCreated ev e) as [Hlo Hhi].
    split; [done|]. split.
    + destruct ev; cbn [count_adds] in Hhi; lia.
    + intros Hev.
      destruct ev as [now d| | | | | | ]; cbn [count_adds] in Hhi; try lia.
      by destruct (Hev now d).
  - rewrite <- (slotsCreated_newEngine c).
    generalize (newEngine c). induction evs as [|ev evs IH]; intros e.
    + simpl. lia.
    + cbn [run]. destruct (IH (step ev e)) as [Hlo Hhi].
      destruct (step_slotsCreated ev e) as [Hlo' Hhi'].
      assert (count_adds (ev :: evs) = count_adds [ev] + count_adds evs)
        by (by destruct ev).
      lia.
Qed.

(** ** Opacity *)

Lemma opacity_applied_step ev e :
  finite_opacities ev = true → is_finite (opacity e) = true →
  opacity_applied e →
  is_finite (opacity (step ev e)) = true ∧ opacity_applied (step ev e).
Proof.
  unfold opacity_applied. intros Hev Hfin Hinv.
  destruct ev as [now d|k|flag|o|m| |c]; simpl.
  - unfold add. destruct (negb (enabled e)); [done|].
    destruct (findTrack _ _) as [i|]; [|done].
    destruct (place_config (of_Z now) d i e) as (_ & _ & _ & -> & _).
    split; [done|].
    rewrite place_danmakuPool.
    set (r := render d (opacity e) (of_N (clientWidth (surface e)))
                (top_of i) (duration_of d e) (totalDistance_of d e)).
    intros el Hel Hblock.
    apply list_elem_of_lookup in Hel as [j Hj].
    destruct (decide (j = (getDanmakuElement e).1)) as [->|Hne].
    + rewrite list_lookup_alter_eq in Hj.
      destruct (danmakuPool (getDanmakuElement e).2 !! _) as [el0|];
        [|done].
      injection Hj as <-. subst r.
      destruct (render_fields d (opacity e) (of_N (clientWidth (surface e)))
                  (top_of i) (duration_of d e) (totalDistance_of d e) el0)
        as (_ & _ & _ & _ & _ & -> & _).
      unfold css_number. by rewrite Hfin.
    + rewrite list_lookup_alter_ne in Hj by done.
      revert Hj. unfold getDanmakuElement.
      destruct (list_find _ _) as [[idx el']|]; simpl; intros Hj.
      * apply Hinv; [|done]. by eapply list_elem_of_lookup_2.
      * apply lookup_app_Some in Hj as [Hj | [_ Hj]].
        -- apply Hinv; [|done]. by eapply list_elem_of_lookup_2.
        -- apply list_lookup_singleton_Some in Hj as [_ <-]. done.
  - unfold fire. destruct (timers e !! k) as [t|]; [|done]. simpl.
    split; [done|]. intros el Hel Hblock.
    apply list_elem_of_lookup in Hel as [j Hj].
    destruct (decide (j = timer_el t)) as [->|Hne].
    + rewrite list_lookup_alter_eq in Hj.
      by destruct (danmakuPool e !! _); simplify_eq/=.
    + rewrite list_lookup_alter_ne in Hj by done.
      apply Hinv; [|done]. by eapply list_elem_of_lookup_2.
  - destruct flag; [done|]. simpl. split; [done|]. intros el Hel Hblock.
    apply list_elem_of_fmap in Hel as (el0 & -> & _). done.
  - split; [done|]. intros el Hel _.
    apply list_elem_of_fmap in Hel as (el0 & -> & _).
    unfold assign_opacity, css_number. simpl in Hev. by rewrite Hev.
  - done.
  - split; [done|]. intros el Hel Hblock.
    apply list_elem_of_fmap in Hel as (el0 & -> & _). done.
  - done.
Qed.

(** X7. In every state reached from a new engine by events whose
    [setOpacity] values are all finite numbers, every comment on display has
    the engine's current opacity, whether it was admitted before or after
    the last [setOpacity]; and [setOpacity] with a finite value writes it to
    every element of the pool, hidden or not.  A value that is not finite
    ([NaN], an infinity) is stored in the engine but is no CSS number: the
    assignment to each element is dropped and the pool stays as it was. *)
Theorem displayed_opacity_current c evs :
  Forall (λ ev, finite_opacities ev = true) evs →
  let e := run evs (newEngine c) in
  is_finite (opacity e) = true ∧ opacity_applied e ∧
  (∀ o el, is_finite o = true → el ∈ danmakuPool (setOpacity o e) →
           style_opacity el = Some o) ∧
  (∀ o, is_finite o = false →
        danmakuPool (setOpacity o e) = danmakuPool e ∧
        opacity (setOpacity o e) = o).
Proof.
  intros Hevs e.
  assert (Hinv : is_finite (opacity e) = true ∧ opacity_applied e).
  { subst e.
    assert (Hinit : is_finite (opacity (newEngine c)) = true ∧
                    opacity_applied (newEngine c)).
    { split; [done|]. intros el Hel Hblock.
      rewrite danmakuPool_newEngine in Hel.
      apply elem_of_replicate in Hel as [-> _]. done. }
    revert Hinit. generalize (newEngine c).
    induction Hevs as [|ev evs Hev _ IH]; intros e0 He0; [done|].
    cbn [run]. apply IH. destruct He0. by apply opacity_applied_step. }
  destruct Hinv as [Hfin Happ]. split; [done|]. split; [done|]. split.
  - intros o el Ho Hel. simpl in Hel.
    apply list_elem_of_fmap in Hel as (el0 & -> & _).
    unfold assign_opacity, css_number. by rewrite Ho.
  - intros o Ho. split; [|done]. simpl.
    rewrite <- (list_fmap_id (danmakuPool e)) at 2.
    apply list_fmap_ext. intros j el _.
    unfold assign_opacity, css_number. by rewrite Ho.
Qed.

(** ** Clearing *)

Lemma selected_track_fresh now e :
  enabled e = true → 0 < numTracks e →
  trackStatus e = fresh_tracks (numTracks e) → (0 ≤ now)%Z →
  selected_track now e = Some 0.
Proof.
  intros Hen Hn Hts Hnow. unfold selected_track, findTrack.
  rewrite Hen, Hts. cbn [negb].
  destruct (numTracks e) as [|n]; [lia|]. cbn [scanTracks].
  unfold track_available. rewrite fresh_tracks_lookup by lia.
  by rewrite (of_Z_nonneg_ge now Hnow).
Qed.

Lemma getDanmakuElement_head_hidden e el rest :
  danmakuPool e = el :: rest → style_display el = DisplayNone →
  getDanmakuElement e = (0, e).
Proof.
  intros Hpool Hhid. unfold getDanmakuElement. rewrite Hpool.
  cbn [list_find]. by rewrite decide_True.
Qed.

Lemma hide_all_idemp pool : hide_all (hide_all pool) = hide_all pool.
Proof.
  unfold hide_all. rewrite <- list_fmap_compose.
  apply list_fmap_ext. by intros i [].
Qed.

(** X8. [clear()] hides every element but, unlike recycling, keeps its text
    and transform; it resets every lane to [0]; it does not cancel the
    pending recycle callbacks and leaves the configuration alone.  Clearing
    twice is clearing once, and [setEnabled(false)] is [clear()] on an
    engine whose flag is off. *)
Theorem clear_hides_and_resets e :
  all_hidden (clear e) ∧
  (∀ i el, danmakuPool e !! i = Some el →
           danmakuPool (clear e) !! i = Some (set_display DisplayNone el)) ∧
  trackStatus (clear e) = replicate (numTracks e) (of_Z 0) ∧
  timers (clear e) = timers e ∧
  (numTracks (clear e) = numTracks e ∧ speed (clear e) = speed e ∧
   opacity (clear e) = opacity e ∧ enabled (clear e) = enabled e ∧
   surface (clear e) = surface e) ∧
  clear (clear e) = clear e ∧
  setEnabled false e = clear (set_enabled false e).
Proof.
  split; [|split; [|split; [done|split; [done|split; [done|split]]]]].
  - apply all_hidden_Forall. apply hide_all_hidden.
  - intros i el Hel. simpl. unfold hide_all.
    by rewrite list_lookup_fmap, Hel.
  - unfold clear. simpl. by rewrite hide_all_idemp.
  - done.
Qed.

(** X9. [clear()] leaves the recycle callbacks of the comments it hid
    pending.  If the first pool element (the one a following [add] reuses)
    still has such a callback, a comment admitted after the [clear] is shown
    in that element, and when the old callback fires the new comment is
    hidden and emptied at once, although its lane stays reserved for its
    full duration and its own callback is still pending. *)
Theorem clear_leaves_stale_callback e k t now d :
  timers e !! k = Some t → timer_el t = 0 →
  danmakuPool e ≠ [] → enabled e = true → 0 < numTracks e → (0 ≤ now)%Z →
  let e1 := add now d (clear e) in
  let e2 := fire k e1 in
  (∃ el, danmakuPool e1 !! 0 = Some el ∧ style_display el = DisplayBlock ∧
         textContent el = content d) ∧
  (∃ el, danmakuPool e2 !! 0 = Some el ∧ style_display el = DisplayNone ∧
         textContent el = "" ∧ style_transform el = None) ∧
  trackStatus e2 !! 0 = Some (jadd (of_Z now) (duration_of d e)) ∧
  Timer 0 (duration_of d e) ∈ timers e2.
Proof.
  intros Hk Ht Hpool Hen Hn Hnow e1 e2.
  destruct (danmakuPool e) as [|el0 rest] eqn:Hp; [done|].
  assert (Hsel : selected_track now (clear e) = Some 0).
  { by apply selected_track_fresh. }
  assert (Hget : getDanmakuElement (clear e) = (0, clear e)).
  { eapply getDanmakuElement_head_hidden;
      [simpl; rewrite Hp; reflexivity | reflexivity]. }
  assert (He1 : e1 = place (of_Z now) d 0 (clear e)).
  { subst e1. by apply add_admitted. }
  assert (Hpool1 : ∃ el, danmakuPool e1 !! 0 = Some el ∧
            style_display el = DisplayBlock ∧ textContent el = content d).
  { destruct (place_element_shown (of_Z now) d 0 (clear e))
      as (el & Hel & Hshown).
    rewrite Hget in Hel. rewrite He1. eauto. }
  assert (Htimers1 : timers e1 = timers e ++ [Timer 0 (duration_of d e)]).
  { rewrite He1, place_timers, Hget. done. }
  assert (Hk1 : timers e1 !! k = Some t).
  { rewrite Htimers1. by apply lookup_app_l_Some. }
  assert (Hlen : k < length (timers e)) by (by eapply lookup_lt_Some).
  split; [done|]. subst e2. unfold fire. rewrite Hk1, Ht. simpl.
  split; [|split].
  - destruct Hpool1 as (el & Hel & _).
    rewrite list_lookup_alter_eq, Hel. simpl. eauto.
  - rewrite He1, place_trackStatus.
    apply list_lookup_insert_eq. simpl. unfold fresh_tracks.
    rewrite length_replicate. lia.
  - rewrite Htimers1.
    apply (list_elem_of_lookup_2 _ (length (timers e) - 1)).
    rewrite list_lookup_delete_ge by lia.
    replace (S (length (timers e) - 1)) with (length (timers e)) by lia.
    by apply list_lookup_middle.
Qed.

(** ** The global API *)

(** X10. On a page that has the layer (at least one lane high) but no
    engine yet, the first [addDanmaku] creates the engine and admits the
    comment at once, on lane 0 and in the first pool element.  Settings made
    through [setDanmakuOpacity], [setDanmakuEnabled] and [setDanmakuSpeed]
    before that call are lost: the engine runs enabled at speed 100 and
    opacity 1. *)
Theorem addDanmaku_creates_engine c now d o flag m :
  (35 ≤ clientHeight c)%N → (0 ≤ now)%Z →
  let pg0 := Page (Some c) None in
  let pg :=
    addDanmaku now d
      (setDanmakuSpeed m (setDanmakuEnabled flag (setDanmakuOpacity o pg0))) in
  ∃ e, danmakuEngine pg = Some e ∧ e = add now d (newEngine c) ∧
       enabled e = true ∧ speed e = of_Z 100 ∧ opacity e = of_Z 1 ∧
       trackStatus e !! 0 =
         Some (jadd (of_Z now) (duration_of d (newEngine c))) ∧
       timers e = [Timer 0 (duration_of d (newEngine c))] ∧
       ∃ el, danmakuPool e !! 0 = Some el ∧
             style_display el = DisplayBlock ∧ textContent el = content d ∧
             style_opacity el = Some (of_Z 1).
Proof.
  intros Hh Hnow pg0 pg. exists (add now d (newEngine c)).
  split; [done|]. split; [done|].
  assert (Hn : 0 < numTracks (newEngine c)).
  { change (numTracks (newEngine c))
      with (Z.to_nat (Z.of_N (clientHeight c) / (trackHeight + trackGap))).
    unfold trackHeight, trackGap. change (30 + 5)%Z with 35%Z.
    assert (1 ≤ Z.of_N (clientHeight c) / 35)%Z; [|lia].
    apply Z.div_le_lower_bound; lia. }
  assert (Hsel : selected_track now (newEngine c) = Some 0).
  { by apply selected_track_fresh. }
  assert (Hget : getDanmakuElement (newEngine c) = (0, newEngine c)).
  { eapply getDanmakuElement_head_hidden;
      [rewrite danmakuPool_newEngine; reflexivity | reflexivity]. }
  rewrite (add_admitted _ _ _ _ Hsel).
  destruct (place_config (of_Z now) d 0 (newEngine c))
    as (_ & _ & Hsp & Hop & Hen).
  split; [by rewrite Hen|]. split; [by rewrite Hsp|]. split; [by rewrite Hop|].
  split; [|split].
  - rewrite place_trackStatus. apply list_lookup_insert_eq.
    destruct (lanes_consistent_newEngine c) as [-> _]. done.
  - by rewrite place_timers, Hget.
  - destruct (place_element (of_Z now) d 0 (newEngine c)) as (el0 & _ & Hel).
    rewrite Hget in Hel. eexists. split; [exact Hel|].
    by destruct (render_fields d (opacity (newEngine c))
                   (of_N (clientWidth (surface (newEngine c)))) (top_of 0)
                   (duration_of d (newEngine c))
                   (totalDistance_of d (newEngine c)) el0)
      as (_ & -> & -> & _ & _ & -> & _).
Qed.

End EngineProperties.

(** * Properties of the WebSocket client *)

Section ClientProperties.

Import Client.

Context {layout : Layout} {strings : StringOps}.

(** ** Sending *)

Lemma open_socket_Some c s :
  open_socket c = Some s ↔
  ws c = Some s ∧ ∃ sock, sockets c !! s = Some sock ∧ readyState sock = OPEN.
Proof.
  unfold open_socket. destruct (ws c) as [s'|].
  - destruct (sockets c !! s') as [sock|] eqn:Hs.
    + destruct (decide (readyState sock = OPEN)) as [Hrs|Hrs]; split.
      * intros [= <-]. eauto.
      * by intros ([= <-] & _).
      * done.
      * intros ([= <-] & sock' & Hs' & Hrs'). congruence.
    + split; [done|]. intros ([= <-] & sock' & Hs' & _). congruence.
  - split; [done|]. by intros [? _].
Qed.

(** X11. [sendDanmaku] hands a message to the socket exactly when the
    client is authenticated, the trimmed text is not empty and the current
    socket is open; the message carries the trimmed text, and ['#FFFFFF'] and
    [24] where colour or size were left out.  In every other case it returns
    false and changes nothing.  The send button empties the input box
    exactly when the message was handed over. *)
Theorem sendDanmaku_outcome text colour fontSize c :
  let r := sendDanmaku text colour fontSize c in
  (r.1 = true ↔
   isAuthenticated c = true ∧ trim text ≠ "" ∧ is_Some (open_socket c)) ∧
  (r.1 = false → r.2 = c) ∧
  (r.1 = true →
   ∃ s sock, ws c = Some s ∧ sockets c !! s = Some sock ∧
     readyState sock = OPEN ∧
     r.2 = set_sockets
             (<[s := Socket OPEN
                       (sent sock ++
                        [DanmakuMessage (trim text)
                           (default "#FFFFFF" colour)
                           (default (of_Z 24) fontSize)])]> (sockets c)) c) ∧
  (∀ col fs, (clickSend text col fs c).1 =
             if (sendDanmaku text (Some col) (Some fs) c).1 then ""
             else text).
Proof.
  intros r. subst r.
  split; [|split; [|split]].
  - unfold sendDanmaku, send.
    destruct (isAuthenticated c); cbn [negb];
      [|split; [done | by intros [? _]]].
    destruct (bool_decide (trim text = "")) eqn:Htrim.
    { apply bool_decide_eq_true in Htrim.
      split; [done | by intros (_ & ? & _)]. }
    apply bool_decide_eq_false in Htrim.
    destruct (open_socket c) as [s|]; cbn [fst].
    + split; [eauto | done].
    + split; [done | by intros (_ & _ & [? ?])].
  - unfold sendDanmaku, send.
    destruct (isAuthenticated c); cbn [negb]; [|done].
    destruct (bool_decide (trim text = "")); [done|].
    by destruct (open_socket c).
  - unfold sendDanmaku, send.
    destruct (isAuthenticated c); cbn [negb]; [|done].
    destruct (bool_decide (trim text = "")); [done|].
    destruct (open_socket c) as [s|] eqn:Hopen; cbn [fst snd]; [|done].
    intros _. apply open_socket_Some in Hopen as (Hws & sock & Hsock & Hrs).
    exists s, sock. split; [done|]. split; [done|]. split; [done|].
    unfold socket_send. f_equal.
    apply list_eq. intros j. destruct (decide (j = s)) as [->|Hne].
    + rewrite list_lookup_alter_eq, Hsock.
      rewrite list_lookup_insert_eq by (by eapply lookup_lt_Some).
      simpl. by rewrite Hrs.
    + by rewrite list_lookup_alter_ne, list_lookup_insert_ne.
  - intros col fs. unfold clickSend.
    by destruct (sendDanmaku text (Some col) (Some fs) c) as [[|] c'].
Qed.

(** ** Incoming messages *)

Lemma addDanmaku_with_engine now d pg e :
  danmakuEngine pg = Some e →
  addDanmaku now d pg = Page (danmakuLayer pg) (Some (add now d e)).
Proof.
  destruct pg as [l oe]. simpl. intros ->. unfold addDanmaku. simpl.
  by destruct l.
Qed.

Lemma rendered_element now d e i :
  selected_track now e = Some i →
  ∃ el0 el,
    danmakuPool (getDanmakuElement e).2 !! (getDanmakuElement e).1 = Some el0 ∧
    danmakuPool (add now d e) !! (getDanmakuElement e).1 = Some el ∧
    style_display el = DisplayBlock ∧
    textContent el = content d ∧
    style_color el =
      (if css_color (color_or_default d) then color_or_default d
       else style_color el0) ∧
    style_fontSize el =
      (if css_nonnegative (font_size_or_default d)
       then Some (font_size_or_default d) else style_fontSize el0).
Proof.
  intros Hsel. rewrite (add_admitted _ _ _ _ Hsel).
  destruct (place_element (of_Z now) d i e) as (el0 & Hel0 & Hel).
  exists el0. eexists. split; [exact Hel0|]. split; [exact Hel|].
  by destruct (render_fields d (opacity e) (of_N (clientWidth (surface e)))
                 (top_of i) (duration_of d e) (totalDistance_of d e) el0)
    as (_ & -> & -> & -> & -> & _).
Qed.

(** X12. A [system] message is passed to the engine as a grey
    (['#888888']) comment of size 16, and a [danmaku] message with the
    sender's text, colour and size, the engine's defaults filling in for a
    missing colour or size; if a lane is free the comment is on display
    right after [handleMessage].  The sender's colour and size take effect
    when they are valid CSS; an empty colour or falsy size aside, a value
    that is not leaves the element with the colour or size it had before.
    Neither message changes the client.  Messages of any type other than
    [auth_success], [danmaku], [system] and [heartbeat], and payloads that
    do not parse, change nothing at all. *)
Theorem incoming_messages_rendered now m c pg e i :
  danmakuEngine pg = Some e → selected_track now e = Some i →
  (msg_type m = "system" →
   ∃ e' el, handleMessage now m (c, pg) =
              (c, Page (danmakuLayer pg) (Some e')) ∧
            danmakuPool e' !! (getDanmakuElement e).1 = Some el ∧
            style_display el = DisplayBlock ∧
            textContent el = default "" (msg_message m) ∧
            style_color el = "#888888" ∧
            style_fontSize el = Some (of_Z 16)) ∧
  (msg_type m = "danmaku" →
   ∃ e' el0 el,
     handleMessage now m (c, pg) = (c, Page (danmakuLayer pg) (Some e')) ∧
     danmakuPool (getDanmakuElement e).2 !! (getDanmakuElement e).1 =
       Some el0 ∧
     danmakuPool e' !! (getDanmakuElement e).1 = Some el ∧
     style_display el = DisplayBlock ∧
     textContent el = default "" (msg_content m) ∧
     (msg_color m = None → style_color el = "#FFFFFF") ∧
     (∀ col, msg_color m = Some col → col ≠ "" →
             style_color el = if css_color col then col else style_color el0) ∧
     (msg_font_size m = None → style_fontSize el = Some (of_Z 24)) ∧
     (∀ n, msg_font_size m = Some n → number_truthy n = true →
           style_fontSize el =
             if css_nonnegative n then Some n else style_fontSize el0)) ∧
  (msg_type m ∉ ["auth_success"; "danmaku"; "system"; "heartbeat"] →
   handleMessage now m (c, pg) = (c, pg)) ∧
  onMessage now None (c, pg) = (c, pg).
Proof.
  intros He Hsel. split; [|split; [|split; [|done]]].
  - intros Hty. unfold handleMessage. rewrite Hty.
    repeat (rewrite decide_False by done). rewrite decide_True by done.
    unfold showSystemMessage. rewrite (addDanmaku_with_engine _ _ _ _ He).
    destruct (rendered_element now
                (Danmaku (default "" (msg_message m)) (Some "#888888")
                   (Some (of_Z 16)) None) e i Hsel)
      as (el0 & el & _ & Hel & Hd & Htext & Hcol & Hfs).
    eexists _, el. split; [done|]. split; [exact Hel|]. done.
  - intros Hty. unfold handleMessage. rewrite Hty.
    repeat (rewrite decide_False by done). rewrite decide_True by done.
    rewrite (addDanmaku_with_engine _ _ _ _ He).
    destruct (rendered_element now
                (Danmaku (default "" (msg_content m)) (msg_color m)
                   (msg_font_size m) (msg_username m)) e i Hsel)
      as (el0 & el & Hel0 & Hel & Hd & Htext & Hcol & Hfs).
    eexists _, el0, el. split; [done|]. split; [exact Hel0|].
    split; [exact Hel|]. split; [done|]. split; [done|].
    unfold color_or_default in Hcol. unfold font_size_or_default in Hfs.
    cbn [color font_size] in Hcol, Hfs.
    split; [|split; [|split]].
    + intros Hc. by rewrite Hc in Hcol.
    + intros col Hc Hne. rewrite Hc in Hcol.
      by rewrite bool_decide_eq_false_2 in Hcol.
    + intros Hn. by rewrite Hn in Hfs.
    + intros n Hn Htruthy. by rewrite Hn, Htruthy in Hfs.
  - intros Hty. unfold handleMessage.
    rewrite !not_elem_of_cons in Hty.
    destruct Hty as (H1 & H2 & H3 & H4 & _).
    destruct (decide (msg_type m = "error"));
      repeat (rewrite decide_False by done); done.
Qed.

Lemma stopHeartbeat_fields c :
  let c' := stopHeartbeat c in
  sockets c' = sockets c ∧ ws c' = ws c ∧
  isAuthenticated c' = isAuthenticated c ∧ isConnected c' = isConnected c ∧
  reconnectAttempts c' = reconnectAttempts c ∧
  reconnectEnabled c' = reconnectEnabled c ∧
  reconnectTimer c' = reconnectTimer c ∧ roomIdSpan c' = roomIdSpan c ∧
  next_timer_id c' = next_timer_id c ∧ heartbeatTimer c' = None ∧
  host_timers c' =
    match heartbeatTimer c with
    | Some id => filter (λ t, ht_id t ≠ id) (host_timers c)
    | None => host_timers c
    end.
Proof.
  unfold stopHeartbeat. destruct (heartbeatTimer c) eqn:Hhb; simpl; done.
Qed.

Lemma startHeartbeat_fields c :
  let c' := startHeartbeat c in
  sockets c' = sockets c ∧ ws c' = ws c ∧
  isAuthenticated c' = isAuthenticated c ∧ isConnected c' = isConnected c ∧
  reconnectAttempts c' = reconnectAttempts c ∧
  reconnectEnabled c' = reconnectEnabled c ∧
  reconnectTimer c' = reconnectTimer c ∧ roomIdSpan c' = roomIdSpan c ∧
  next_timer_id c' = S (next_timer_id c) ∧
  heartbeatTimer c' = Some (next_timer_id c) ∧
  host_timers c' =
    host_timers (stopHeartbeat c) ++
    [HostTimer (next_timer_id c) HeartbeatTask heartbeatInterval].
Proof.
  destruct (stopHeartbeat_fields c)
    as (? & ? & ? & ? & ? & ? & ? & ? & Hnext & ? & ?).
  unfold startHeartbeat, setTimer. simpl. rewrite Hnext. done.
Qed.

(** X13. On [auth_success] the client becomes authenticated and its
    reconnect counter returns to zero.  If the page has the [#roomId]
    element, it is set to the room id, a heartbeat interval of 30000 ms is
    started under a fresh id which the client records, and the welcome text
    is shown as a system message.  If the page lacks that element, the
    handler stops at the write to it: no heartbeat is started and no
    welcome message is shown, while the client still counts as
    authenticated. *)
Theorem auth_success_effects now m c pg :
  msg_type m = "auth_success" →
  let w := handleMessage now m (c, pg) in
  isAuthenticated w.1 = true ∧ reconnectAttempts w.1 = 0 ∧
  sockets w.1 = sockets c ∧
  (∀ old, roomIdSpan c = Some old →
     roomIdSpan w.1 = Some (default "" (msg_room_id m)) ∧
     heartbeatTimer w.1 = Some (next_timer_id c) ∧
     HostTimer (next_timer_id c) HeartbeatTask 30000 ∈ host_timers w.1 ∧
     w.2 = showSystemMessage now (msg_message m) pg) ∧
  (roomIdSpan c = None →
     heartbeatTimer w.1 = heartbeatTimer c ∧
     host_timers w.1 = host_timers c ∧ w.2 = pg).
Proof.
  intros Hty w. subst w. unfold handleMessage. rewrite Hty.
  rewrite decide_True by done.
  cbn [roomIdSpan set_reconnectAttempts set_isAuthenticated].
  destruct (roomIdSpan c) as [old|] eqn:Hspan; cbn [fst snd]; [|done].
  destruct (startHeartbeat_fields
              (set_roomIdSpan (Some (default "" (msg_room_id m)))
                 (set_reconnectAttempts 0 (set_isAuthenticated true c))))
    as (Hso & _ & Hau & _ & Hat & _ & _ & Hsp & _ & Hhb & Hti).
  split; [by rewrite Hau|]. split; [by rewrite Hat|].
  split; [by rewrite Hso|]. split; [|done].
  intros old' _. split; [by rewrite Hsp|]. split; [by rewrite Hhb|].
  split; [|done]. rewrite Hti. apply elem_of_app. right. by left.
Qed.

(** ** The heartbeat interval *)

Lemma filter_all {A} (P : A → Prop) `{∀ x, Decision (P x)} (l : list A) :
  Forall P l → filter P l = l.
Proof.
  induction 1 as [|x l Hx _ IH]; [done|].
  by rewrite filter_cons_True, IH.
Qed.

Lemma heartbeat_ids_snoc ts id task d :
  heartbeat_ids (ts ++ [HostTimer id task d]) =
  heartbeat_ids ts ++ (if decide (task = HeartbeatTask) then [id] else []).
Proof.
  unfold heartbeat_ids. rewrite filter_app, fmap_app. f_equal.
  rewrite filter_singleton; [|exact ts]. simpl. by destruct (decide _).
Qed.

Lemma heartbeat_ids_clear ts id :
  heartbeat_ids (filter (λ t, ht_id t ≠ id) ts) =
  filter (λ i, i ≠ id) (heartbeat_ids ts).
Proof.
  unfold heartbeat_ids. induction ts as [|t ts IH]; [done|].
  rewrite (filter_cons (λ t, ht_id t ≠ id)).
  destruct (decide (ht_id t ≠ id)) as [Hid|Hid].
  - rewrite !(filter_cons (λ t, ht_task t = HeartbeatTask)).
    destruct (decide (ht_task t = HeartbeatTask)); [|apply IH].
    rewrite !fmap_cons, filter_cons_True by done. f_equal. apply IH.
  - rewrite (filter_cons (λ t, ht_task t = HeartbeatTask) t ts).
    destruct (decide (ht_task t = HeartbeatTask)); [|apply IH].
    rewrite fmap_cons, filter_cons_False by done. apply IH.
Qed.

Lemma heartbeat_ids_elem ts id :
  id ∈ heartbeat_ids ts ↔
  ∃ t, t ∈ ts ∧ ht_task t = HeartbeatTask ∧ ht_id t = id.
Proof.
  unfold heartbeat_ids. rewrite list_elem_of_fmap. split.
  - intros (t & -> & Ht). apply list_elem_of_filter in Ht as [? ?]. eauto.
  - intros (t & Ht & Hhb & <-). exists t. split; [done|].
    by apply list_elem_of_filter.
Qed.

Lemma timer_ids_injective ts t1 t2 :
  NoDup (ht_id <$> ts) → t1 ∈ ts → t2 ∈ ts → ht_id t1 = ht_id t2 → t1 = t2.
Proof.
  induction ts as [|t ts IH]; intros Hnd H1 H2 Heq.
  { by apply elem_of_nil in H1. }
  rewrite fmap_cons in Hnd. apply NoDup_cons in Hnd as [Hnotin Hnd].
  apply elem_of_cons in H1 as [->|H1], H2 as [->|H2]; [done| | |by apply IH].
  - exfalso. apply Hnotin. rewrite Heq. by apply list_elem_of_fmap_2.
  - exfalso. apply Hnotin. rewrite <- Heq. by apply list_elem_of_fmap_2.
Qed.

Lemma timer_ids_NoDup_filter (P : host_timer → Prop)
    `{∀ t, Decision (P t)} ts :
  NoDup (ht_id <$> ts) → NoDup (ht_id <$> filter P ts).
Proof.
  induction ts as [|t ts IH]; [done|].
  rewrite fmap_cons. intros [Hnotin Hnd]%NoDup_cons.
  rewrite filter_cons. destruct (decide (P t)); [|by apply IH].
  rewrite fmap_cons. apply NoDup_cons. split; [|by apply IH].
  intros Hin. apply Hnotin.
  apply list_elem_of_fmap in Hin as (t' & -> & Ht').
  apply list_elem_of_filter in Ht' as [_ Ht']. by apply list_elem_of_fmap_2.
Qed.

Lemma timers_fresh_set c ts :
  timers_fresh c → ts = host_timers c →
  ∀ task d,
    NoDup (ht_id <$> ts ++ [HostTimer (next_timer_id c) task d]) ∧
    Forall (λ t, ht_id t < S (next_timer_id c))
      (ts ++ [HostTimer (next_timer_id c) task d]).
Proof.
  intros [Hnd Hlt] -> task d. split.
  - rewrite fmap_app. apply NoDup_app. split; [done|]. split.
    + intros id Hid Hid'. apply list_elem_of_singleton in Hid'. subst id.
      apply list_elem_of_fmap in Hid as (t & Heq & Ht).
      eapply Forall_forall in Hlt; [|exact Ht]. simpl in Heq. lia.
    + apply NoDup_singleton.
  - apply Forall_app. split.
    + eapply Forall_impl; [exact Hlt|]. simpl. lia.
    + apply Forall_singleton. simpl. lia.
Qed.

Lemma setTimer_tracked task d c :
  task ≠ HeartbeatTask → heartbeat_tracked c →
  heartbeat_tracked (setTimer task d c).2.
Proof.
  intros Htask (Hids & Hfresh & Hauth). unfold setTimer. simpl.
  split; [|split; [|done]].
  - simpl. by rewrite heartbeat_ids_snoc, decide_False, app_nil_r.
  - by apply timers_fresh_set.
Qed.

Lemma clearTimer_fresh id c : timers_fresh c → timers_fresh (clearTimer id c).
Proof.
  intros [Hnd Hlt]. split; simpl.
  - by apply timer_ids_NoDup_filter.
  - apply Forall_forall. intros t Ht.
    apply list_elem_of_filter in Ht as [_ Ht].
    by eapply Forall_forall in Hlt.
Qed.

Lemma stopHeartbeat_tracked c :
  heartbeat_ids (host_timers c) = option_list (heartbeatTimer c) →
  timers_fresh c →
  heartbeat_tracked (stopHeartbeat c) ∧ heartbeatTimer (stopHeartbeat c) = None.
Proof.
  intros Hids Hfresh. unfold stopHeartbeat.
  destruct (heartbeatTimer c) as [id|] eqn:Hhb.
  - split; [|done]. split; [|split; [|done]].
    + simpl. rewrite heartbeat_ids_clear, Hids. simpl.
      by rewrite filter_cons_False by (intros Hne; by apply Hne).
    + by apply (clearTimer_fresh id).
  - split; [|done]. split; [by rewrite Hhb|]. split; [done|].
    by rewrite Hhb.
Qed.

Lemma startHeartbeat_tracked c :
  heartbeat_tracked c → isAuthenticated c = true →
  heartbeat_tracked (startHeartbeat c).
Proof.
  intros (Hids0 & Hfresh0 & _) Hauth.
  destruct (stopHeartbeat_tracked c Hids0 Hfresh0)
    as [(Hids & Hfresh & _) Hnone].
  destruct (stopHeartbeat_fields c)
    as (_ & _ & Hau & _ & _ & _ & _ & _ & Hnext & _ & _).
  destruct (startHeartbeat_fields c)
    as (_ & _ & Hau' & _ & _ & _ & _ & _ & Hnext' & Hhb' & Hts').
  split; [|split].
  - rewrite Hts', Hhb', heartbeat_ids_snoc, Hids, Hnone.
    by rewrite decide_True.
  - unfold timers_fresh. rewrite Hts', Hnext', <- Hnext.
    by apply timers_fresh_set.
  - intros _. by rewrite Hau'.
Qed.

Lemma heartbeat_tracked_ext c c' :
  host_timers c' = host_timers c → next_timer_id c' = next_timer_id c →
  heartbeatTimer c' = heartbeatTimer c →
  (isAuthenticated c = true → isAuthenticated c' = true) →
  heartbeat_tracked c → heartbeat_tracked c'.
Proof.
  intros Hts Hn Hhb Hau (Hids & Hfresh & Hauth).
  unfold heartbeat_tracked, timers_fresh. rewrite Hts, Hn, Hhb.
  split; [done|]. split; [done|]. intros H. by apply Hau, Hauth.
Qed.

Lemma clearTimer_tracked_stopped id c :
  heartbeat_tracked c → heartbeatTimer c = None →
  heartbeat_tracked (clearTimer id c).
Proof.
  intros (Hids & Hfresh & Hauth) Hnone. split; [|split; [|done]].
  - simpl. rewrite heartbeat_ids_clear, Hids, Hnone. done.
  - by apply clearTimer_fresh.
Qed.

Lemma clearTimer_tracked_timeout t c :
  heartbeat_tracked c → t ∈ host_timers c → ht_task t ≠ HeartbeatTask →
  heartbeat_tracked (clearTimer (ht_id t) c).
Proof.
  intros (Hids & Hfresh & Hauth) Ht Htask. split; [|split; [|done]].
  - simpl. rewrite heartbeat_ids_clear, <- Hids.
    apply filter_all. apply Forall_forall. intros id Hid Heq. subst id.
    apply heartbeat_ids_elem in Hid as (t' & Ht' & Hhb & Hid).
    destruct Hfresh as [Hnd _].
    assert (t' = t) by (by eapply timer_ids_injective). congruence.
  - by apply clearTimer_fresh.
Qed.

Lemma send_tracked m c : heartbeat_tracked c → heartbeat_tracked (send m c).2.
Proof.
  intros Hc. unfold send. destruct (open_socket c); [|done].
  by eapply heartbeat_tracked_ext; [..|exact Hc].
Qed.

Lemma sendHeartbeat_tracked c :
  heartbeat_tracked c → heartbeat_tracked (sendHeartbeat c).
Proof.
  intros Hc. unfold sendHeartbeat. destruct (open_socket c); [|done].
  by eapply heartbeat_tracked_ext; [..|exact Hc].
Qed.

Lemma scheduleReconnect_tracked c :
  heartbeat_tracked c → heartbeat_tracked (scheduleReconnect c).
Proof.
  intros Hc. unfold scheduleReconnect.
  destruct (negb (reconnectEnabled c)); [done|].
  destruct (maxReconnectAttempts <=? reconnectAttempts c); [done|].
  assert (H1 : heartbeat_tracked
                 (set_reconnectAttempts (S (reconnectAttempts c)) c)).
  { by eapply heartbeat_tracked_ext; [..|exact Hc]. }
  apply (setTimer_tracked ReconnectTask reconnectInterval) in H1; [|done].
  by eapply heartbeat_tracked_ext; [..|exact H1].
Qed.

Lemma connect_tracked constructed c :
  heartbeat_tracked c → heartbeat_tracked (connect constructed c).
Proof.
  intros Hc. unfold connect. destruct constructed.
  - by eapply heartbeat_tracked_ext; [..|exact Hc].
  - by apply scheduleReconnect_tracked.
Qed.

Lemma onOpen_tracked c : heartbeat_tracked c → heartbeat_tracked (onOpen c).
Proof.
  intros Hc. unfold onOpen. apply setTimer_tracked; [done|].
  by eapply heartbeat_tracked_ext; [..|exact Hc].
Qed.

Lemma onClose_tracked c : heartbeat_tracked c → heartbeat_tracked (onClose c).
Proof.
  intros (Hids & Hfresh & _). unfold onClose.
  destruct (stopHeartbeat_tracked
              (set_isAuthenticated false (set_isConnected false c)))
    as [Hstop _]; [done..|].
  destruct (reconnectEnabled _); [|done].
  by apply scheduleReconnect_tracked.
Qed.

Lemma disconnect_tracked c :
  heartbeat_tracked c → heartbeat_tracked (disconnect c).
Proof.
  intros (Hids & Hfresh & _). unfold disconnect.
  destruct (stopHeartbeat_tracked (set_reconnectEnabled false c))
    as [Hstop Hnone]; [done..|].
  set (c1 := stopHeartbeat (set_reconnectEnabled false c)) in *.
  assert (H2 : heartbeat_tracked
                 match reconnectTimer c1 with
                 | Some id => clearTimer id c1
                 | None => c1
                 end).
  { destruct (reconnectTimer c1); [|done].
    by apply clearTimer_tracked_stopped. }
  destruct (ws _); [|done].
  by eapply heartbeat_tracked_ext; [..|exact H2].
Qed.

Lemma find_timer_Some id c t :
  find_timer id c = Some t → t ∈ host_timers c ∧ ht_id t = id.
Proof.
  unfold find_timer. destruct (list_find _ _) as [[i t']|] eqn:Hfind;
    [|done].
  intros [= <-]. apply list_find_Some in Hfind as (Hi & Hid & _).
  split; [by eapply list_elem_of_lookup_2 | done].
Qed.

Lemma fireTimer_tracked id constructed c :
  heartbeat_tracked c → heartbeat_tracked (fireTimer id constructed c).
Proof.
  intros Hc. unfold fireTimer.
  destruct (find_timer id c) as [t|] eqn:Hfind; [|done].
  apply find_timer_Some in Hfind as [Ht <-].
  destruct (ht_task t) eqn:Htask.
  - by apply sendHeartbeat_tracked.
  - apply connect_tracked, clearTimer_tracked_timeout; [done..|congruence].
  - apply send_tracked, clearTimer_tracked_timeout; [done..|congruence].
Qed.

Lemma handleMessage_tracked now m c pg :
  heartbeat_tracked c → heartbeat_tracked (handleMessage now m (c, pg)).1.
Proof.
  intros Hc. unfold handleMessage.
  destruct (decide (msg_type m = "auth_success")).
  - assert (H1 : heartbeat_tracked
                   (set_reconnectAttempts 0 (set_isAuthenticated true c))).
    { by eapply heartbeat_tracked_ext; [..|exact Hc]. }
    cbn [roomIdSpan set_reconnectAttempts set_isAuthenticated].
    destruct (roomIdSpan c); [|done]. cbn [fst].
    apply startHeartbeat_tracked; [|done].
    by eapply heartbeat_tracked_ext; [..|exact H1].
  - repeat (destruct (decide _); [done|]) || idtac.
    destruct (decide (msg_type m = "error")); [done|].
    destruct (decide (msg_type m = "danmaku")); [done|].
    destruct (decide (msg_type m = "system")); [done|].
    destruct (decide (msg_type m = "heartbeat")); [|done].
    by apply sendHeartbeat_tracked.
Qed.

Lemma sendDanmaku_tracked text colour fontSize c :
  heartbeat_tracked c →
  heartbeat_tracked (sendDanmaku text colour fontSize c).2.
Proof.
  intros Hc. unfold sendDanmaku.
  destruct (negb (isAuthenticated c)); [done|].
  destruct (bool_decide _); [done|]. by apply send_tracked.
Qed.

Lemma set_readyState_tracked s rs c :
  heartbeat_tracked c → heartbeat_tracked (set_readyState s rs c).
Proof. intros Hc. by eapply heartbeat_tracked_ext; [..|exact Hc]. Qed.

Lemma step_tracked ev c pg :
  heartbeat_tracked c → heartbeat_tracked (step ev (c, pg)).1.
Proof.
  intros Hc. destruct ev as [s|s|s|s now data|id k|text col fs| |k]; simpl.
  - destruct (socket_state s c) as [[| | |]|]; try done. simpl.
    by apply onOpen_tracked, set_readyState_tracked.
  - destruct (socket_state s c) as [[| | |]|]; try done; simpl;
      by apply onClose_tracked, set_readyState_tracked.
  - done.
  - destruct (socket_state s c) as [[| | |]|]; try done.
    destruct data as [m|]; [|done]. by apply handleMessage_tracked.
  - by apply fireTimer_tracked.
  - unfold clickSend.
    pose proof (sendDanmaku_tracked text (Some col) (Some fs) c Hc) as H.
    by destruct (sendDanmaku text (Some col) (Some fs) c).
  - by apply disconnect_tracked.
  - by apply connect_tracked.
Qed.

(** X14. Along every run of the client, however events interleave, at most
    one heartbeat interval is active, it is the one whose id the client
    holds in [heartbeatTimer], and none is active unless the client is
    authenticated: [startHeartbeat] never leaves a second interval ticking
    and a closed connection never keeps one. *)
Theorem heartbeat_interval_unique guest span pg evs :
  let c := (run evs (newClient guest span, pg)).1 in
  heartbeat_ids (host_timers c) = option_list (heartbeatTimer c) ∧
  length (heartbeat_ids (host_timers c)) ≤ 1 ∧
  (heartbeatTimer c ≠ None → isAuthenticated c = true).
Proof.
  intros c.
  assert (Hc : heartbeat_tracked c).
  { subst c.
    assert (H0 : heartbeat_tracked (newClient guest span)).
    { split; [done|]. split; [|done]. split; [constructor | constructor]. }
    revert H0. generalize (newClient guest span), pg.
    induction evs as [|ev evs IH]; intros c0 pg0 H0; [done|].
    cbn [run]. destruct (step ev (c0, pg0)) as [c1 pg1] eqn:Hstep.
    apply IH. change c1 with (c1, pg1).1. rewrite <- Hstep.
    by apply step_tracked. }
  destruct Hc as (Hids & _ & Hauth). split; [done|]. split; [|done].
  rewrite Hids. destruct (heartbeatTimer c); simpl; lia.
Qed.

(** ** Connections and reconnects *)

Lemma pending_snoc ts id task d :
  pending_reconnects (ts ++ [HostTimer id task d]) =
  pending_reconnects ts + (if decide (task = ReconnectTask) then 1 else 0).
Proof.
  unfold pending_reconnects. rewrite filter_app, length_app. f_equal.
  rewrite filter_singleton; [|exact ts]. simpl. by destruct (decide _).
Qed.

Lemma pending_filter_le (P : host_timer → Prop) `{∀ t, Decision (P t)} ts :
  pending_reconnects (filter P ts) ≤ pending_reconnects ts.
Proof.
  unfold pending_reconnects. induction ts as [|t ts IH]; [done|].
  rewrite (filter_cons P). destruct (decide (P t)).
  - rewrite !(filter_cons (λ t, ht_task t = ReconnectTask)).
    destruct (decide _); simpl; lia.
  - rewrite (filter_cons (λ t, ht_task t = ReconnectTask) t ts).
    destruct (decide _); simpl; lia.
Qed.

Lemma pending_clear_lt ts t :
  t ∈ ts → ht_task t = ReconnectTask →
  pending_reconnects (filter (λ t', ht_id t' ≠ ht_id t) ts)
  < pending_reconnects ts.
Proof.
  intros Ht Htask. unfold pending_reconnects.
  induction ts as [|t0 ts IH]; [by apply elem_of_nil in Ht|].
  apply elem_of_cons in Ht as [<-|Ht].
  - rewrite filter_cons_False by (intros Hne; by apply Hne).
    rewrite (filter_cons_True (λ t, ht_task t = ReconnectTask)) by done.
    simpl. pose proof (pending_filter_le (λ t', ht_id t' ≠ ht_id t) ts) as Hle.
    unfold pending_reconnects in Hle. lia.
  - specialize (IH Ht).
    rewrite (filter_cons (λ t', ht_id t' ≠ ht_id t)).
    destruct (decide (ht_id t0 ≠ ht_id t)).
    + rewrite !(filter_cons (λ t, ht_task t = ReconnectTask)).
      destruct (decide _); simpl; lia.
    + rewrite (filter_cons (λ t, ht_task t = ReconnectTask) t0 ts).
      destruct (decide _); simpl; lia.
Qed.

Lemma pending_zero ts t :
  pending_reconnects ts = 0 → t ∈ ts → ht_task t ≠ ReconnectTask.
Proof.
  unfold pending_reconnects. intros Hz Ht Htask.
  apply length_zero_iff_nil in Hz.
  eapply filter_nil_not_elem_of; [exact Hz | exact Htask | exact Ht].
Qed.

Lemma live_alter f i ss :
  (∀ sock, ss !! i = Some sock →
           readyState (f sock) ≠ CLOSED ↔ readyState sock ≠ CLOSED) →
  live_sockets (alter f i ss) = live_sockets ss.
Proof.
  unfold live_sockets. revert i.
  induction ss as [|sock ss IH]; intros i Hf; [done|].
  destruct i as [|i].
  - change (alter f 0 (sock :: ss)) with (f sock :: ss).
    rewrite !filter_cons. specialize (Hf sock eq_refl).
    destruct (decide (readyState (f sock) ≠ CLOSED)),
             (decide (readyState sock ≠ CLOSED)); simpl; tauto.
  - change (alter f (S i) (sock :: ss)) with (sock :: alter f i ss).
    rewrite !filter_cons.
    specialize (IH i (λ s' Hs', Hf s' Hs')).
    destruct (decide _); simpl; lia.
Qed.

Lemma live_alter_closed f i ss sock :
  ss !! i = Some sock → readyState sock ≠ CLOSED →
  readyState (f sock) = CLOSED →
  S (live_sockets (alter f i ss)) = live_sockets ss.
Proof.
  unfold live_sockets. revert i.
  induction ss as [|sock0 ss IH]; intros i Hi Hlive Hclosed; [done|].
  destruct i as [|i].
  - injection Hi as ->.
    change (alter f 0 (sock :: ss)) with (f sock :: ss).
    rewrite filter_cons_False by (intros Hne; by apply Hne).
    by rewrite filter_cons_True.
  - change (alter f (S i) (sock0 :: ss)) with (sock0 :: alter f i ss).
    rewrite !filter_cons. specialize (IH i Hi Hlive Hclosed).
    destruct (decide _); simpl; lia.
Qed.

Lemma live_snoc ss :
  live_sockets (ss ++ [Socket CONNECTING []]) = S (live_sockets ss).
Proof.
  unfold live_sockets. rewrite filter_app, length_app.
  rewrite filter_singleton; [|exact ss]. simpl. lia.
Qed.

Lemma live_zero ss i sock :
  live_sockets ss = 0 → ss !! i = Some sock → readyState sock = CLOSED.
Proof.
  unfold live_sockets. intros Hz Hi.
  apply length_zero_iff_nil in Hz.
  destruct (decide (readyState sock = CLOSED)) as [|Hne]; [done|].
  exfalso. eapply filter_nil_not_elem_of; [exact Hz | exact Hne |].
  by eapply list_elem_of_lookup_2.
Qed.

(** *** Calm steps *)

Lemma calm_refl c : calm c c.
Proof. repeat split; done. Qed.

Lemma calm_trans c1 c2 c3 : calm c1 c2 → calm c2 c3 → calm c1 c3.
Proof.
  intros (H1 & H2 & H3 & H4 & Ha & H5 & H6) (G1 & G2 & G3 & G4 & Ga & G5 & G6).
  repeat split; try congruence; [lia | lia |].
  intros t Ht Htask. apply H6; [|done]. by apply G6.
Qed.

Lemma calm_fields c c' :
  live_sockets (sockets c') = live_sockets (sockets c) →
  length (sockets c') = length (sockets c) →
  reconnectTimer c' = reconnectTimer c →
  reconnectEnabled c' = reconnectEnabled c →
  reconnectAttempts c' ≤ reconnectAttempts c →
  host_timers c' = host_timers c → calm c c'.
Proof. intros ? ? ? ? ? Hts. repeat split; try done; by rewrite Hts. Qed.

Lemma calm_socket_send s m c : calm c (socket_send s m c).
Proof.
  apply calm_fields; try done; simpl.
  - by apply live_alter.
  - apply length_alter.
Qed.

Lemma calm_send m c : calm c (send m c).2.
Proof.
  unfold send. destruct (open_socket c); [apply calm_socket_send|].
  apply calm_refl.
Qed.

Lemma calm_sendHeartbeat c : calm c (sendHeartbeat c).
Proof.
  unfold sendHeartbeat. destruct (open_socket c); [apply calm_socket_send|].
  apply calm_refl.
Qed.

Lemma calm_clearTimer id c : calm c (clearTimer id c).
Proof.
  repeat split; try done; simpl.
  - by apply pending_filter_le.
  - intros t Ht _. by apply list_elem_of_filter in Ht as [_ ?].
Qed.

Lemma calm_setTimer task d c :
  task ≠ ReconnectTask → calm c (setTimer task d c).2.
Proof.
  intros Htask. repeat split; try done; simpl.
  - rewrite pending_snoc, decide_False by done. lia.
  - intros t Ht Ht'. apply elem_of_app in Ht as [Ht|Ht]; [done|].
    apply list_elem_of_singleton in Ht. subst t. done.
Qed.

Lemma calm_stopHeartbeat c : calm c (stopHeartbeat c).
Proof.
  unfold stopHeartbeat. destruct (heartbeatTimer c) as [id|];
    [|apply calm_refl].
  eapply calm_trans; [apply (calm_clearTimer id)|].
  by apply calm_fields.
Qed.

Lemma calm_startHeartbeat c : calm c (startHeartbeat c).
Proof.
  unfold startHeartbeat.
  eapply calm_trans; [apply calm_stopHeartbeat|].
  eapply calm_trans;
    [apply (calm_setTimer HeartbeatTask heartbeatInterval); done|].
  by apply calm_fields.
Qed.

Lemma calm_sendDanmaku text colour fontSize c :
  calm c (sendDanmaku text colour fontSize c).2.
Proof.
  unfold sendDanmaku. destruct (negb (isAuthenticated c)); [apply calm_refl|].
  destruct (bool_decide _); [apply calm_refl | apply calm_send].
Qed.

Lemma calm_handleMessage now m c pg : calm c (handleMessage now m (c, pg)).1.
Proof.
  unfold handleMessage.
  destruct (decide (msg_type m = "auth_success")).
  - cbn [roomIdSpan set_reconnectAttempts set_isAuthenticated].
    destruct (roomIdSpan c); cbn [fst];
      [|apply calm_fields; simpl; (done || lia)].
    eapply calm_trans; [|apply calm_startHeartbeat].
    apply calm_fields; simpl; (done || lia).
  - destruct (decide (msg_type m = "error")); [apply calm_refl|].
    destruct (decide (msg_type m = "danmaku")); [apply calm_refl|].
    destruct (decide (msg_type m = "system")); [apply calm_refl|].
    destruct (decide (msg_type m = "heartbeat")); [|apply calm_refl].
    apply calm_sendHeartbeat.
Qed.

Lemma calm_onOpen c : calm c (onOpen c).
Proof.
  unfold onOpen. eapply calm_trans; [|by apply calm_setTimer].
  by apply calm_fields.
Qed.

Lemma calm_clickSend text col fs c : calm c (clickSend text col fs c).2.
Proof.
  unfold clickSend.
  pose proof (calm_sendDanmaku text (Some col) (Some fs) c) as H.
  by destruct (sendDanmaku text (Some col) (Some fs) c).
Qed.

Lemma calm_disconnect c : calm (set_reconnectEnabled false c) (disconnect c).
Proof.
  unfold disconnect.
  set (c1 := stopHeartbeat (set_reconnectEnabled false c)).
  assert (H1 : calm (set_reconnectEnabled false c) c1)
    by apply calm_stopHeartbeat.
  set (c2 := match reconnectTimer c1 with
             | Some id => clearTimer id c1
             | None => c1
             end).
  assert (H2 : calm c1 c2).
  { subst c2. destruct (reconnectTimer c1);
      [apply calm_clearTimer | apply calm_refl]. }
  eapply calm_trans; [exact H1|]. eapply calm_trans; [exact H2|].
  destruct (ws c2) as [s|]; [|apply calm_refl].
  apply calm_fields; try done; simpl.
  - apply live_alter. intros sock _. unfold socket_close.
    by destruct (readyState sock) eqn:Hrs; simpl; rewrite ?Hrs.
  - apply length_alter.
Qed.

Lemma calm_fireTimer id constructed c :
  (∀ t, t ∈ host_timers c → ht_task t ≠ ReconnectTask) →
  calm c (fireTimer id constructed c).
Proof.
  intros Hnone. unfold fireTimer.
  destruct (find_timer id c) as [t|] eqn:Hfind; [|apply calm_refl].
  apply find_timer_Some in Hfind as [Ht _].
  destruct (ht_task t) eqn:Htask.
  - apply calm_sendHeartbeat.
  - by destruct (Hnone t Ht).
  - eapply calm_trans; [apply (calm_clearTimer id)|]. apply calm_send.
Qed.

Lemma socket_state_Some s c rs :
  socket_state s c = Some rs ↔
  ∃ sock, sockets c !! s = Some sock ∧ readyState sock = rs.
Proof.
  unfold socket_state. destruct (sockets c !! s) as [sock|]; simpl.
  - split; [intros [= <-]; eauto | by intros (? & [= <-] & <-)].
  - split; [done | by intros (? & ? & _)].
Qed.

Lemma calm_set_readyState s rs c :
  (∃ rs0, socket_state s c = Some rs0 ∧ rs0 ≠ CLOSED) → rs ≠ CLOSED →
  calm c (set_readyState s rs c).
Proof.
  intros (rs0 & Hs & Hlive) Hrs.
  apply socket_state_Some in Hs as (sock & Hsock & <-).
  apply calm_fields; try done; simpl.
  - apply live_alter. intros sock' Hsock'. simpl.
    assert (sock' = sock) as -> by congruence. tauto.
  - apply length_alter.
Qed.

(** *** One connection at a time *)

Lemma single_connection_calm c c' :
  calm c c' → single_connection c → single_connection c'.
Proof.
  intros (Hl & _ & Hrt & _ & _ & Hp & Hin) [Hsum Hrec]. split; [lia|].
  apply Forall_forall. intros t Ht Htask. rewrite Hrt.
  eapply Forall_forall in Hrec; [by apply Hrec | by apply Hin].
Qed.

Lemma scheduleReconnect_single c :
  live_sockets (sockets c) = 0 → pending_reconnects (host_timers c) = 0 →
  single_connection (scheduleReconnect c) ∧
  length (sockets (scheduleReconnect c)) = length (sockets c).
Proof.
  intros Hl Hp.
  assert (Hc : single_connection c).
  { split; [lia|]. apply Forall_forall. intros t Ht Htask.
    by destruct (pending_zero _ _ Hp Ht). }
  unfold scheduleReconnect.
  destruct (negb (reconnectEnabled c)); [done|].
  destruct (maxReconnectAttempts <=? reconnectAttempts c); [done|].
  split; [|done]. split; simpl.
  - rewrite Hl, pending_snoc, Hp. simpl. lia.
  - apply Forall_app. split; [|by apply Forall_singleton].
    apply Forall_forall. intros t Ht Htask.
    by destruct (pending_zero _ _ Hp Ht).
Qed.

Lemma connect_single constructed c :
  live_sockets (sockets c) = 0 → pending_reconnects (host_timers c) = 0 →
  single_connection (connect constructed c).
Proof.
  intros Hl Hp. unfold connect. destruct constructed.
  - split; simpl.
    + rewrite live_snoc, Hl, Hp. lia.
    + apply Forall_forall. intros t Ht Htask.
      by destruct (pending_zero _ _ Hp Ht).
  - by apply scheduleReconnect_single.
Qed.

Lemma onClose_single c :
  live_sockets (sockets c) = 0 → pending_reconnects (host_timers c) = 0 →
  single_connection (onClose c).
Proof.
  intros Hl Hp. unfold onClose.
  set (c0 := set_isAuthenticated false (set_isConnected false c)).
  destruct (calm_stopHeartbeat c0) as (Hl' & _ & _ & _ & _ & Hp' & _).
  assert (Hl1 : live_sockets (sockets (stopHeartbeat c0)) = 0)
    by (rewrite Hl'; exact Hl).
  assert (Hp1 : pending_reconnects (host_timers (stopHeartbeat c0)) = 0).
  { change (host_timers c0) with (host_timers c) in Hp'. lia. }
  destruct (reconnectEnabled _).
  - by apply scheduleReconnect_single.
  - split; [lia|]. apply Forall_forall. intros t Ht Htask.
    by destruct (pending_zero _ _ Hp1 Ht).
Qed.

Lemma closed_socket_counts s c rs :
  socket_state s c = Some rs → rs ≠ CLOSED →
  S (live_sockets (sockets (set_readyState s CLOSED c))) =
    live_sockets (sockets c) ∧
  host_timers (set_readyState s CLOSED c) = host_timers c.
Proof.
  intros Hs Hlive. apply socket_state_Some in Hs as (sock & Hsock & <-).
  split; [|done]. simpl. by eapply live_alter_closed.
Qed.

Lemma fireTimer_single id constructed c :
  single_connection c → single_connection (fireTimer id constructed c).
Proof.
  intros Hc. pose proof Hc as [Hsum Hrec]. unfold fireTimer.
  destruct (find_timer id c) as [t|] eqn:Hfind; [|done].
  apply find_timer_Some in Hfind as [Ht <-].
  destruct (ht_task t) eqn:Htask.
  - eapply single_connection_calm; [apply calm_sendHeartbeat | done].
  - pose proof (pending_clear_lt _ _ Ht Htask) as Hlt.
    apply connect_single; simpl; lia.
  - eapply single_connection_calm; [|exact Hc].
    eapply calm_trans; [apply (calm_clearTimer (ht_id t))|]. apply calm_send.
Qed.

Lemma step_single ev c pg :
  Client.host_event ev → single_connection c →
  single_connection (step ev (c, pg)).1.
Proof.
  intros Hev Hc. pose proof Hc as [Hsum _].
  destruct ev as [s|s|s|s now data|id k|text col fs| |k]; simpl; try done.
  - destruct (socket_state s c) as [rs|] eqn:Hs; [|done].
    destruct rs; try done. simpl.
    eapply single_connection_calm; [|exact Hc].
    eapply calm_trans; [|apply calm_onOpen].
    apply calm_set_readyState; [|done]. by exists CONNECTING.
  - destruct (socket_state s c) as [rs|] eqn:Hs; [|done].
    destruct (decide (rs = CLOSED)) as [->|Hlive]; [done|].
    destruct (closed_socket_counts s c rs Hs Hlive) as [Hl Hts].
    assert (single_connection (onClose (set_readyState s CLOSED c))).
    { apply onClose_single; [lia | rewrite Hts; lia]. }
    by destruct rs.
  - destruct (socket_state s c) as [[| | |]|]; try done.
    destruct data as [m|]; [|done].
    eapply single_connection_calm; [apply calm_handleMessage | done].
  - by apply fireTimer_single.
  - eapply single_connection_calm; [apply calm_clickSend | done].
  - eapply single_connection_calm; [apply calm_disconnect|].
    destruct Hc as [? Hrec]. split; [done|]. exact Hrec.
Qed.

Lemma run_single evs : ∀ c pg,
  Forall Client.host_event evs → single_connection c →
  single_connection (run evs (c, pg)).1.
Proof.
  induction evs as [|ev evs IH]; intros c pg Hevs Hc; [done|].
  apply Forall_cons in Hevs as [Hev Hevs]. cbn [run].
  pose proof (step_single ev c pg Hev Hc) as Hstep.
  destruct (step ev (c, pg)) as [c1 pg1]. by apply IH.
Qed.

(** *** After [disconnect] *)

Lemma pending_none ts :
  (∀ t, t ∈ ts → ht_task t ≠ ReconnectTask) → pending_reconnects ts = 0.
Proof.
  intros Hnone. unfold pending_reconnects.
  induction ts as [|t ts IH]; [done|].
  rewrite filter_cons_False by (apply Hnone; by left).
  apply IH. intros t' Ht'. apply Hnone. by right.
Qed.

Lemma reconnect_off_calm c c' :
  calm c c' → reconnect_off c → reconnect_off c'.
Proof.
  intros (_ & _ & _ & Hen & _ & Hp & _) [Hoff Hz]. split; [congruence | lia].
Qed.

Lemma scheduleReconnect_off c :
  reconnectEnabled c = false → scheduleReconnect c = c.
Proof. intros H. unfold scheduleReconnect. by rewrite H. Qed.

Lemma onClose_off c :
  reconnect_off c →
  reconnect_off (onClose c) ∧ length (sockets (onClose c)) = length (sockets c).
Proof.
  intros [Hoff Hz]. unfold onClose.
  set (c0 := set_isAuthenticated false (set_isConnected false c)).
  destruct (stopHeartbeat_fields c0)
    as (Hso & _ & _ & _ & _ & Hen & _ & _ & _ & _ & _).
  destruct (calm_stopHeartbeat c0) as (_ & _ & _ & _ & _ & Hp & _).
  assert (Hen' : reconnectEnabled (stopHeartbeat c0) = false)
    by (rewrite Hen; exact Hoff).
  rewrite Hen'. split; [|by rewrite Hso]. split; [done|].
  change (host_timers c0) with (host_timers c) in Hp. lia.
Qed.

Lemma step_reconnect_off ev c pg :
  Client.host_event ev → reconnect_off c →
  reconnect_off (step ev (c, pg)).1 ∧
  length (sockets (step ev (c, pg)).1) = length (sockets c).
Proof.
  intros Hev Hc. pose proof Hc as [Hoff Hz].
  assert (Hcalm : ∀ c', calm c c' →
            reconnect_off c' ∧ length (sockets c') = length (sockets c)).
  { intros c' Hcalm. split; [by eapply reconnect_off_calm|].
    by destruct Hcalm as (_ & ? & _). }
  destruct ev as [s|s|s|s now data|id k|text col fs| |k]; simpl; try done.
  - destruct (socket_state s c) as [rs|] eqn:Hs; [|done].
    destruct rs; try done. simpl. apply Hcalm.
    eapply calm_trans; [|apply calm_onOpen].
    apply calm_set_readyState; [|done]. by exists CONNECTING.
  - destruct (socket_state s c) as [rs|] eqn:Hs; [|done].
    assert (reconnect_off (onClose (set_readyState s CLOSED c)) ∧
            length (sockets (onClose (set_readyState s CLOSED c))) =
            length (sockets c)) as Hres.
    { destruct (onClose_off (set_readyState s CLOSED c)) as [? Hlen];
        [by split|].
      split; [done|]. rewrite Hlen. simpl. apply length_alter. }
    by destruct rs.
  - destruct (socket_state s c) as [[| | |]|]; try done.
    destruct data as [m|]; [|done]. apply Hcalm, calm_handleMessage.
  - apply Hcalm, calm_fireTimer. intros t Ht. by eapply pending_zero.
  - apply Hcalm, calm_clickSend.
  - destruct (calm_disconnect c) as (_ & Hlen & _ & Hen & _ & Hp & _).
    split; [split; [exact Hen | simpl in Hp; lia] | exact Hlen].
Qed.

Lemma run_reconnect_off evs : ∀ c pg,
  Forall Client.host_event evs → reconnect_off c →
  reconnect_off (run evs (c, pg)).1 ∧
  length (sockets (run evs (c, pg)).1) = length (sockets c).
Proof.
  induction evs as [|ev evs IH]; intros c pg Hevs Hc; [done|].
  apply Forall_cons in Hevs as [Hev Hevs]. cbn [run].
  destruct (step_reconnect_off ev c pg Hev Hc) as [Hoff Hlen].
  destruct (step ev (c, pg)) as [c1 pg1]. simpl in *.
  destruct (IH c1 pg1 Hevs Hoff) as [? Hlen']. split; [done|]. congruence.
Qed.

Lemma disconnect_reconnect_off c :
  single_connection c → reconnect_off (disconnect c).
Proof.
  intros [_ Hrec].
  destruct (calm_disconnect c) as (_ & _ & _ & Hen & _ & _ & _).
  split; [exact Hen|]. apply pending_none. intros t Ht Htask.
  revert Ht. unfold disconnect.
  set (c1 := stopHeartbeat (set_reconnectEnabled false c)).
  destruct (stopHeartbeat_fields (set_reconnectEnabled false c))
    as (_ & _ & _ & _ & _ & _ & Hrt & _ & _ & _ & _).
  destruct (calm_stopHeartbeat (set_reconnectEnabled false c))
    as (_ & _ & _ & _ & _ & _ & Hin).
  fold c1 in Hrt, Hin.
  assert (Hc1 : ∀ t', t' ∈ host_timers c1 → ht_task t' = ReconnectTask →
            reconnectTimer c1 = Some (ht_id t')).
  { intros t' Ht' Htask'. rewrite Hrt. simpl.
    eapply Forall_forall in Hrec; [by apply Hrec|]. by apply Hin. }
  destruct (reconnectTimer c1) as [id|] eqn:Hid.
  - intros Ht.
    assert (Ht2 : t ∈ host_timers (clearTimer id c1)).
    { by destruct (ws (clearTimer id c1)). }
    simpl in Ht2. apply list_elem_of_filter in Ht2 as [Hne Ht1].
    specialize (Hc1 t Ht1 Htask). congruence.
  - intros Ht.
    assert (Ht1 : t ∈ host_timers c1) by (by destruct (ws c1)).
    by specialize (Hc1 t Ht1 Htask).
Qed.

Lemma newClient_connect_single guest span constructed :
  single_connection (connect constructed (newClient guest span)).
Proof. by apply connect_single. Qed.

(** X15. Suppose at most one connection attempt is outstanding (one live
    socket or one pending reconnect timeout, which is then the one recorded
    in [reconnectTimer]).  That is so right after the first [connect()], and
    every socket event, timer and user action other than a further
    [connect()] keeps it so.  Then once the user has called [disconnect()]
    the client stays disconnected: whatever the sockets and timers still
    deliver, it opens no new socket and schedules no reconnect, because the
    one pending reconnect, if any, is the one [disconnect] cancels and the
    close handler no longer schedules another. *)
Theorem disconnect_is_final c pg evs1 evs2 :
  single_connection c →
  Forall Client.host_event evs1 → Forall Client.host_event evs2 →
  let w1 := run evs1 (c, pg) in
  let w2 := run evs2 (disconnect w1.1, w1.2) in
  (∀ guest span constructed,
     single_connection (connect constructed (newClient guest span))) ∧
  single_connection w1.1 ∧
  length (sockets w2.1) = length (sockets w1.1) ∧
  reconnectEnabled w2.1 = false ∧
  pending_reconnects (host_timers w2.1) = 0.
Proof.
  intros Hc Hevs1 Hevs2 w1 w2.
  split; [apply newClient_connect_single|].
  assert (H1 : single_connection w1.1).
  { subst w1. by apply run_single. }
  split; [done|].
  pose proof (disconnect_reconnect_off _ H1) as Hoff.
  destruct (run_reconnect_off evs2 (disconnect w1.1) w1.2 Hevs2 Hoff)
    as [[Hen Hp] Hlen].
  fold w2 in Hen, Hp, Hlen. split; [|done]. rewrite Hlen.
  by destruct (calm_disconnect w1.1) as (_ & ? & _).
Qed.

(** *** A reconnect that [disconnect] does not cancel *)

Lemma find_timer_clearTimer id id' c :
  id ≠ id' → find_timer id (clearTimer id' c) = find_timer id c.
Proof.
  intros Hne. unfold find_timer, clearTimer. simpl.
  induction (host_timers c) as [|t ts IH]; [done|].
  rewrite filter_cons. destruct (decide (ht_id t ≠ id')) as [Hk|Hk].
  - cbn [list_find]. destruct (decide (ht_id t = id)); [done|].
    destruct (list_find _ (filter _ ts)) as [[? ?]|],
             (list_find _ ts) as [[? ?]|]; simpl in *; done.
  - assert (Heq : ht_id t = id').
    { destruct (decide (ht_id t = id')); [done | by destruct Hk]. }
    cbn [list_find]. rewrite decide_False by congruence. rewrite IH.
    by destruct (list_find _ ts) as [[? ?]|].
Qed.

Lemma find_timer_disconnect id c :
  reconnectTimer c ≠ Some id → heartbeatTimer c ≠ Some id →
  find_timer id (disconnect c) = find_timer id c.
Proof.
  intros Hrt Hhb. unfold disconnect.
  set (c0 := set_reconnectEnabled false c).
  assert (H1 : find_timer id (stopHeartbeat c0) = find_timer id c).
  { unfold stopHeartbeat. change (heartbeatTimer c0) with (heartbeatTimer c).
    destruct (heartbeatTimer c) as [hb|]; [|done].
    change (find_timer id (clearTimer hb c0) = find_timer id c0).
    apply find_timer_clearTimer. congruence. }
  destruct (stopHeartbeat_fields c0)
    as (_ & _ & _ & _ & _ & _ & Hrt1 & _).
  set (c1 := stopHeartbeat c0) in *.
  assert (H2 : find_timer id
                 match reconnectTimer c1 with
                 | Some id' => clearTimer id' c1
                 | None => c1
                 end = find_timer id c).
  { rewrite Hrt1. change (reconnectTimer c0) with (reconnectTimer c).
    destruct (reconnectTimer c) as [rt|]; [|done].
    rewrite find_timer_clearTimer by congruence. done. }
  by destruct (ws _).
Qed.

(** X22. [disconnect()] cancels only the reconnect timeout whose id is in
    [reconnectTimer].  A reconnect timeout scheduled earlier and still
    pending (there is one after two [connect()] calls whose sockets both
    closed) survives it; when that timeout fires, [connect()] runs although
    reconnecting was switched off, and a new socket is created. *)
Theorem disconnect_misses_older_reconnect c t :
  find_timer (ht_id t) c = Some t → ht_task t = ReconnectTask →
  reconnectTimer c ≠ Some (ht_id t) → heartbeatTimer c ≠ Some (ht_id t) →
  let c1 := disconnect c in
  let c2 := fireTimer (ht_id t) true c1 in
  reconnectEnabled c1 = false ∧
  find_timer (ht_id t) c1 = Some t ∧
  sockets c2 = sockets c1 ++ [Socket CONNECTING []] ∧
  ws c2 = Some (length (sockets c1)) ∧
  live_sockets (sockets c2) = S (live_sockets (sockets c1)).
Proof.
  intros Hfind Htask Hrt Hhb c1 c2.
  assert (Hfind1 : find_timer (ht_id t) c1 = Some t).
  { subst c1. by rewrite find_timer_disconnect. }
  split.
  { by destruct (calm_disconnect c) as (_ & _ & _ & ? & _). }
  split; [done|].
  subst c2. unfold fireTimer. rewrite Hfind1, Htask. simpl.
  split; [done|]. split; [done|]. apply live_snoc.
Qed.

(** *** Giving up *)

Lemma offline_calm c c' : calm c c' → offline c → offline c'.
Proof. intros (Hl & _ & _ & _ & _ & Hp & _) [Hz Hz']. split; lia. Qed.

Lemma offline_no_socket s c rs :
  offline c → socket_state s c = Some rs → rs = CLOSED.
Proof.
  intros [Hl _] Hs. apply socket_state_Some in Hs as (sock & Hsock & <-).
  by eapply live_zero.
Qed.

Lemma offline_open_socket c : offline c → open_socket c = None.
Proof.
  intros [Hl _]. destruct (open_socket c) as [s|] eqn:Hopen; [|done].
  apply open_socket_Some in Hopen as (_ & sock & Hsock & Hrs).
  pose proof (live_zero _ _ _ Hl Hsock). congruence.
Qed.

Lemma step_offline ev c pg :
  Client.host_event ev → offline c →
  offline (step ev (c, pg)).1 ∧
  length (sockets (step ev (c, pg)).1) = length (sockets c).
Proof.
  intros Hev Hc. pose proof Hc as [Hl Hp].
  assert (Hcalm : ∀ c', calm c c' →
            offline c' ∧ length (sockets c') = length (sockets c)).
  { intros c' Hcalm. split; [by eapply offline_calm|].
    by destruct Hcalm as (_ & ? & _). }
  destruct ev as [s|s|s|s now data|id k|text col fs| |k]; simpl; try done.
  - destruct (socket_state s c) as [rs|] eqn:Hs; [|done].
    by rewrite (offline_no_socket s c rs Hc Hs).
  - destruct (socket_state s c) as [rs|] eqn:Hs; [|done].
    by rewrite (offline_no_socket s c rs Hc Hs).
  - destruct (socket_state s c) as [rs|] eqn:Hs; [|done].
    by rewrite (offline_no_socket s c rs Hc Hs).
  - apply Hcalm, calm_fireTimer. intros t Ht. by eapply pending_zero.
  - apply Hcalm, calm_clickSend.
  - destruct (calm_disconnect c) as (Hl' & Hlen & _ & _ & _ & Hp' & _).
    simpl in *. split; [split; lia | exact Hlen].
Qed.

Lemma run_offline evs : ∀ c pg,
  Forall Client.host_event evs → offline c →
  offline (run evs (c, pg)).1 ∧
  length (sockets (run evs (c, pg)).1) = length (sockets c).
Proof.
  induction evs as [|ev evs IH]; intros c pg Hevs Hc; [done|].
  apply Forall_cons in Hevs as [Hev Hevs]. cbn [run].
  destruct (step_offline ev c pg Hev Hc) as [Hoff Hlen].
  destruct (step ev (c, pg)) as [c1 pg1]. simpl in *.
  destruct (IH c1 pg1 Hevs Hoff) as [? Hlen']. split; [done|]. congruence.
Qed.

Lemma scheduleReconnect_capped c :
  reconnectAttempts c = maxReconnectAttempts → scheduleReconnect c = c.
Proof.
  intros H. unfold scheduleReconnect. rewrite H.
  by destruct (negb (reconnectEnabled c)).
Qed.

Lemma onClose_capped c :
  offline c → reconnectAttempts c = maxReconnectAttempts →
  offline (onClose c) ∧ length (sockets (onClose c)) = length (sockets c).
Proof.
  intros Hc Hcap. unfold onClose.
  set (c0 := set_isAuthenticated false (set_isConnected false c)).
  destruct (stopHeartbeat_fields c0)
    as (Hso & _ & _ & _ & Hat & _ & _ & _ & _ & _ & _).
  assert (Hoff : offline (stopHeartbeat c0)).
  { eapply offline_calm; [apply calm_stopHeartbeat|]. exact Hc. }
  rewrite scheduleReconnect_capped by (rewrite Hat; exact Hcap).
  split; [by destruct (reconnectEnabled _) | ].
  by destruct (reconnectEnabled _); rewrite Hso.
Qed.

(** X16. Suppose at most one connection attempt is outstanding (as it is
    after the first [connect()] and as long as [connect()] is not called
    again).  Then the client gives up for good: when its connection closes
    while the reconnect counter stands at its maximum of ten, no reconnect
    is scheduled, and from then on no socket event or timer can bring the
    client back.  It creates no further socket and [sendDanmaku] returns
    false whatever is typed. *)
Theorem reconnect_gives_up c pg evs1 s evs2 :
  single_connection c →
  Forall Client.host_event evs1 → Forall Client.host_event evs2 →
  let w1 := run evs1 (c, pg) in
  reconnectAttempts w1.1 = maxReconnectAttempts →
  (∃ rs, socket_state s w1.1 = Some rs ∧ rs ≠ CLOSED) →
  let w2 := run evs2 (step (SocketCloses s) w1) in
  (∀ guest span constructed,
     single_connection (connect constructed (newClient guest span))) ∧
  length (sockets w2.1) = length (sockets w1.1) ∧
  live_sockets (sockets w2.1) = 0 ∧
  pending_reconnects (host_timers w2.1) = 0 ∧
  ∀ text colour fontSize, (sendDanmaku text colour fontSize w2.1).1 = false.
Proof.
  intros Hc Hevs1 Hevs2 w1 Hcap (rs & Hs & Hlive) w2.
  split; [apply newClient_connect_single|].
  assert (H1 : single_connection w1.1).
  { subst w1. by apply run_single. }
  destruct H1 as [Hsum _].
  destruct (closed_socket_counts s w1.1 rs Hs Hlive) as [Hl Hts].
  assert (Hstep : step (SocketCloses s) w1 =
                  (onClose (set_readyState s CLOSED w1.1), w1.2)).
  { destruct w1 as [c1 pg1]. simpl in *. rewrite Hs. by destruct rs. }
  assert (Hoff0 : offline (set_readyState s CLOSED w1.1)).
  { split; [lia | rewrite Hts; lia]. }
  destruct (onClose_capped _ Hoff0 Hcap) as [Hoff1 Hlen1].
  destruct (run_offline evs2 _ w1.2 Hevs2 Hoff1) as [Hoff2 Hlen2].
  subst w2. rewrite Hstep. split; [|split; [|split]].
  - rewrite Hlen2, Hlen1. simpl. apply length_alter.
  - by destruct Hoff2.
  - by destruct Hoff2.
  - intros text colour fontSize. unfold sendDanmaku, send.
    rewrite (offline_open_socket _ Hoff2).
    destruct (negb _); [done|]. by destruct (bool_decide _).
Qed.

(** *** The reconnect counter *)

Lemma scheduleReconnect_attempts c :
  reconnectAttempts c ≤ maxReconnectAttempts →
  reconnectAttempts (scheduleReconnect c) ≤ maxReconnectAttempts.
Proof.
  intros H. unfold scheduleReconnect.
  destruct (negb (reconnectEnabled c)); [done|].
  destruct (maxReconnectAttempts <=? reconnectAttempts c) eqn:Hle; [done|].
  apply Nat.leb_gt in Hle. simpl. lia.
Qed.

Lemma step_attempts ev c pg :
  reconnectAttempts c ≤ maxReconnectAttempts →
  reconnectAttempts (step ev (c, pg)).1 ≤ maxReconnectAttempts.
Proof.
  intros Hc.
  assert (Hcalm : ∀ c', calm c c' →
            reconnectAttempts c' ≤ maxReconnectAttempts).
  { intros c' (_ & _ & _ & _ & Ha & _). lia. }
  assert (Hclose : ∀ c0, reconnectAttempts c0 = reconnectAttempts c →
            reconnectAttempts (onClose c0) ≤ maxReconnectAttempts).
  { intros c0 Heq. unfold onClose.
    set (c1 := set_isAuthenticated false (set_isConnected false c0)).
    destruct (stopHeartbeat_fields c1)
      as (_ & _ & _ & _ & Hat & _ & _ & _ & _ & _ & _).
    assert (reconnectAttempts (stopHeartbeat c1) ≤ maxReconnectAttempts)
      by (rewrite Hat; simpl; lia).
    destruct (reconnectEnabled _); [|done].
    by apply scheduleReconnect_attempts. }
  destruct ev as [s|s|s|s now data|id k|text col fs| |k]; simpl.
  - by destruct (socket_state s c) as [[| | |]|].
  - destruct (socket_state s c) as [[| | |]|]; try done; simpl;
      by apply Hclose.
  - done.
  - destruct (socket_state s c) as [[| | |]|]; try done.
    destruct data as [m|]; [|done]. apply Hcalm, calm_handleMessage.
  - unfold fireTimer. destruct (find_timer id c) as [t|]; [|done].
    destruct (ht_task t).
    + apply Hcalm, calm_sendHeartbeat.
    + unfold connect. destruct k; [done|].
      by apply scheduleReconnect_attempts.
    + apply Hcalm. eapply calm_trans; [apply (calm_clearTimer id)|].
      apply calm_send.
  - apply Hcalm, calm_clickSend.
  - destruct (calm_disconnect c) as (_ & _ & _ & _ & Ha & _). simpl in Ha. lia.
  - unfold connect. destruct k; [done|]. by apply scheduleReconnect_attempts.
Qed.

(** X17. The reconnect counter never exceeds ten, whatever the order of
    socket events, timers and user calls (manual [connect()] calls
    included); at ten, neither a closing socket nor a failed [connect()]
    schedules another attempt. *)
Theorem reconnect_attempts_bounded guest span pg evs :
  let c := (run evs (newClient guest span, pg)).1 in
  reconnectAttempts c ≤ maxReconnectAttempts ∧
  (reconnectAttempts c = maxReconnectAttempts →
   scheduleReconnect c = c ∧ connect false c = c ∧
   host_timers (onClose c) = host_timers (stopHeartbeat c)).
Proof.
  intros c.
  assert (Hc : reconnectAttempts c ≤ maxReconnectAttempts).
  { subst c.
    assert (H0 : reconnectAttempts (newClient guest span)
                 ≤ maxReconnectAttempts) by (simpl; unfold maxReconnectAttempts; lia).
    revert H0. generalize (newClient guest span), pg.
    induction evs as [|ev evs IH]; intros c0 pg0 H0; [done|].
    cbn [run]. pose proof (step_attempts ev c0 pg0 H0) as Hstep.
    destruct (step ev (c0, pg0)) as [c1 pg1]. by apply IH. }
  split; [done|]. intros Hcap.
  split; [by apply scheduleReconnect_capped|].
  split; [by apply scheduleReconnect_capped|].
  unfold onClose.
  set (c0 := set_isAuthenticated false (set_isConnected false c)).
  destruct (stopHeartbeat_fields c0)
    as (_ & _ & _ & _ & Hat & _ & _ & _ & _ & _ & _).
  rewrite scheduleReconnect_capped by (rewrite Hat; exact Hcap).
  assert (Hsame : host_timers (stopHeartbeat c0) = host_timers (stopHeartbeat c)).
  { unfold stopHeartbeat. simpl. by destruct (heartbeatTimer c). }
  by destruct (reconnectEnabled _).
Qed.

End ClientProperties.

(** * Properties of the WebSocket composable *)

Section ComposableProperties.

Import Composable.

Lemma composable_stopHeartbeat_fields c :
  let c' := stopHeartbeat c in
  opts c' = opts c ∧ sockets c' = sockets c ∧ ws c' = ws c ∧
  reconnectTimer c' = reconnectTimer c ∧
  reconnectAttempts c' = reconnectAttempts c ∧
  next_timer_id c' = next_timer_id c ∧ heartbeatTimer c' = None ∧
  (∀ t, t ∈ host_timers c' → t ∈ host_timers c).
Proof.
  unfold stopHeartbeat. destruct (heartbeatTimer c) eqn:Hhb; simpl.
  - repeat split; try done. intros t Ht.
    by apply list_elem_of_filter in Ht as [_ ?].
  - repeat split; done.
Qed.

Lemma composable_disconnect_fields c :
  let c' := disconnect c in
  opts c' = opts c ∧ ws c' = ws c ∧
  reconnectAttempts c' = reconnectAttempts c ∧
  next_timer_id c' = next_timer_id c ∧ heartbeatTimer c' = None ∧
  (∀ t, t ∈ host_timers c' → t ∈ host_timers c) ∧
  sockets c' =
    match ws c with
    | Some s => alter Client.socket_close s (sockets c)
    | None => sockets c
    end.
Proof.
  unfold disconnect.
  destruct (composable_stopHeartbeat_fields c)
    as (Ho & Hso & Hws & Hrt & Hat & Hn & Hhb & Hin).
  set (c1 := stopHeartbeat c) in *.
  set (c2 := match reconnectTimer c1 with
             | Some id => clearTimer id c1
             | None => c1
             end).
  assert (H2 : opts c2 = opts c ∧ sockets c2 = sockets c ∧ ws c2 = ws c ∧
               reconnectAttempts c2 = reconnectAttempts c ∧
               next_timer_id c2 = next_timer_id c ∧ heartbeatTimer c2 = None ∧
               ∀ t, t ∈ host_timers c2 → t ∈ host_timers c).
  { subst c2. destruct (reconnectTimer c1); simpl; [|by repeat split].
    repeat split; try done. intros t Ht.
    apply list_elem_of_filter in Ht as [_ Ht]. by apply Hin. }
  destruct H2 as (Ho2 & Hso2 & Hws2 & Hat2 & Hn2 & Hhb2 & Hin2).
  rewrite Hws2. destruct (ws c); simpl; [|done].
  by rewrite Hso2.
Qed.

Lemma composable_find_fresh c id task d ts :
  Forall (λ t, ht_id t < id) ts →
  host_timers c = ts ++ [HostTimer id task d] →
  find_timer id c = Some (HostTimer id task d).
Proof.
  intros Hfresh Hts. unfold find_timer. rewrite Hts.
  assert (Hfind : list_find (λ t, ht_id t = id) (ts ++ [HostTimer id task d])
                  = Some (length ts, HostTimer id task d)).
  { apply list_find_Some. split; [by apply list_lookup_middle|].
    split; [done|]. intros j t Hj Hlt.
    rewrite lookup_app_l in Hj by done.
    eapply Forall_lookup_1 in Hfresh; [|exact Hj]. simpl in Hfresh. lia. }
  by rewrite Hfind.
Qed.

(** X18. In the composable, [disconnect()] does not end the connection
    for good.  It closes the socket but leaves nothing that stops
    [handleClose] from scheduling a reconnect: when the close event of the
    socket arrives (and the counter is below its maximum), a reconnect
    timeout is pending again, and when it fires a new socket is opened. *)
Theorem composable_disconnect_reconnects c s sock :
  ws c = Some s → sockets c !! s = Some sock → readyState sock ≠ CLOSED →
  reconnectAttempts c < maxReconnectAttempts (opts c) →
  Forall (λ t, ht_id t < next_timer_id c) (host_timers c) →
  let id := next_timer_id c in
  let c1 := socketCloses s (disconnect c) in
  let c2 := fireTimer id true c1 in
  reconnectTimer c1 = Some id ∧
  HostTimer id ReconnectTask (reconnectInterval (opts c)) ∈ host_timers c1 ∧
  reconnectAttempts c1 = S (reconnectAttempts c) ∧
  sockets c2 = sockets c1 ++ [Socket CONNECTING []] ∧
  ws c2 = Some (length (sockets c)).
Proof.
  intros Hws Hsock Hlive Hlt Hfresh id c1 c2.
  destruct (composable_disconnect_fields c)
    as (Ho & Hws' & Hat & Hn & Hhb & Hin & Hso).
  rewrite Hws in Hso.
  set (d := disconnect c) in *.
  assert (Hstate : ∃ rs, socket_state s d = Some rs ∧ rs ≠ CLOSED).
  { unfold socket_state. rewrite Hso, list_lookup_alter_eq, Hsock. simpl.
    eexists. split; [done|]. unfold Client.socket_close.
    destruct (readyState sock) eqn:E; simpl; congruence. }
  destruct Hstate as (rs & Hrs & Hrs').
  set (d1 := set_readyState s CLOSED d).
  assert (Hc1 : c1 = handleClose d1).
  { subst c1. unfold socketCloses. rewrite Hrs. by destruct rs. }
  set (d2 := stopHeartbeat
               (set_isAuthenticated false (set_isConnected false d1))).
  assert (Hd2 : d2 = set_isAuthenticated false (set_isConnected false d1)).
  { subst d2. unfold stopHeartbeat. simpl. by rewrite Hhb. }
  assert (Hsched : c1 =
            set_reconnectTimer (Some id)
              (set_host_timers
                 (host_timers d ++
                  [HostTimer id ReconnectTask (reconnectInterval (opts c))])
                 (S id)
                 (set_reconnectAttempts (S (reconnectAttempts c)) d2))).
  { rewrite Hc1. unfold handleClose. fold d2. unfold scheduleReconnect.
    assert (Hleb : (maxReconnectAttempts (opts d2) <=? reconnectAttempts d2)
                   = false).
    { rewrite Hd2. simpl. rewrite Ho, Hat. by apply Nat.leb_gt. }
    rewrite Hleb. unfold setTimer. rewrite Hd2. simpl.
    by rewrite Ho, Hat, Hn. }
  split; [by rewrite Hsched|]. split.
  { rewrite Hsched. simpl. apply elem_of_app. right. by left. }
  split; [by rewrite Hsched|].
  assert (Hfind : find_timer id c1 =
            Some (HostTimer id ReconnectTask (reconnectInterval (opts c)))).
  { eapply composable_find_fresh; [|by rewrite Hsched].
    apply Forall_forall. intros t Ht.
    eapply Forall_forall in Hfresh; [exact Hfresh | by apply Hin]. }
  subst c2. unfold fireTimer. rewrite Hfind. simpl.
  split; [done|]. rewrite Hsched. simpl. rewrite Hd2. simpl.
  by rewrite length_alter, Hso, length_alter.
Qed.


End ComposableProperties.

(** * The further properties on sample runs *)

Lemma calculateTracks_geometry_witness :
  trackStatus (calculateTracks (newEngine three_lane_surface)) !! 2 =
  Some (of_Z 0).
Proof.
  apply (calculateTracks_geometry (newEngine three_lane_surface)).
  vm_compute. lia.
Defined.

Lemma reachable_lane_table_witness :
  is_Some
    (trackStatus
       (run (layout := sample_layout) sample_trace
          (newEngine three_lane_surface)) !! 2).
Proof.
  apply (reachable_lane_table (layout := sample_layout) three_lane_surface
           sample_trace).
  vm_compute. lia.
Defined.

Lemma admitted_comment_inside_surface_witness :
  (Z.of_nat 1 * (trackHeight + trackGap) + trackHeight
   ≤ Z.of_N (clientHeight (surface busy_first_lane)))%Z.
Proof.
  destruct (admitted_comment_inside_surface (layout := sample_layout)
              three_lane_surface [EvAdd 0 plain_comment] 5000 plain_comment 1)
    as (el & _ & _ & _ & _ & Hfit).
  - reflexivity.
  - exact Hfit.
Defined.

Lemma getDanmakuElement_first_hidden_witness :
  ∃ el, danmakuPool busy_first_lane !! 0 = Some el ∧
        style_display el ≠ DisplayNone.
Proof.
  eexists. split; [reflexivity|].
  eapply (proj1 (getDanmakuElement_first_hidden busy_first_lane) 0).
  - vm_compute. lia.
  - reflexivity.
Defined.


Lemma displayed_opacity_current_witness :
  opacity_applied
    (run (layout := sample_layout)
       [EvAdd 0 plain_comment; EvSetOpacity half; EvAdd 5000 styled_comment]
       (newEngine three_lane_surface)).
Proof.
  destruct (displayed_opacity_current (layout := sample_layout)
              three_lane_surface
              [EvAdd 0 plain_comment; EvSetOpacity half;
               EvAdd 5000 styled_comment]) as (_ & Happlied & _).
  - repeat constructor.
  - exact Happlied.
Defined.

Lemma clear_hides_and_resets_witness : all_hidden (clear busy_first_lane).
Proof. apply (clear_hides_and_resets busy_first_lane). Defined.

Lemma clear_leaves_stale_callback_witness :
  ∃ el,
    danmakuPool
      (fire 0
         (add (layout := sample_layout) 20000 styled_comment
            (clear busy_one_lane))) !! 0 = Some el ∧
    style_display el = DisplayNone ∧ textContent el = "" ∧
    style_transform el = None.
Proof.
  eapply (clear_leaves_stale_callback (layout := sample_layout)
            busy_one_lane 0 _ 20000 styled_comment).
  - reflexivity.
  - reflexivity.
  - discriminate.
  - reflexivity.
  - vm_compute. lia.
  - lia.
Defined.

Lemma addDanmaku_creates_engine_witness :
  ∃ e,
    danmakuEngine
      (addDanmaku (layout := sample_layout) 0 plain_comment
         (setDanmakuSpeed (of_Z 2)
            (setDanmakuEnabled false
               (setDanmakuOpacity half
                  (Page (Some one_lane_surface) None))))) = Some e ∧
    enabled e = true ∧ speed e = of_Z 100 ∧ opacity e = of_Z 1.
Proof.
  destruct (addDanmaku_creates_engine (layout := sample_layout)
              one_lane_surface 0 plain_comment half false (of_Z 2))
    as (e & He & _ & Hen & Hsp & Hop & _).
  - vm_compute. discriminate.
  - lia.
  - exists e. split; [exact He|]. split; [exact Hen|].
    split; [exact Hsp | exact Hop].
Defined.

Lemma sendDanmaku_outcome_witness :
  (Client.sendDanmaku (strings := sample_strings) "  " None None
     connecting_client).2 = connecting_client.
Proof.
  apply (sendDanmaku_outcome (strings := sample_strings) "  " None None
           connecting_client).
  reflexivity.
Defined.

Lemma incoming_messages_rendered_witness :
  ∃ e' el,
    Client.handleMessage (layout := sample_layout) 0 system_message
      (connecting_client, ready_page) =
      (connecting_client, Page (danmakuLayer ready_page) (Some e')) ∧
    danmakuPool e' !! 0 = Some el ∧ style_color el = "#888888" ∧
    style_fontSize el = Some (of_Z 16).
Proof.
  destruct (incoming_messages_rendered (layout := sample_layout) 0
              system_message connecting_client ready_page
              (newEngine one_lane_surface) 0 eq_refl eq_refl)
    as (Hsystem & _).
  destruct (Hsystem eq_refl) as (e' & el & Heq & Hel & _ & _ & Hcol & Hfs).
  exists e', el. split; [exact Heq|]. split; [exact Hel|].
  split; [exact Hcol | exact Hfs].
Defined.

Lemma auth_success_effects_witness :
  Client.isAuthenticated
    (Client.handleMessage (layout := sample_layout) 0 auth_success_message
       (Client.newClient "guest" None, no_page)).1 = true ∧
  Client.heartbeatTimer
    (Client.handleMessage (layout := sample_layout) 0 auth_success_message
       (Client.newClient "guest" None, no_page)).1 = None.
Proof.
  destruct (auth_success_effects (layout := sample_layout) 0
              auth_success_message (Client.newClient "guest" None) no_page
              eq_refl) as (Hauth & _ & _ & _ & Hmissing).
  split; [exact Hauth|].
  destruct (Hmissing eq_refl) as (Hhb & _). exact Hhb.
Defined.

Lemma heartbeat_interval_unique_witness :
  Client.isAuthenticated
    (Client.run (layout := sample_layout) (strings := sample_strings)
       (Client.UserConnects true :: short_session)
       (Client.newClient "guest" (Some ""), no_page)).1 = true.
Proof.
  apply (heartbeat_interval_unique (layout := sample_layout)
           (strings := sample_strings) "guest" (Some "") no_page
           (Client.UserConnects true :: short_session)).
  vm_compute. intros H. discriminate H.
Defined.

Lemma disconnect_is_final_witness :
  Client.reconnectEnabled
    (Client.run (layout := sample_layout) (strings := sample_strings)
       after_disconnect
       (Client.disconnect
          (Client.run (layout := sample_layout) (strings := sample_strings)
             short_session
             (Client.connect true (Client.newClient "guest" (Some "")),
              no_page)).1,
        (Client.run (layout := sample_layout) (strings := sample_strings)
           short_session
           (Client.connect true (Client.newClient "guest" (Some "")),
            no_page)).2)).1 = false.
Proof.
  destruct (disconnect_is_final (layout := sample_layout)
              (strings := sample_strings)
              (Client.connect true (Client.newClient "guest" (Some "")))
              no_page short_session after_disconnect)
    as (_ & _ & _ & Hoff & _).
  - split; [vm_compute; lia | constructor].
  - repeat constructor.
  - repeat constructor.
  - exact Hoff.
Defined.

Lemma reconnect_gives_up_witness :
  Client.live_sockets
    (Client.sockets
       (Client.run (layout := sample_layout) (strings := sample_strings)
          [Client.TimerFires 10 true]
          (Client.step (layout := sample_layout) (strings := sample_strings)
             (Client.SocketCloses 10)
             (Client.run (layout := sample_layout)
                (strings := sample_strings) failing_connections
                (Client.connect true (Client.newClient "guest" (Some "")),
                 no_page)))).1) = 0.
Proof.
  destruct (reconnect_gives_up (layout := sample_layout)
              (strings := sample_strings)
              (Client.connect true (Client.newClient "guest" (Some "")))
              no_page failing_connections 10 [Client.TimerFires 10 true])
    as (_ & _ & Hlive & _).
  - split; [vm_compute; lia | constructor].
  - unfold failing_connections. simpl. repeat constructor.
  - repeat constructor.
  - vm_compute. reflexivity.
  - exists CONNECTING. split; [vm_compute; reflexivity | discriminate].
  - exact Hlive.
Defined.

Lemma disconnect_misses_older_reconnect_witness :
  Client.sockets
    (Client.fireTimer 1 true (Client.disconnect two_closed_connections)) =
  Client.sockets (Client.disconnect two_closed_connections) ++
  [Socket CONNECTING []] ∧
  Client.reconnectEnabled (Client.disconnect two_closed_connections) = false.
Proof.
  destruct (disconnect_misses_older_reconnect two_closed_connections
              (HostTimer 1 ReconnectTask 3000))
    as (Hoff & _ & Hsockets & _).
  - reflexivity.
  - reflexivity.
  - vm_compute. discriminate.
  - vm_compute. discriminate.
  - split; [exact Hsockets | exact Hoff].
Defined.

Lemma reconnect_attempts_bounded_witness :
  Client.scheduleReconnect
    (Client.run (layout := sample_layout) (strings := sample_strings)
       (Client.UserConnects true :: failing_connections)
       (Client.newClient "guest" (Some ""), no_page)).1 =
  (Client.run (layout := sample_layout) (strings := sample_strings)
     (Client.UserConnects true :: failing_connections)
     (Client.newClient "guest" (Some ""), no_page)).1.
Proof.
  pose proof (reconnect_attempts_bounded (layout := sample_layout)
                (strings := sample_strings) "guest" (Some "") no_page
                (Client.UserConnects true :: failing_connections))
    as [_ Hcap].
  refine (proj1 (Hcap _)). vm_compute. reflexivity.
Defined.

Lemma composable_disconnect_reconnects_witness :
  Composable.reconnectAttempts
    (Composable.socketCloses 0 (Composable.disconnect open_composable)) =
    S (Composable.reconnectAttempts open_composable) ∧
  Composable.sockets
    (Composable.fireTimer (Composable.next_timer_id open_composable) true
       (Composable.socketCloses 0 (Composable.disconnect open_composable))) =
    Composable.sockets
      (Composable.socketCloses 0 (Composable.disconnect open_composable)) ++
    [Socket CONNECTING []].
Proof.
  destruct (composable_disconnect_reconnects open_composable 0
              (Socket OPEN [])) as (_ & _ & Hat & Hso & _).
  - reflexivity.
  - reflexivity.
  - discriminate.
  - vm_compute. lia.
  - vm_compute. repeat constructor.
  - split; [exact Hat | exact Hso].
Defined.


(** * Properties of the page wiring *)

Section WiringProperties.

Context {layout : Layout} {strings : StringOps}.

Lemma sendDanmaku_refused text colour fontSize (c : Client.client) :
  (Client.sendDanmaku text colour fontSize c).1 = false →
  (Client.sendDanmaku text colour fontSize c).2 = c.
Proof.
  unfold Client.sendDanmaku, Client.send.
  destruct (negb (Client.isAuthenticated c)); [done|].
  destruct (bool_decide (trim text = "")); [done|].
  by destruct (Client.open_socket c).
Qed.

Lemma slider_values_checked :
  forallb
    (λ v, bool_decide (jmul (of_Z 100) (jdiv (of_Z v) (of_Z 100)) =
                       slider_speed v) &&
          speed_bounded (slider_speed v) &&
          jgt (slider_speed v) (of_Z (v - 1)) &&
          jlt (slider_speed v) (of_Z (v + 1)))
    slider_values = true.
Proof. by vm_compute. Qed.

Lemma slider_values_elem v : (50 ≤ v ≤ 200)%Z → v ∈ slider_values.
Proof.
  intros Hv. unfold slider_values. apply list_elem_of_fmap.
  exists (Z.to_nat v). split; [lia|]. apply elem_of_seq. lia.
Qed.

(** X20. For every value [v] the speed slider can hold (50 to 200), its
    handler sets the engine speed to [100 * (v / 100)] as binary64 computes
    it: a finite positive number strictly between [v - 1] and [v + 1],
    which is [v] itself except for twelve values of [v], where it is the
    double next to [v] (above it for 55, 56 and 109 to 112, below it for 57,
    58 and 113 to 116).  The duration of any comment admitted afterwards is
    finite; the lane table and the pool are untouched. *)
Theorem speed_slider_keeps_speed_positive v pg e :
  danmakuEngine pg = Some e → (50 ≤ v ≤ 200)%Z →
  ∃ e', danmakuEngine (speedSliderInput v pg) = Some e' ∧
        speed e' = jmul (of_Z 100) (jdiv (of_Z v) (of_Z 100)) ∧
        speed e' = slider_speed v ∧
        (v ∉ slider_rounds_up → v ∉ slider_rounds_down → speed e' = of_Z v) ∧
        is_finite (speed e') = true ∧
        jgt (speed e') (of_Z 0) = true ∧
        jgt (speed e') (of_Z (v - 1)) = true ∧
        jlt (speed e') (of_Z (v + 1)) = true ∧
        trackStatus e' = trackStatus e ∧
        danmakuPool e' = danmakuPool e ∧
        ∀ d, is_finite (duration_of d e') = true.
Proof.
  intros He Hv. unfold speedSliderInput, setDanmakuSpeed. rewrite He.
  pose proof slider_values_checked as Hall.
  rewrite forallb_forall in Hall.
  specialize (Hall v (proj1 (list_elem_of_In _ _) (slider_values_elem v Hv))).
  apply andb_true_iff in Hall as [Hall Hhi].
  apply andb_true_iff in Hall as [Hall Hlo].
  apply andb_true_iff in Hall as [Heq Hb].
  apply bool_decide_eq_true in Heq.
  exists (setSpeed (jdiv (of_Z v) (of_Z 100)) e).
  assert (Hs : speed (setSpeed (jdiv (of_Z v) (of_Z 100)) e) = slider_speed v)
    by exact Heq.
  split; [done|]. split; [done|]. split; [done|]. rewrite Hs.
  destruct (speed_bounded_positive _ Hb) as [Hfin Hpos].
  split.
  { intros Hup Hdown. unfold slider_speed.
    by rewrite !bool_decide_eq_false_2. }
  split; [done|]. split; [done|]. split; [done|]. split; [done|].
  split; [done|]. split; [done|].
  intros d. apply (bounded_by_finite false 146), duration_bounded.
  by rewrite Hs.
Qed.

(** X21. In the Vue page a submitted comment empties the input box as
    soon as the text is not blank and the composable is authenticated,
    whether or not the message could be handed to the socket: if the socket
    is not open the text is gone and nothing was sent.  A blank text or an
    unauthenticated composable leaves box and state as they are.  (The
    send button of the plain page keeps the text unless it was sent.) *)
Theorem submitDanmaku_clears_input inputText colour size c :
  let r := submitDanmaku inputText colour size c in
  (trim inputText = "" ∨ Composable.isAuthenticated c = false →
   r = (inputText, c)) ∧
  (trim inputText ≠ "" → Composable.isAuthenticated c = true →
   r.1 = "" ∧
   (Composable.open_socket c = None → r.2 = c) ∧
   (∀ s, Composable.open_socket c = Some s →
         r.2 = Composable.socket_send s
                 (DanmakuMessage (trim inputText) colour size) c)) ∧
  (∀ c0 : Client.client,
     (Client.sendDanmaku inputText (Some colour) (Some size) c0).1 = false →
     Client.clickSend inputText colour size c0 = (inputText, c0)).
Proof.
  intros r. subst r. unfold submitDanmaku, handleSend.
  split; [|split].
  - intros [Hblank | Hauth].
    + by rewrite bool_decide_eq_true_2.
    + rewrite Hauth. simpl. by rewrite orb_true_r.
  - intros Hblank Hauth. rewrite bool_decide_eq_false_2 by done.
    rewrite Hauth. simpl. split; [done|].
    unfold Composable.sendDanmaku, Composable.send. rewrite Hauth. simpl.
    rewrite bool_decide_eq_false_2 by done.
    split.
    + by intros ->.
    + by intros s ->.
  - intros c0 Hfalse. unfold Client.clickSend.
    pose proof (sendDanmaku_refused inputText (Some colour) (Some size) c0)
      as Hsame.
    destruct (Client.sendDanmaku inputText (Some colour) (Some size) c0)
      as [ok c1]. simpl in *. subst ok. by rewrite (Hsame eq_refl).
Qed.

End WiringProperties.

Lemma speed_slider_keeps_speed_positive_witness :
  ∃ e',
    danmakuEngine (speedSliderInput 57 ready_page) = Some e' ∧
    speed e' = S754_finite false 8022036836253695 (-47) ∧
    is_finite
      (duration_of (layout := sample_layout) plain_comment e') = true.
Proof.
  destruct (speed_slider_keeps_speed_positive (layout := sample_layout) 57
              ready_page (newEngine one_lane_surface) eq_refl)
    as (e' & He & _ & Hs & _ & _ & _ & _ & _ & _ & _ & Hfin).
  - lia.
  - exists e'. split; [exact He|]. split; [exact Hs | apply Hfin].
Defined.

Lemma submitDanmaku_clears_input_witness :
  (submitDanmaku (strings := sample_strings) "hello" "#FFFFFF" (of_Z 24)
     closing_composable).1 = "" ∧
  (submitDanmaku (strings := sample_strings) "hello" "#FFFFFF" (of_Z 24)
     closing_composable).2 = closing_composable.
Proof.
  destruct (submitDanmaku_clears_input
              (strings := sample_strings) "hello" "#FFFFFF" (of_Z 24)
              closing_composable) as (_ & Hsent & _).
  destruct Hsent as (Hbox & Hlost & _).
  - vm_compute. discriminate.
  - reflexivity.
  - split; [exact Hbox|]. apply Hlost. reflexivity.
Defined.
